(** * Jumbotail product search: catalog store, query normaliser, ranking, result cache

    A shallow embedding of the JavaScript sources

    - [Product] and [SearchQuery] (models),
    - [InMemoryProductRepository] (primary map and six secondary indexes),
    - [SearchService] (scoring, sorting, pagination and result cache of the
      non-seasonal version; the score of the festive version in [Festive]),

    followed by the properties established about them.

    Conventions of the embedding.

    - A JS [Map] is an association list in insertion order ([JSMap]); a JS
      [Set] is a duplicate-free list in insertion order ([JSSet]).
    - Finite JS numbers are exact rationals ([Q]); rounding error of binary
      floating point is not modelled.  The values [NaN] and the infinities
      are modelled ([JsNum]) where the code can produce them ([Math.log]).
    - Strings are ASCII strings; [toLowerCase], [trim] and the regular
      expressions [\s], [\b], [[^a-z0-9]] are given their ASCII meaning.
    - [Date.now()] is an explicit argument of every function that reads the
      clock; thrown exceptions are the left summand of a [sum]. *)

From Stdlib Require Import List String Ascii ZArith QArith Qround Qminmax Bool Lia Lqa.
Import ListNotations.

Open Scope Z_scope.

(* ------------------------------------------------------------------ *)
(** ** Decidable equality on keys *)

Class EqDec (K : Type) : Type :=
  eq_dec : forall a b : K, {a = b} + {a <> b}.

#[export] Instance Z_EqDec : EqDec Z := Z.eq_dec.
#[export] Instance string_EqDec : EqDec string := string_dec.

Definition eqb_of {K : Type} `{EqDec K} (a b : K) : bool :=
  if eq_dec a b then true else false.

(* ------------------------------------------------------------------ *)
(** ** JS [Map]: association list in insertion order *)

Module JSMap.
Section Ops.
Context {K V : Type} `{EqDec K}.

Definition t : Type := list (K * V).

Definition empty : t := [].

Fixpoint get (k : K) (m : t) : option V :=
  match m with
  | [] => None
  | (k', v) :: r => if eq_dec k k' then Some v else get k r
  end.

Definition has (k : K) (m : t) : bool :=
  match get k m with Some _ => true | None => false end.

(** [Map.prototype.set]: an existing key keeps its position, a new key is
    appended. *)
Fixpoint set (k : K) (v : V) (m : t) : t :=
  match m with
  | [] => [(k, v)]
  | (k', v') :: r =>
      if eq_dec k k' then (k', v) :: r else (k', v') :: set k v r
  end.

(** [Map.prototype.delete]. *)
Fixpoint delete (k : K) (m : t) : t :=
  match m with
  | [] => []
  | (k', v') :: r =>
      if eq_dec k k' then delete k r else (k', v') :: delete k r
  end.

Definition size (m : t) : Z := Z.of_nat (List.length m).

Definition keys (m : t) : list K := List.map fst m.

Definition values (m : t) : list V := List.map snd m.

(** [m.keys().next().value] *)
Definition firstKey (m : t) : option K :=
  match m with
  | [] => None
  | (k, _) :: _ => Some k
  end.

End Ops.
Arguments t : clear implicits.
End JSMap.

(** ** JS [Set]: duplicate-free list in insertion order *)

Module JSSet.
Section Ops.
Context {A : Type} `{EqDec A}.

Definition t : Type := list A.

Definition empty : t := [].

Fixpoint has (x : A) (s : t) : bool :=
  match s with
  | [] => false
  | y :: r => if eq_dec x y then true else has x r
  end.

Definition add (x : A) (s : t) : t :=
  if has x s then s else s ++ [x].

Fixpoint delete (x : A) (s : t) : t :=
  match s with
  | [] => []
  | y :: r => if eq_dec x y then delete x r else y :: delete x r
  end.

Definition size (s : t) : Z := Z.of_nat (List.length s).

End Ops.
Arguments t : clear implicits.
End JSSet.

(* ------------------------------------------------------------------ *)
(** ** Strings *)

Module Str.

Definition chars (s : string) : list ascii := list_ascii_of_string s.
Definition ofChars (l : list ascii) : string := string_of_list_ascii l.

Definition code (c : ascii) : nat := nat_of_ascii c.

Definition isUpper (c : ascii) : bool :=
  (Nat.leb 65 (code c) && Nat.leb (code c) 90)%bool.

Definition isLower (c : ascii) : bool :=
  (Nat.leb 97 (code c) && Nat.leb (code c) 122)%bool.

Definition isDigit (c : ascii) : bool :=
  (Nat.leb 48 (code c) && Nat.leb (code c) 57)%bool.

(** [\s] restricted to ASCII: tab, line feed, vertical tab, form feed,
    carriage return, space. *)
Definition isSpace (c : ascii) : bool :=
  ((Nat.leb 9 (code c) && Nat.leb (code c) 13) || Nat.eqb (code c) 32)%bool.

(** [\w]: letters, digits and the underscore. *)
Definition isWord (c : ascii) : bool :=
  (isUpper c || isLower c || isDigit c || Nat.eqb (code c) 95)%bool.

Definition lowerChar (c : ascii) : ascii :=
  if isUpper c then ascii_of_nat (code c + 32) else c.

Definition lowerChars (l : list ascii) : list ascii := List.map lowerChar l.

Definition toLowerCase (s : string) : string := ofChars (lowerChars (chars s)).

Fixpoint dropSpaces (l : list ascii) : list ascii :=
  match l with
  | [] => []
  | c :: r => if isSpace c then dropSpaces r else l
  end.

Definition trimChars (l : list ascii) : list ascii :=
  List.rev (dropSpaces (List.rev (dropSpaces l))).

Definition trim (s : string) : string := ofChars (trimChars (chars s)).

Definition len (s : string) : Z := Z.of_nat (String.length s).

Definition eqbChars (a b : list ascii) : bool :=
  if list_eq_dec ascii_dec a b then true else false.

Fixpoint prefixChars (p l : list ascii) : bool :=
  match p, l with
  | [], _ => true
  | _ :: _, [] => false
  | a :: p', b :: l' => if ascii_dec a b then prefixChars p' l' else false
  end.

Fixpoint includesChars (p l : list ascii) : bool :=
  if prefixChars p l then true
  else match l with
       | [] => false
       | _ :: l' => includesChars p l'
       end.

Definition startsWith (s p : string) : bool := prefixChars (chars p) (chars s).

Definition endsWith (s p : string) : bool :=
  prefixChars (List.rev (chars p)) (List.rev (chars s)).

Definition includes (s p : string) : bool := includesChars (chars p) (chars s).

(** [s.split(/\s+/)]: the pieces between maximal runs of white space; a
    leading or trailing run leaves an empty piece at that end. *)
Fixpoint splitWsAux (cur : list ascii) (inWs : bool) (l : list ascii)
  : list (list ascii) :=
  match l with
  | [] => [List.rev cur]
  | c :: r =>
      if isSpace c then
        if inWs then splitWsAux cur true r
        else List.rev cur :: splitWsAux [] true r
      else splitWsAux (c :: cur) false r
  end.

Definition splitWs (s : string) : list string :=
  List.map ofChars (splitWsAux [] false (chars s)).

(** [s.split(" ")]: every single space separates. *)
Fixpoint splitSpaceAux (cur : list ascii) (l : list ascii) : list (list ascii) :=
  match l with
  | [] => [List.rev cur]
  | c :: r =>
      if Nat.eqb (code c) 32 then List.rev cur :: splitSpaceAux [] r
      else splitSpaceAux (c :: cur) r
  end.

(** [term.replace(/[^a-z0-9]/gi, "")] *)
Definition isAlnum (c : ascii) : bool := (isUpper c || isLower c || isDigit c)%bool.
Definition stripNonAlnum (s : string) : string :=
  ofChars (List.filter isAlnum (chars s)).

(** [term.replace(/[^a-z0-9]/g, "")] (no [i] flag). *)
Definition isLowerAlnum (c : ascii) : bool := (isLower c || isDigit c)%bool.
Definition stripNonLowerAlnum (s : string) : string :=
  ofChars (List.filter isLowerAlnum (chars s)).

(** [xs.join(" ")] *)
Fixpoint join (sep : string) (xs : list string) : string :=
  match xs with
  | [] => EmptyString
  | [x] => x
  | x :: r => (x ++ sep ++ join sep r)%string
  end.

(** Case-insensitive prefix test, as the [i] flag of a regular expression
    over ASCII letters. *)
Fixpoint prefixCharsCI (p l : list ascii) : bool :=
  match p, l with
  | [], _ => true
  | _ :: _, [] => false
  | a :: p', b :: l' =>
      if ascii_dec (lowerChar a) (lowerChar b) then prefixCharsCI p' l' else false
  end.

Definition headIsWord (l : list ascii) : bool :=
  match l with
  | [] => false
  | c :: _ => isWord c
  end.

(** [s.replace(new RegExp("\\b" + w + "\\b", "gi"), r)] for a non-empty
    word [w] made of word characters.  The scan goes left to right;
    [prevWord] tells whether the character before the current position is a
    word character; [skip] counts the characters of a match still to be
    consumed.  At a position where [w] matches, the left [\b] holds when the
    previous character is not a word character, the right [\b] when the
    character after the match is not one. *)
Fixpoint replaceWordAux (w r : list ascii) (prevWord : bool) (skip : nat)
  (l : list ascii) : list ascii :=
  match l with
  | [] => []
  | c :: rest =>
      match skip with
      | S k => replaceWordAux w r (isWord c) k rest
      | O =>
          if (negb prevWord && prefixCharsCI w l
              && negb (headIsWord (List.skipn (List.length w) l)))%bool
          then r ++ replaceWordAux w r (isWord c) (List.length w - 1) rest
          else c :: replaceWordAux w r (isWord c) 0 rest
      end
  end.

Definition replaceWord (w r : string) (s : string) : string :=
  ofChars (replaceWordAux (chars w) (chars r) false 0 (chars s)).

End Str.

(* ------------------------------------------------------------------ *)
(** ** JS numbers *)

(** Rationals compared as JS compares numbers. *)
Definition Qltb (a b : Q) : bool := negb (Qle_bool b a).
Definition Qgtb (a b : Q) : bool := Qltb b a.
Definition Qgeb (a b : Q) : bool := Qle_bool b a.
Definition Qis0 (a : Q) : bool := Qeq_bool a 0.

(** [x || d] on an optional number: [undefined] and [0] are falsy. *)
Definition orElse (x : option Q) (d : Q) : Q :=
  match x with
  | Some q => if Qis0 q then d else q
  | None => d
  end.

(** [Math.round]: the nearest integer, halves towards plus infinity. *)
Definition Math_round (q : Q) : Z := Qfloor (q + (1 # 2)).

(** Leibniz equality of rationals in lowest terms is decidable. *)
Definition Q_leibniz_dec (a b : Q) : {a = b} + {a <> b}.
Proof. decide equality; [apply Pos.eq_dec | apply Z.eq_dec]. Defined.

(** A JS number: a finite value, an infinity, or [NaN]. *)
Inductive JsNum : Type :=
| Fin (q : Q)
| PosInf
| NegInf
| NaN.

Module Num.

Definition sgn (q : Q) : comparison := Qcompare q 0.

Definition neg (a : JsNum) : JsNum :=
  match a with
  | Fin q => Fin (- q)
  | PosInf => NegInf
  | NegInf => PosInf
  | NaN => NaN
  end.

Definition add (a b : JsNum) : JsNum :=
  match a, b with
  | NaN, _ | _, NaN => NaN
  | Fin x, Fin y => Fin (x + y)
  | PosInf, NegInf | NegInf, PosInf => NaN
  | PosInf, _ | _, PosInf => PosInf
  | NegInf, _ | _, NegInf => NegInf
  end.

(** An infinity times a finite number. *)
Definition infTimes (pos : bool) (q : Q) : JsNum :=
  match sgn q with
  | Eq => NaN
  | Gt => if pos then PosInf else NegInf
  | Lt => if pos then NegInf else PosInf
  end.

Definition mul (a b : JsNum) : JsNum :=
  match a, b with
  | NaN, _ | _, NaN => NaN
  | Fin x, Fin y => Fin (x * y)
  | PosInf, Fin q | Fin q, PosInf => infTimes true q
  | NegInf, Fin q | Fin q, NegInf => infTimes false q
  | PosInf, PosInf | NegInf, NegInf => PosInf
  | PosInf, NegInf | NegInf, PosInf => NaN
  end.

(** Division; the sign of a zero divisor is taken to be positive. *)
Definition div (a b : JsNum) : JsNum :=
  match a, b with
  | NaN, _ | _, NaN => NaN
  | Fin x, Fin y =>
      if Qis0 y then
        match sgn x with Eq => NaN | Gt => PosInf | Lt => NegInf end
      else Fin (x / y)
  | Fin _, PosInf | Fin _, NegInf => Fin 0
  | PosInf, Fin q => if Qltb q 0 then NegInf else PosInf
  | NegInf, Fin q => if Qltb q 0 then PosInf else NegInf
  | _, _ => NaN
  end.

(** [Math.min(a, b)] and [Math.max(a, b)]: [NaN] if either argument is. *)
Definition min (a b : JsNum) : JsNum :=
  match a, b with
  | NaN, _ | _, NaN => NaN
  | NegInf, _ | _, NegInf => NegInf
  | PosInf, x | x, PosInf => x
  | Fin x, Fin y => Fin (Qmin x y)
  end.

Definition max (a b : JsNum) : JsNum :=
  match a, b with
  | NaN, _ | _, NaN => NaN
  | PosInf, _ | _, PosInf => PosInf
  | NegInf, x | x, NegInf => x
  | Fin x, Fin y => Fin (Qmax x y)
  end.

(** [x || d]: [0] and [NaN] are falsy. *)
Definition orElse (a : JsNum) (d : JsNum) : JsNum :=
  match a with
  | NaN => d
  | Fin q => if Qis0 q then d else a
  | _ => a
  end.

(** [0 <= a <= 1] as JS evaluates it: false for [NaN]. *)
Definition inUnit (a : JsNum) : bool :=
  match a with
  | Fin q => (Qle_bool 0 q && Qle_bool q 1)%bool
  | _ => false
  end.

End Num.

(** [Math.log] over an abstract natural logarithm [ln] of the positive
    rationals: [-Infinity] at [0], [NaN] below. *)
Definition Math_log (ln : Q -> Q) (a : JsNum) : JsNum :=
  match a with
  | Fin q =>
      match Num.sgn q with
      | Lt => NaN
      | Eq => NegInf
      | Gt => Fin (ln q)
      end
  | PosInf => PosInf
  | NegInf => NaN
  | NaN => NaN
  end.

(* ------------------------------------------------------------------ *)
(** ** Errors *)

(** The exceptions the modelled code throws.  The sources throw plain
    [Error] objects; the constructors record which [throw] was reached. *)
Inductive Error : Type :=
| TitleRequired                  (* "Product title is required" *)
| PriceNotPositive               (* "Product price must be greater than 0" *)
| ProductRatingOutOfRange        (* "Rating must be between 0 and 5" (Product) *)
| StockNegative                  (* "Stock cannot be negative" *)
| MinPriceAboveMaxPrice          (* "Minimum price cannot be greater than maximum price" *)
| QueryRatingOutOfRange          (* "Rating must be between 0 and 5" (SearchQuery) *)
| InvalidSortBy                  (* "Invalid sortBy value. ..." *)
| ProductNotFound (id : Z)       (* "Product with ID ... not found" *)
| TypeError.                     (* a method called on [undefined] *)

Definition Result (A : Type) : Type := (Error + A)%type.

Definition bind {A B : Type} (r : Result A) (f : A -> Result B) : Result B :=
  match r with
  | inl e => inl e
  | inr a => f a
  end.

Notation "x <- r ;; k" := (bind r (fun x => k))
  (at level 61, r at next level, right associativity).

Definition isOk {A : Type} (r : Result A) : bool :=
  match r with inr _ => true | inl _ => false end.

(* ------------------------------------------------------------------ *)
(** ** Product (models/Product.js) *)

Inductive StockStatus : Type :=
| OUT_OF_STOCK
| LOW_STOCK
| MEDIUM_STOCK
| HIGH_STOCK.

#[export] Instance StockStatus_EqDec : EqDec StockStatus.
Proof. intros a b; decide equality. Defined.

(** [product.analytics]: every field optional. *)
Record Analytics : Type := mkAnalytics {
  unitsSold : option Q;
  returnRate : option Q;
  profitMargin : option Q;
  isTrending : bool;
  isOnSale : bool
}.

Definition noAnalytics : Analytics := mkAnalytics None None None false false.

Definition Metadata : Type := JSMap.t string string.

(** The argument of [new Product(data)]: [None] is an absent (undefined)
    property. *)
Record ProductData : Type := mkProductData {
  d_productId : option Z;
  d_title : option string;
  d_description : option string;
  d_category : option string;
  d_subcategory : option string;
  d_brand : option string;
  d_model : option string;
  d_price : option Q;
  d_mrp : option Q;
  d_currency : option string;
  d_rating : option Q;
  d_ratingCount : option Q;
  d_stock : option Q;
  d_isActive : option bool;
  d_imageUrls : option (list string);
  d_metadata : option Metadata;
  d_analytics : option Analytics;
  d_searchableText : option string;
  d_tags : option (list string);
  d_createdAt : option Z;
  d_updatedAt : option Z
}.

Definition emptyData : ProductData :=
  mkProductData None None None None None None None None None None None
                None None None None None None None None None None.

(** A constructed [Product] instance. *)
Record Product : Type := mkProduct {
  productId : Z;
  title : string;
  description : option string;
  category : option string;
  subcategory : option string;
  brand : option string;
  model : option string;
  price : Q;
  mrp : option Q;
  currency : string;
  rating : Q;
  ratingCount : Q;
  stock : Q;
  isActive : bool;
  imageUrls : list string;
  metadata : Metadata;
  analytics : Analytics;
  searchableText : string;
  tags : list string;
  createdAt : Z;
  updatedAt : Z
}.

(** [x || d] on optional strings: [undefined] and the empty string are
    falsy. *)
Definition truthyStr (x : option string) : option string :=
  match x with
  | Some EmptyString => None
  | _ => x
  end.

Definition strOr (x : option string) (d : string) : string :=
  match truthyStr x with Some s => s | None => d end.

(** [[...].filter(Boolean)] on optional strings. *)
Definition filterBoolean (xs : list (option string)) : list string :=
  List.flat_map (fun x => match truthyStr x with Some s => [s] | None => [] end) xs.

(** [generateSearchableText()], on the fields it reads. *)
Definition generateSearchableText
  (title description brand model category subcategory : option string)
  (tags : list string) (metadata : Metadata) : string :=
  Str.toLowerCase
    (Str.join " "
       (filterBoolean
          ([title; description; brand; model; category; subcategory]
             ++ List.map Some tags
             ++ List.map Some (JSMap.values metadata)))).

(** [Product.validate()], on the fields as the constructor has set them. *)
Definition validateProduct (title : option string) (price : option Q)
  (rating stock : Q) : Result unit :=
  match truthyStr title with
  | None => inl TitleRequired
  | Some t =>
      if (Str.len (Str.trim t) =? 0)%Z then inl TitleRequired
      else
        match price with
        | None => inl PriceNotPositive
        | Some p =>
            if (Qis0 p || Qle_bool p 0)%bool then inl PriceNotPositive
            else if (Qltb rating 0 || Qgtb rating 5)%bool
                 then inl ProductRatingOutOfRange
                 else if Qltb stock 0 then inl StockNegative
                      else inr tt
        end
  end.

(** [new Product(data)].  [now] is [new Date()], [genId] the value
    [generateId()] would return.  The searchable text is generated before
    [this.tags] is assigned, so the generated text sees no tags. *)
Definition newProduct (now genId : Z) (data : ProductData) : Result Product :=
  let pid := match d_productId data with
             | Some i => if (i =? 0)%Z then genId else i
             | None => genId
             end in
  let rating := orElse (d_rating data) 0 in
  let ratingCount := orElse (d_ratingCount data) 0 in
  let stock := orElse (d_stock data) 0 in
  let metadata := match d_metadata data with Some m => m | None => JSMap.empty end in
  let generated :=
    generateSearchableText (d_title data) (d_description data) (d_brand data)
      (d_model data) (d_category data) (d_subcategory data) [] metadata in
  _ <- validateProduct (d_title data) (d_price data) rating stock ;;
  inr {| productId := pid;
         title := strOr (d_title data) "";
         description := d_description data;
         category := d_category data;
         subcategory := d_subcategory data;
         brand := d_brand data;
         model := d_model data;
         price := match d_price data with Some p => p | None => 0 end;
         mrp := d_mrp data;
         currency := strOr (d_currency data) "INR";
         rating := rating;
         ratingCount := ratingCount;
         stock := stock;
         isActive := match d_isActive data with Some b => b | None => true end;
         imageUrls := match d_imageUrls data with Some l => l | None => [] end;
         metadata := metadata;
         analytics := match d_analytics data with Some a => a | None => noAnalytics end;
         searchableText := strOr (d_searchableText data) generated;
         tags := match d_tags data with Some l => l | None => [] end;
         createdAt := match d_createdAt data with Some t => t | None => now end;
         updatedAt := match d_updatedAt data with Some t => t | None => now end |}.

(** [{...a, ...b}] on metadata objects. *)
Definition mergeMetadata (a b : Metadata) : Metadata :=
  List.fold_left (fun acc kv => JSMap.set (fst kv) (snd kv) acc) b a.

(** [product.updateMetadata(newMetadata)] *)
Definition Product_updateMetadata (now : Z) (newMetadata : Metadata) (p : Product)
  : Product :=
  let md := mergeMetadata (metadata p) newMetadata in
  {| productId := productId p; title := title p; description := description p;
     category := category p; subcategory := subcategory p; brand := brand p;
     model := model p; price := price p; mrp := mrp p; currency := currency p;
     rating := rating p; ratingCount := ratingCount p; stock := stock p;
     isActive := isActive p; imageUrls := imageUrls p;
     metadata := md;
     analytics := analytics p;
     searchableText :=
       generateSearchableText (Some (title p)) (description p) (brand p) (model p)
         (category p) (subcategory p) (tags p) md;
     tags := tags p; createdAt := createdAt p; updatedAt := now |}.

(** [calculateDiscount()] *)
Definition calculateDiscount (p : Product) : Z :=
  match mrp p with
  | None => 0
  | Some m =>
      if (Qis0 m || Qle_bool m (price p))%bool then 0
      else Math_round (((m - price p) / m) * 100)
  end.

(** [getStockStatus()] *)
Definition getStockStatus (p : Product) : StockStatus :=
  if Qis0 (stock p) then OUT_OF_STOCK
  else if Qle_bool (stock p) 10 then LOW_STOCK
  else if Qle_bool (stock p) 50 then MEDIUM_STOCK
  else HIGH_STOCK.

(** [getPriceRange()] *)
Definition getPriceRange (p : Product) : string :=
  if Qltb (price p) 1000 then "0-1000"
  else if Qltb (price p) 5000 then "1000-5000"
  else if Qltb (price p) 10000 then "5000-10000"
  else if Qltb (price p) 25000 then "10000-25000"
  else if Qltb (price p) 50000 then "25000-50000"
  else if Qltb (price p) 100000 then "50000-100000"
  else "100000+".

(** [getRatingBucket()] *)
Definition getRatingBucket (p : Product) : string :=
  if Qgeb (rating p) (9 # 2) then "4.5+"
  else if Qgeb (rating p) 4 then "4.0-4.5"
  else if Qgeb (rating p) (7 # 2) then "3.5-4.0"
  else if Qgeb (rating p) 3 then "3.0-3.5"
  else if Qgeb (rating p) 2 then "2.0-3.0"
  else "below-2.0".

(** One entry of a search response. *)
Record SearchResult : Type := mkSearchResult {
  r_productId : Z;
  r_title : string;
  r_description : option string;
  r_price : Q;
  r_mrp : option Q;
  r_currency : string;
  r_discount : Z;
  r_rating : Q;
  r_ratingCount : Q;
  r_stock : Q;
  r_stockStatus : StockStatus;
  r_brand : option string;
  r_category : option string;
  r_imageUrls : list string;
  r_metadata : Metadata;
  r_relevanceScore : JsNum;
  r_tags : list string
}.

(** [Math.round(x * 100) / 100] *)
Definition round2 (x : JsNum) : JsNum :=
  match x with
  | Fin q => Fin (inject_Z (Math_round (q * 100)) / 100)
  | _ => x
  end.

(** [toSearchResult(query, relevanceScore)] *)
Definition toSearchResult (p : Product) (relevanceScore : JsNum) : SearchResult :=
  {| r_productId := productId p;
     r_title := title p;
     r_description := description p;
     r_price := price p;
     r_mrp := mrp p;
     r_currency := currency p;
     r_discount := calculateDiscount p;
     r_rating := rating p;
     r_ratingCount := ratingCount p;
     r_stock := stock p;
     r_stockStatus := getStockStatus p;
     r_brand := brand p;
     r_category := category p;
     r_imageUrls := List.firstn 3 (imageUrls p);
     r_metadata := metadata p;
     r_relevanceScore := round2 relevanceScore;
     r_tags := tags p |}.

(** [toJSON()] *)
Definition Product_toJSON (p : Product) : ProductData :=
  {| d_productId := Some (productId p);
     d_title := Some (title p);
     d_description := description p;
     d_category := category p;
     d_subcategory := subcategory p;
     d_brand := brand p;
     d_model := model p;
     d_price := Some (price p);
     d_mrp := mrp p;
     d_currency := Some (currency p);
     d_rating := Some (rating p);
     d_ratingCount := Some (ratingCount p);
     d_stock := Some (stock p);
     d_isActive := Some (isActive p);
     d_imageUrls := Some (imageUrls p);
     d_metadata := Some (metadata p);
     d_analytics := Some (analytics p);
     d_searchableText := Some (searchableText p);
     d_tags := Some (tags p);
     d_createdAt := Some (createdAt p);
     d_updatedAt := Some (updatedAt p) |}.

(* ------------------------------------------------------------------ *)
(** ** SearchQuery (models/SearchQuery.js) *)

(** A raw request parameter. *)
Inductive JsVal : Type :=
| JUndefined
| JBool (b : bool)
| JNum (q : Q)
| JStr (s : string).

Definition digitVal (base : Z) (c : ascii) : option Z :=
  let n := Z.of_nat (Str.code c) in
  if Str.isDigit c then Some (n - 48)
  else if (base =? 16)%Z then
         if (Z.leb 97 n && Z.leb n 102)%bool then Some (n - 87)
         else if (Z.leb 65 n && Z.leb n 70)%bool then Some (n - 55)
         else None
       else None.

(** The value of the longest prefix of digits, [None] when there is none. *)
Fixpoint digitsPrefix (base : Z) (acc : option Z) (l : list ascii) : option Z :=
  match l with
  | [] => acc
  | c :: r =>
      match digitVal base c with
      | Some d =>
          digitsPrefix base
            (Some (base * (match acc with Some a => a | None => 0 end) + d)) r
      | None => acc
      end
  end.

Definition parseIntChars (l : list ascii) : option Z :=
  let l := Str.dropSpaces l in
  let '(negative, l) :=
    match l with
    | c :: r =>
        if Nat.eqb (Str.code c) 45 then (true, r)
        else if Nat.eqb (Str.code c) 43 then (false, r)
        else (false, l)
    | [] => (false, l)
    end in
  let '(base, l) :=
    match l with
    | z :: x :: r =>
        if (Nat.eqb (Str.code z) 48
            && (Nat.eqb (Str.code x) 120 || Nat.eqb (Str.code x) 88))%bool
        then (16, r) else (10, l)
    | _ => (10, l)
    end in
  option_map (fun n => if negative : bool then - n else n) (digitsPrefix base None l).

(** [parseInt(v)]; [None] is [NaN].  A number is truncated towards zero
    (its decimal expansion is taken to be in positional notation). *)
Definition parseInt (v : JsVal) : option Z :=
  match v with
  | JUndefined => None
  | JBool _ => None
  | JNum q => Some (Z.quot (Qnum q) (Zpos (Qden q)))
  | JStr s => parseIntChars (Str.chars s)
  end.

Record QueryParams : Type := mkQueryParams {
  p_query : option string;
  p_limit : JsVal;
  p_offset : JsVal;
  p_sortBy : option string;
  p_category : option string;
  p_brand : option string;
  p_minPrice : option Q;
  p_maxPrice : option Q;
  p_minRating : option Q;
  p_inStock : JsVal;
  p_priceRange : option string;
  p_ratingRange : option string
}.

Definition noParams : QueryParams :=
  mkQueryParams None JUndefined JUndefined None None None None None None
                JUndefined None None.

Record SearchQuery : Type := mkSearchQuery {
  query : string;
  limit : Z;
  offset : Z;
  sortBy : string;
  q_category : option string;
  q_brand : option string;
  minPrice : option Q;
  maxPrice : option Q;
  minRating : option Q;
  inStock : bool;
  priceRange : option string;
  ratingRange : option string
}.

(** [params.x ? parseFloat(params.x) : null] on a numeric parameter. *)
Definition truthyNum (x : option Q) : option Q :=
  match x with
  | Some q => if Qis0 q then None else Some q
  | None => None
  end.

Definition validSortOptions : list string :=
  ["relevance"; "price_low"; "price_high"; "rating"; "popularity"; "newest"]%string.

Definition isValidSortBy (s : string) : bool :=
  List.existsb (String.eqb s) validSortOptions.

(** [validate()] *)
Definition validateQuery (minP maxP minR : option Q) (sortBy : string)
  : Result unit :=
  let priceBad :=
    match truthyNum minP, truthyNum maxP with
    | Some a, Some b => Qgtb a b
    | _, _ => false
    end in
  let ratingBad :=
    match truthyNum minR with
    | Some r => (Qltb r 0 || Qgtb r 5)%bool
    | None => false
    end in
  if priceBad then inl MinPriceAboveMaxPrice
  else if ratingBad then inl QueryRatingOutOfRange
  else if negb (isValidSortBy sortBy) then inl InvalidSortBy
  else inr tt.

Definition hinglishMap : list (string * string) :=
  [("sasta", "cheap"); ("sastey", "cheap"); ("saste", "cheap");
   ("accha", "good"); ("achha", "good"); ("acche", "good");
   ("best", "best"); ("latest", "latest"); ("new", "new");
   ("purana", "old"); ("phone", "phone"); ("mobile", "mobile");
   ("laptop", "laptop"); ("headphone", "headphone");
   ("earphone", "earphone"); ("cover", "cover"); ("case", "case");
   ("charger", "charger"); ("paisa", "rupees"); ("rupees", "rupees");
   ("rs", "rupees"); ("price", "price")]%string.

Definition misspellingMap : list (string * string) :=
  [("ifone", "iphone"); ("iphone", "iphone"); ("samsang", "samsung");
   ("samsoong", "samsung"); ("laptop", "laptop"); ("leptop", "laptop");
   ("hedphone", "headphone"); ("hedphones", "headphones");
   ("moblile", "mobile"); ("mobil", "mobile"); ("charjer", "charger");
   ("chargur", "charger"); ("covr", "cover"); ("cver", "cover")]%string.

(** The loop [for (const [from, to] of Object.entries(table))
    q = q.replace(new RegExp(`\\b${from}\\b`, "gi"), to)]. *)
Definition applyTable (table : list (string * string)) (q : string) : string :=
  List.fold_left (fun acc e => Str.replaceWord (fst e) (snd e) acc) table q.

Definition normalizeHinglishQuery (q : string) : string := applyTable hinglishMap q.

Definition correctCommonMisspellings (q : string) : string :=
  applyTable misspellingMap q.

(** [normalize()], on the query string. *)
Definition normalize (q : string) : string :=
  let q := Str.toLowerCase (Str.trim q) in
  let q := normalizeHinglishQuery q in
  correctCommonMisspellings q.

(** [new SearchQuery(params)] *)
Definition newSearchQuery (params : QueryParams) : Result SearchQuery :=
  let q := strOr (p_query params) "" in
  let lim :=
    Z.min (match parseInt (p_limit params) with
           | Some n => if (n =? 0)%Z then 20 else n
           | None => 20
           end) 100 in
  let off :=
    Z.max (match parseInt (p_offset params) with
           | Some n => n
           | None => 0
           end) 0 in
  let sort := strOr (p_sortBy params) "relevance" in
  let minP := truthyNum (p_minPrice params) in
  let maxP := truthyNum (p_maxPrice params) in
  let minR := truthyNum (p_minRating params) in
  let stockOnly :=
    match p_inStock params with
    | JStr s => String.eqb s "true"
    | _ => false
    end in
  _ <- validateQuery minP maxP minR sort ;;
  inr {| query := normalize q;
         limit := lim;
         offset := off;
         sortBy := sort;
         q_category := p_category params;
         q_brand := p_brand params;
         minPrice := minP;
         maxPrice := maxP;
         minRating := minR;
         inStock := stockOnly;
         priceRange := p_priceRange params;
         ratingRange := p_ratingRange params |}.

(** [getSearchTerms()] *)
Definition getSearchTerms (sq : SearchQuery) : list string :=
  List.filter (fun t => (1 <? Str.len t)%Z)
    (List.map Str.stripNonAlnum
       (List.filter (fun t => (1 <? Str.len t)%Z) (Str.splitWs (query sq)))).

(** [a.toLowerCase() !== b.toLowerCase()] where [a] may be [undefined]. *)
Definition differsCI (a : option string) (b : string) : Result bool :=
  match a with
  | None => inl TypeError
  | Some s =>
      inr (negb (String.eqb (Str.toLowerCase s) (Str.toLowerCase b)))
  end.

(** [matchesFilters(product)] *)
Definition matchesFilters (sq : SearchQuery) (p : Product) : Result bool :=
  catBad <- match truthyStr (q_category sq) with
            | Some c => differsCI (category p) c
            | None => inr false
            end ;;
  if catBad : bool then inr false else
  brandBad <- match truthyStr (q_brand sq) with
              | Some b => differsCI (brand p) b
              | None => inr false
              end ;;
  if brandBad : bool then inr false else
  if match minPrice sq with Some m => Qltb (price p) m | None => false end
  then inr false else
  if match maxPrice sq with Some m => Qgtb (price p) m | None => false end
  then inr false else
  if match minRating sq with Some m => Qltb (rating p) m | None => false end
  then inr false else
  if (inStock sq && Qle_bool (stock p) 0)%bool then inr false
  else inr true.

(** [xs.filter(f)] for a predicate that may throw. *)
Fixpoint filterM {A : Type} (f : A -> Result bool) (xs : list A) : Result (list A) :=
  match xs with
  | [] => inr []
  | x :: r =>
      b <- f x ;;
      r' <- filterM f r ;;
      inr (if b : bool then x :: r' else r')
  end.

(* ------------------------------------------------------------------ *)
(** ** InMemoryProductRepository (repositories/ProductRepository.js) *)

(** A secondary index: key -> set of product ids. *)
Definition Index (K : Type) : Type := JSMap.t K (JSSet.t Z).

(** [if (!idx.has(k)) idx.set(k, new Set()); idx.get(k).add(id)] *)
Definition indexAdd {K : Type} `{EqDec K} (k : K) (id : Z) (idx : Index K) : Index K :=
  match JSMap.get k idx with
  | None => JSMap.set k (JSSet.add id JSSet.empty) idx
  | Some s => JSMap.set k (JSSet.add id s) idx
  end.

(** [const ids = idx.get(k);
     if (ids) { ids.delete(id); if (ids.size === 0) idx.delete(k); }] *)
Definition indexRemove {K : Type} `{EqDec K} (k : K) (id : Z) (idx : Index K) : Index K :=
  match JSMap.get k idx with
  | None => idx
  | Some s =>
      let s' := JSSet.delete id s in
      if (JSSet.size s' =? 0)%Z then JSMap.delete k idx
      else JSMap.set k s' idx
  end.

Record Repo : Type := mkRepo {
  products : JSMap.t Z Product;
  nextId : Z;
  searchIndex : Index string;
  categoryIndex : Index string;
  brandIndex : Index string;
  priceRangeIndex : Index string;
  ratingBucketIndex : Index string;
  stockStatusIndex : Index StockStatus
}.

Definition emptyRepo : Repo :=
  mkRepo JSMap.empty 1 JSMap.empty JSMap.empty JSMap.empty JSMap.empty
         JSMap.empty JSMap.empty.

(** [extractSearchTerms(text)] *)
Definition extractSearchTerms (text : string) : list string :=
  match text with
  | EmptyString => []
  | _ =>
      List.filter (fun t => (1 <? Str.len t)%Z)
        (List.map Str.stripNonLowerAlnum
           (List.filter (fun t => (1 <? Str.len t)%Z)
              (Str.splitWs (Str.toLowerCase text))))
  end.

Definition addToSearchIndex (p : Product) (idx : Index string) : Index string :=
  List.fold_left (fun acc term => indexAdd term (productId p) acc)
    (extractSearchTerms (searchableText p)) idx.

Definition removeFromSearchIndex (p : Product) (idx : Index string) : Index string :=
  List.fold_left (fun acc term => indexRemove term (productId p) acc)
    (extractSearchTerms (searchableText p)) idx.

Definition addToCategoryIndex (p : Product) (idx : Index string) : Index string :=
  match truthyStr (category p) with
  | Some c => indexAdd (Str.toLowerCase c) (productId p) idx
  | None => idx
  end.

Definition removeFromCategoryIndex (p : Product) (idx : Index string) : Index string :=
  match truthyStr (category p) with
  | Some c => indexRemove (Str.toLowerCase c) (productId p) idx
  | None => idx
  end.

Definition addToBrandIndex (p : Product) (idx : Index string) : Index string :=
  match truthyStr (brand p) with
  | Some b => indexAdd (Str.toLowerCase b) (productId p) idx
  | None => idx
  end.

Definition removeFromBrandIndex (p : Product) (idx : Index string) : Index string :=
  match truthyStr (brand p) with
  | Some b => indexRemove (Str.toLowerCase b) (productId p) idx
  | None => idx
  end.

Definition addToPriceRangeIndex (p : Product) (idx : Index string) : Index string :=
  indexAdd (getPriceRange p) (productId p) idx.

Definition removeFromPriceRangeIndex (p : Product) (idx : Index string) : Index string :=
  indexRemove (getPriceRange p) (productId p) idx.

Definition addToRatingBucketIndex (p : Product) (idx : Index string) : Index string :=
  indexAdd (getRatingBucket p) (productId p) idx.

Definition removeFromRatingBucketIndex (p : Product) (idx : Index string) : Index string :=
  indexRemove (getRatingBucket p) (productId p) idx.

Definition addToStockStatusIndex (p : Product) (idx : Index StockStatus)
  : Index StockStatus :=
  indexAdd (getStockStatus p) (productId p) idx.

Definition removeFromStockStatusIndex (p : Product) (idx : Index StockStatus)
  : Index StockStatus :=
  indexRemove (getStockStatus p) (productId p) idx.

(** [updateIndexes(product)] *)
Definition updateIndexes (p : Product) (r : Repo) : Repo :=
  {| products := products r;
     nextId := nextId r;
     searchIndex := addToSearchIndex p (searchIndex r);
     categoryIndex := addToCategoryIndex p (categoryIndex r);
     brandIndex := addToBrandIndex p (brandIndex r);
     priceRangeIndex := addToPriceRangeIndex p (priceRangeIndex r);
     ratingBucketIndex := addToRatingBucketIndex p (ratingBucketIndex r);
     stockStatusIndex := addToStockStatusIndex p (stockStatusIndex r) |}.

(** [removeFromIndexes(product)] *)
Definition removeFromIndexes (p : Product) (r : Repo) : Repo :=
  {| products := products r;
     nextId := nextId r;
     searchIndex := removeFromSearchIndex p (searchIndex r);
     categoryIndex := removeFromCategoryIndex p (categoryIndex r);
     brandIndex := removeFromBrandIndex p (brandIndex r);
     priceRangeIndex := removeFromPriceRangeIndex p (priceRangeIndex r);
     ratingBucketIndex := removeFromRatingBucketIndex p (ratingBucketIndex r);
     stockStatusIndex := removeFromStockStatusIndex p (stockStatusIndex r) |}.

Definition setProducts (ps : JSMap.t Z Product) (r : Repo) : Repo :=
  {| products := ps;
     nextId := nextId r;
     searchIndex := searchIndex r;
     categoryIndex := categoryIndex r;
     brandIndex := brandIndex r;
     priceRangeIndex := priceRangeIndex r;
     ratingBucketIndex := ratingBucketIndex r;
     stockStatusIndex := stockStatusIndex r |}.

Definition setNextId (n : Z) (r : Repo) : Repo :=
  {| products := products r;
     nextId := n;
     searchIndex := searchIndex r;
     categoryIndex := categoryIndex r;
     brandIndex := brandIndex r;
     priceRangeIndex := priceRangeIndex r;
     ratingBucketIndex := ratingBucketIndex r;
     stockStatusIndex := stockStatusIndex r |}.

Definition withProductId (id : Z) (d : ProductData) : ProductData :=
  {| d_productId := Some id;
     d_title := d_title d; d_description := d_description d;
     d_category := d_category d; d_subcategory := d_subcategory d;
     d_brand := d_brand d; d_model := d_model d; d_price := d_price d;
     d_mrp := d_mrp d; d_currency := d_currency d; d_rating := d_rating d;
     d_ratingCount := d_ratingCount d; d_stock := d_stock d;
     d_isActive := d_isActive d; d_imageUrls := d_imageUrls d;
     d_metadata := d_metadata d; d_analytics := d_analytics d;
     d_searchableText := d_searchableText d; d_tags := d_tags d;
     d_createdAt := d_createdAt d; d_updatedAt := d_updatedAt d |}.

(** [add(productData)].  The id is [productData.productId || this.nextId++];
    the counter is bumped before the constructor can throw.  The pair is
    the outcome and the repository afterwards. *)
Definition add (now genId : Z) (productData : ProductData) (r : Repo)
  : Result Z * Repo :=
  let '(id, r1) :=
    match d_productId productData with
    | Some i => if (i =? 0)%Z then (nextId r, setNextId (nextId r + 1) r) else (i, r)
    | None => (nextId r, setNextId (nextId r + 1) r)
    end in
  match newProduct now genId (withProductId id productData) with
  | inl e => (inl e, r1)
  | inr p =>
      let r2 := setProducts (JSMap.set (productId p) p (products r1)) r1 in
      (inr (productId p), updateIndexes p r2)
  end.

Definition orField {A : Type} (b a : option A) : option A :=
  match b with Some _ => b | None => a end.

(** [{...existing.toJSON(), ...updateData, productId, updatedAt: new Date()}] *)
Definition mergeData (now id : Z) (a b : ProductData) : ProductData :=
  {| d_productId := Some id;
     d_title := orField (d_title b) (d_title a);
     d_description := orField (d_description b) (d_description a);
     d_category := orField (d_category b) (d_category a);
     d_subcategory := orField (d_subcategory b) (d_subcategory a);
     d_brand := orField (d_brand b) (d_brand a);
     d_model := orField (d_model b) (d_model a);
     d_price := orField (d_price b) (d_price a);
     d_mrp := orField (d_mrp b) (d_mrp a);
     d_currency := orField (d_currency b) (d_currency a);
     d_rating := orField (d_rating b) (d_rating a);
     d_ratingCount := orField (d_ratingCount b) (d_ratingCount a);
     d_stock := orField (d_stock b) (d_stock a);
     d_isActive := orField (d_isActive b) (d_isActive a);
     d_imageUrls := orField (d_imageUrls b) (d_imageUrls a);
     d_metadata := orField (d_metadata b) (d_metadata a);
     d_analytics := orField (d_analytics b) (d_analytics a);
     d_searchableText := orField (d_searchableText b) (d_searchableText a);
     d_tags := orField (d_tags b) (d_tags a);
     d_createdAt := orField (d_createdAt b) (d_createdAt a);
     d_updatedAt := Some now |}.

(** [update(productId, updateData)] *)
Definition update (now genId : Z) (id : Z) (updateData : ProductData) (r : Repo)
  : Result Product * Repo :=
  match JSMap.get id (products r) with
  | None => (inl (ProductNotFound id), r)
  | Some existing =>
      let r1 := removeFromIndexes existing r in
      match newProduct now genId (mergeData now id (Product_toJSON existing) updateData) with
      | inl e => (inl e, r1)
      | inr updated =>
          let r2 := setProducts (JSMap.set id updated (products r1)) r1 in
          (inr updated, updateIndexes updated r2)
      end
  end.

(** [updateMetadata(productId, metadata)]: the stored instance is mutated
    in place. *)
Definition updateMetadata (now : Z) (id : Z) (md : Metadata) (r : Repo)
  : Result Product * Repo :=
  match JSMap.get id (products r) with
  | None => (inl (ProductNotFound id), r)
  | Some p =>
      let p' := Product_updateMetadata now md p in
      let r' :=
        {| products := JSMap.set id p' (products r);
           nextId := nextId r;
           searchIndex := addToSearchIndex p' (removeFromSearchIndex p (searchIndex r));
           categoryIndex := categoryIndex r;
           brandIndex := brandIndex r;
           priceRangeIndex := priceRangeIndex r;
           ratingBucketIndex := ratingBucketIndex r;
           stockStatusIndex := stockStatusIndex r |} in
      (inr p', r')
  end.

(** The options object of [repository.search]. *)
Record SearchOptions : Type := mkSearchOptions {
  o_category : option string;
  o_brand : option string;
  o_priceRange : option string;
  o_ratingRange : option string;
  o_inStock : bool
}.

Definition postings {K : Type} `{EqDec K} (k : K) (idx : Index K) : JSSet.t Z :=
  match JSMap.get k idx with Some s => s | None => JSSet.empty end.

Definition filterByIndex (ids : JSSet.t Z) (ps : list Product) : list Product :=
  List.filter (fun p => JSSet.has (productId p) ids) ps.

(** [search(query, options)] *)
Definition Repo_search (r : Repo) (q : string) (o : SearchOptions) : list Product :=
  let searchTerms := extractSearchTerms q in
  let matching :=
    List.fold_left
      (fun acc term =>
         List.fold_left (fun acc' id => JSSet.add id acc') (postings term (searchIndex r)) acc)
      searchTerms JSSet.empty in
  let ps :=
    List.flat_map
      (fun id => match JSMap.get id (products r) with Some p => [p] | None => [] end)
      matching in
  let ps := match truthyStr (o_category o) with
            | Some c => filterByIndex (postings (Str.toLowerCase c) (categoryIndex r)) ps
            | None => ps
            end in
  let ps := match truthyStr (o_brand o) with
            | Some b => filterByIndex (postings (Str.toLowerCase b) (brandIndex r)) ps
            | None => ps
            end in
  let ps := match truthyStr (o_priceRange o) with
            | Some k => filterByIndex (postings k (priceRangeIndex r)) ps
            | None => ps
            end in
  let ps := match truthyStr (o_ratingRange o) with
            | Some k => filterByIndex (postings k (ratingBucketIndex r)) ps
            | None => ps
            end in
  if o_inStock o then
    List.filter
      (fun p =>
         (JSSet.has (productId p) (postings HIGH_STOCK (stockStatusIndex r))
          || JSSet.has (productId p) (postings MEDIUM_STOCK (stockStatusIndex r))
          || JSSet.has (productId p) (postings LOW_STOCK (stockStatusIndex r)))%bool)
      ps
  else ps.

(** [bulkLoad(products)]: the counts of successes and failures, and the
    repository afterwards.  Every product is added at the same instant. *)
Fixpoint bulkLoad (now genId : Z) (ps : list ProductData) (r : Repo)
  : (Z * Z) * Repo :=
  match ps with
  | [] => ((0, 0), r)
  | productData :: rest =>
      let '(outcome, r1) := add now genId productData r in
      let '((successCount, errorCount), r2) := bulkLoad now genId rest r1 in
      (match outcome with
       | inr _ => (successCount + 1, errorCount)
       | inl _ => (successCount, errorCount + 1)
       end, r2)
  end.

(* ------------------------------------------------------------------ *)
(** ** SearchService (services/SearchService.js, non-seasonal variant) *)

(** One row of the edit-distance matrix: [c] is [str2.charAt(i - 1)],
    [prev] is row [i - 1] from column [j - 1] on, [left] is
    [matrix[i][j - 1]]; the result is row [i] from column [j] on. *)
Fixpoint levRow (c : ascii) (str1 : list ascii) (prev : list Z) (left : Z) : list Z :=
  match str1, prev with
  | a :: str1', d :: ((u :: _) as prev') =>
      let v := if ascii_dec c a then d
               else Z.min (Z.min (d + 1) (left + 1)) (u + 1) in
      v :: levRow c str1' prev' v
  | _, _ => []
  end.

Fixpoint levRows (str1 str2 : list ascii) (i : Z) (prev : list Z) : list Z :=
  match str2 with
  | [] => prev
  | c :: r => levRows str1 r (i + 1) (i :: levRow c str1 prev i)
  end.

(** [levenshteinDistance(str1, str2)] *)
Definition levenshteinDistance (str1 str2 : string) : Z :=
  let s1 := Str.chars str1 in
  let row0 := List.map Z.of_nat (List.seq 0 (S (List.length s1))) in
  List.last (levRows s1 (Str.chars str2) 1 row0) 0.

Local Open Scope Q_scope.

(** [calculateFuzzyMatch(term, text)] *)
Definition calculateFuzzyMatch (term text : string) : Q :=
  match term, text with
  | EmptyString, _ | _, EmptyString => 0
  | _, _ =>
      let distance := levenshteinDistance term text in
      let maxLength := Z.max (Str.len term) (Str.len text) in
      if (maxLength =? 0)%Z then 0
      else
        let similarity := 1 - inject_Z distance / inject_Z maxLength in
        if Qgtb similarity (7 # 10) then similarity else 0
  end.

(** The contribution of one query term in [calculateTextRelevance]. *)
Definition termRelevance (ttl descr text term : string) : Q :=
  let r0 :=
    if Str.includes ttl term then
      if String.eqb ttl term then 1
      else if (Str.startsWith ttl term || Str.endsWith ttl term)%bool then 8 # 10
      else 6 # 10
    else 0 in
  let r1 := if Str.includes descr term then r0 + (4 # 10) else r0 in
  let r2 := if Str.includes text term then r1 + (2 # 10) else r1 in
  let r3 := r2 + calculateFuzzyMatch term ttl * (3 # 10) in
  Qmin 1 r3.

(** [calculateTextRelevance(product, searchQuery)] *)
Definition calculateTextRelevance (p : Product) (sq : SearchQuery) : Q :=
  match query sq with
  | EmptyString => 1 # 2
  | _ =>
      let queryTerms := getSearchTerms sq in
      match queryTerms with
      | [] => 0
      | _ =>
          let ttl := Str.toLowerCase (title p) in
          let descr := Str.toLowerCase (strOr (description p) "") in
          let text := Str.toLowerCase (searchableText p) in
          let total :=
            List.fold_left (fun acc term => acc + termRelevance ttl descr text term)
              queryTerms 0 in
          total / inject_Z (Z.of_nat (List.length queryTerms))
      end
  end.

(** [calculateQualityScore(product)] *)
Definition calculateQualityScore (p : Product) : Q :=
  let ratingScore := orElse (Some (rating p)) 0 / 5 in
  let rate := orElse (returnRate (analytics p)) (1 # 10) in
  let returnScore := 1 - Qmin 1 rate in
  ratingScore * (6 # 10) + returnScore * (4 # 10).

(** [getMaxUnitsSold()] *)
Definition getMaxUnitsSold (r : Repo) : Q :=
  let m :=
    List.fold_left
      (fun mx p =>
         let u := orElse (unitsSold (analytics p)) 0 in
         if Qgtb u mx then u else mx)
      (JSMap.values (products r)) 0 in
  orElse (Some m) 10000.

(** [getMaxReviews()] *)
Definition getMaxReviews (r : Repo) : Q :=
  let m :=
    List.fold_left
      (fun mx p => if Qgtb (ratingCount p) mx then ratingCount p else mx)
      (JSMap.values (products r)) 0 in
  orElse (Some m) 1000.

(** [calculateBusinessScore(product)] *)
Definition calculateBusinessScore (p : Product) : Q :=
  let stockScore :=
    if Qgtb (stock p) 0 then
      if Qgtb (stock p) 100 then 1
      else if Qgtb (stock p) 10 then 8 # 10
      else if Qgtb (stock p) 0 then 5 # 10
      else 0
    else 0 in
  let discount := inject_Z (calculateDiscount p) in
  let priceScore := Qmin 1 (discount / 50) in
  let margin := orElse (profitMargin (analytics p)) (2 # 10) in
  let profitScore := Qmin 1 (margin / (5 # 10)) in
  stockScore * (5 # 10) + priceScore * (3 # 10) + profitScore * (2 # 10).

Definition popularBrands : list string :=
  ["apple"; "samsung"; "oneplus"; "xiaomi"; "dell"; "hp"]%string.

(** [popularBrands.includes(product.brand?.toLowerCase())] *)
Definition isPopularBrand (p : Product) : bool :=
  match brand p with
  | Some b => List.existsb (String.eqb (Str.toLowerCase b)) popularBrands
  | None => false
  end.

Definition boostIf (c : bool) (f : Q) (x : JsNum) : JsNum :=
  if c then Num.mul x (Fin f) else x.

(** [applyBoostFactors(baseScore, product, searchQuery)] *)
Definition applyBoostFactors (baseScore : JsNum) (p : Product) : JsNum :=
  let s := boostIf (isTrending (analytics p)) (11 # 10) baseScore in
  let s := boostIf (isOnSale (analytics p)) (115 # 100) s in
  let s := boostIf (Qgtb (stock p) 0 && Qle_bool (stock p) 10) (105 # 100) s in
  let s := boostIf (Qgtb (orElse (profitMargin (analytics p)) 0) (3 # 10)) (11 # 10) s in
  let s := boostIf (isPopularBrand p) (105 # 100) s in
  boostIf (Qle_bool 5000 (price p) && Qle_bool (price p) 30000) (11 # 10) s.

Section Scoring.

(** The natural logarithm on the positive rationals, kept abstract. *)
Variable ln : Q -> Q.

(** [calculatePopularityScore(product)] *)
Definition calculatePopularityScore (r : Repo) (p : Product) : JsNum :=
  let sold := orElse (unitsSold (analytics p)) 0 in
  let maxUnitsSold := getMaxUnitsSold r in
  let salesScore :=
    if Qgtb maxUnitsSold 0
    then Num.div (Math_log ln (Fin (sold + 1))) (Math_log ln (Fin (maxUnitsSold + 1)))
    else Fin 0 in
  let reviewCount := orElse (Some (ratingCount p)) 0 in
  let maxReviews := getMaxReviews r in
  let reviewScore :=
    if Qgtb maxReviews 0
    then Num.div (Math_log ln (Fin (reviewCount + 1))) (Math_log ln (Fin (maxReviews + 1)))
    else Fin 0 in
  Num.add (Num.mul salesScore (Fin (7 # 10))) (Num.mul reviewScore (Fin (3 # 10))).

(** The weighted sum of [calculateRelevanceScore], before the boosts. *)
Definition baseRelevance (r : Repo) (p : Product) (sq : SearchQuery) : JsNum :=
  let score := Fin 0 in
  let score := Num.add score (Fin (calculateTextRelevance p sq * (4 # 10))) in
  let score := Num.add score (Fin (calculateQualityScore p * (25 # 100))) in
  let score := Num.add score (Num.mul (calculatePopularityScore r p) (Fin (2 # 10))) in
  Num.add score (Fin (calculateBusinessScore p * (15 # 100))).

(** [calculateRelevanceScore(product, searchQuery)] *)
Definition calculateRelevanceScore (r : Repo) (p : Product) (sq : SearchQuery) : JsNum :=
  let score := applyBoostFactors (baseRelevance r p sq) p in
  Num.max (Fin 0) (Num.min (Fin 1) score).

End Scoring.

Local Close Scope Q_scope.

(** A value flowing through [performSearch]: either a [Product] instance,
    whose prototype carries [toSearchResult], or the plain object
    [{...product, relevanceScore}], which has the product's own fields and
    the score but no methods. *)
Inductive Candidate : Type :=
| Instance (p : Product)
| Plain (p : Product) (relevanceScore : JsNum).

Definition fieldsOf (c : Candidate) : Product :=
  match c with
  | Instance p => p
  | Plain p _ => p
  end.

(** [typeof product.toSearchResult === "function"] *)
Definition hasToSearchResult (c : Candidate) : bool :=
  match c with
  | Instance _ => true
  | Plain _ _ => false
  end.

(** [product.relevanceScore || 0] *)
Definition scoreOrZero (c : Candidate) : JsNum :=
  match c with
  | Instance _ => Fin 0
  | Plain _ s => Num.orElse s (Fin 0)
  end.

(** The comparator [getSortFunction(searchQuery)] returns, applied to
    [(a, b)]. *)
Definition sortFunction (sortBy : string) (a b : Candidate) : JsNum :=
  let pa := fieldsOf a in
  let pb := fieldsOf b in
  if String.eqb sortBy "price_low" then Fin (price pa - price pb)
  else if String.eqb sortBy "price_high" then Fin (price pb - price pa)
  else if String.eqb sortBy "rating" then
         let d := (rating pb - rating pa)%Q in
         if Qis0 d then Fin (ratingCount pb - ratingCount pa) else Fin d
  else if String.eqb sortBy "popularity" then
         Fin (orElse (unitsSold (analytics pb)) 0 - orElse (unitsSold (analytics pa)) 0)
  else if String.eqb sortBy "newest" then
         Fin (inject_Z (createdAt pb) - inject_Z (createdAt pa))
  else Num.add (scoreOrZero b) (Num.neg (scoreOrZero a)).

(** Whether a comparator result is positive. *)
Definition isPositive (x : JsNum) : bool :=
  match x with
  | Fin q => Qgtb q 0
  | PosInf => true
  | _ => false
  end.

(** [Array.prototype.sort(cmp)]: a stable sort; an element moves behind
    another only when the comparator puts it strictly after. *)
Fixpoint insertSorted {A : Type} (cmp : A -> A -> JsNum) (x : A) (l : list A) : list A :=
  match l with
  | [] => [x]
  | y :: r => if isPositive (cmp x y) then y :: insertSorted cmp x r else x :: l
  end.

Definition Array_sort {A : Type} (cmp : A -> A -> JsNum) (l : list A) : list A :=
  List.fold_right (insertSorted cmp) [] l.

(** [xs.slice(start, end)] *)
Definition slice {A : Type} (start stop : Z) (xs : list A) : list A :=
  let n := Z.of_nat (List.length xs) in
  let from := if (start <? 0)%Z then Z.max (n + start) 0 else Z.min start n in
  let to := if (stop <? 0)%Z then Z.max (n + stop) 0 else Z.min stop n in
  List.firstn (Z.to_nat (to - from)) (List.skipn (Z.to_nat from) xs).

(** The object literal built in the pagination step for a value without
    [toSearchResult]; [relevanceScore] is [product.relevanceScore], with
    [undefined] already replaced by [0]. *)
Definition fallbackResult (p : Product) (relevanceScore : JsNum) : SearchResult :=
  {| r_productId := productId p;
     r_title := title p;
     r_description := description p;
     r_price := price p;
     r_mrp := mrp p;
     r_currency := strOr (Some (currency p)) "INR";
     r_discount :=
       match truthyNum (mrp p) with
       | Some m => Math_round (((m - price p) / m) * 100)
       | None => 0
       end;
     r_rating := rating p;
     r_ratingCount := ratingCount p;
     r_stock := stock p;
     r_stockStatus :=
       if Qis0 (stock p) then OUT_OF_STOCK
       else if Qle_bool (stock p) 10 then LOW_STOCK
       else HIGH_STOCK;
     r_brand := brand p;
     r_category := category p;
     r_imageUrls := List.firstn 3 (imageUrls p);
     r_metadata := metadata p;
     r_relevanceScore := round2 (Num.orElse relevanceScore (Fin 0));
     r_tags := tags p |}.

(** [product.relevanceScore]: [None] is [undefined]. *)
Definition relevanceScoreOf (c : Candidate) : option JsNum :=
  match c with
  | Instance _ => None
  | Plain _ s => Some s
  end.

(** The callback of the pagination [map].  An [undefined] score passed to
    [toSearchResult] takes the parameter's default [0]. *)
Definition projectCandidate (c : Candidate) : SearchResult :=
  if hasToSearchResult c then
    toSearchResult (fieldsOf c)
      (match relevanceScoreOf c with Some s => s | None => Fin 0 end)
  else
    fallbackResult (fieldsOf c)
      (match relevanceScoreOf c with Some s => s | None => Fin 0 end).

Record Filters : Type := mkFilters {
  f_category : option string;
  f_brand : option string;
  f_minPrice : option Q;
  f_maxPrice : option Q;
  f_minRating : option Q;
  f_inStock : bool
}.

Record Pagination : Type := mkPagination {
  pg_limit : Z;
  pg_offset : Z;
  hasNext : bool;
  hasPrevious : bool
}.

Record Response : Type := mkResponse {
  data : list SearchResult;
  totalResults : Z;
  resp_query : string;
  filters : Filters;
  pagination : Pagination;
  resp_sortBy : string;
  executionTime : Z
}.

Section Service.

Variable ln : Q -> Q.

(** The candidates [performSearch] retrieves before filtering. *)
Definition initialMatches (r : Repo) (sq : SearchQuery) : list Product :=
  match query sq with
  | EmptyString => JSMap.values (products r)
  | q =>
      Repo_search r q
        {| o_category := q_category sq;
           o_brand := q_brand sq;
           o_priceRange := priceRange sq;
           o_ratingRange := ratingRange sq;
           o_inStock := inStock sq |}
  end.

(** The [map] that attaches the relevance score. *)
Definition scoreAll (r : Repo) (sq : SearchQuery) (ps : list Product) : list Candidate :=
  List.map (fun p => Plain p (calculateRelevanceScore ln r p sq)) ps.

(** [performSearch(searchQuery)]; [elapsed] is the measured duration. *)
Definition performSearch (r : Repo) (sq : SearchQuery) (elapsed : Z) : Result Response :=
  filtered <- filterM (matchesFilters sq) (initialMatches r sq) ;;
  let scored := scoreAll r sq filtered in
  let sorted := Array_sort (sortFunction (sortBy sq)) scored in
  let total := Z.of_nat (List.length sorted) in
  let page := List.map projectCandidate
                (slice (offset sq) (offset sq + limit sq) sorted) in
  inr {| data := page;
         totalResults := total;
         resp_query := query sq;
         filters := {| f_category := q_category sq;
                       f_brand := q_brand sq;
                       f_minPrice := minPrice sq;
                       f_maxPrice := maxPrice sq;
                       f_minRating := minRating sq;
                       f_inStock := inStock sq |};
         pagination := {| pg_limit := limit sq;
                          pg_offset := offset sq;
                          hasNext := (offset sq + limit sq <? total)%Z;
                          hasPrevious := (0 <? offset sq)%Z |};
         resp_sortBy := sortBy sq;
         executionTime := elapsed |}.

End Service.

(* ------------------------------------------------------------------ *)
(** ** The result cache *)

(** The cache key.  The code takes the base64 text of
    [JSON.stringify(searchQuery.toJSON())], an injective encoding of the
    twelve fields of the query; the model keeps the fields themselves, with
    numbers in lowest terms so that equal numbers give equal keys. *)
Definition CacheKey : Type := SearchQuery.

#[export] Instance option_EqDec {A : Type} `{EqDec A} : EqDec (option A).
Proof. intros a b; decide equality; apply eq_dec. Defined.

#[export] Instance Q_EqDec : EqDec Q := Q_leibniz_dec.
#[export] Instance bool_EqDec : EqDec bool := Bool.bool_dec.

#[export] Instance CacheKey_EqDec : EqDec CacheKey.
Proof. intros a b; unfold CacheKey in *; decide equality; apply eq_dec. Defined.

(** [generateCacheKey(searchQuery)] *)
Definition generateCacheKey (sq : SearchQuery) : CacheKey :=
  {| query := query sq;
     limit := limit sq;
     offset := offset sq;
     sortBy := sortBy sq;
     q_category := q_category sq;
     q_brand := q_brand sq;
     minPrice := option_map Qred (minPrice sq);
     maxPrice := option_map Qred (maxPrice sq);
     minRating := option_map Qred (minRating sq);
     inStock := inStock sq;
     priceRange := priceRange sq;
     ratingRange := ratingRange sq |}.

Record CacheEntry : Type := mkCacheEntry {
  ce_data : Response;
  ce_timestamp : Z
}.

Record CacheStats : Type := mkCacheStats {
  hits : Z;
  misses : Z;
  evictions : Z
}.

Record Service : Type := mkService {
  searchCache : JSMap.t CacheKey CacheEntry;
  cacheStats : CacheStats
}.

Definition maxCacheSize : Z := 1000.

(** The time to live of a cache entry, in milliseconds. *)
Definition cacheTTL : Z := 300000.

Definition newService : Service :=
  mkService JSMap.empty (mkCacheStats 0 0 0).

(** [getFromCache(key)], reading the clock as [now]. *)
Definition getFromCache (now : Z) (key : CacheKey) (s : Service)
  : option Response * Service :=
  match JSMap.get key (searchCache s) with
  | Some cached =>
      if (now - ce_timestamp cached <? cacheTTL)%Z then (Some (ce_data cached), s)
      else (None, mkService (JSMap.delete key (searchCache s)) (cacheStats s))
  | None => (None, s)
  end.

(** [addToCache(key, data)], reading the clock as [now]. *)
Definition addToCache (now : Z) (key : CacheKey) (d : Response) (s : Service)
  : Service :=
  let s1 :=
    if (maxCacheSize <=? JSMap.size (searchCache s))%Z then
      mkService
        (match JSMap.firstKey (searchCache s) with
         | Some firstKey => JSMap.delete firstKey (searchCache s)
         | None => searchCache s
         end)
        (mkCacheStats (hits (cacheStats s)) (misses (cacheStats s))
                      (evictions (cacheStats s) + 1))
    else s in
  mkService (JSMap.set key (mkCacheEntry d now) (searchCache s1)) (cacheStats s1).

(** The readings of the clock during one call of [search]. *)
Record Clock : Type := mkClock {
  atGet : Z;       (* [Date.now()] in [getFromCache] *)
  elapsed : Z;     (* the duration [performSearch] reports *)
  atPut : Z        (* [Date.now()] in [addToCache] *)
}.

Section Search.

Variable ln : Q -> Q.

(** [search(queryParams)]: the outcome and the service afterwards. *)
Definition search (clk : Clock) (r : Repo) (queryParams : QueryParams) (s : Service)
  : Result Response * Service :=
  match newSearchQuery queryParams with
  | inl e => (inl e, s)
  | inr searchQuery =>
      let cacheKey := generateCacheKey searchQuery in
      match getFromCache (atGet clk) cacheKey s with
      | (Some cachedResult, s1) =>
          (inr cachedResult,
           mkService (searchCache s1)
             (mkCacheStats (hits (cacheStats s1) + 1) (misses (cacheStats s1))
                           (evictions (cacheStats s1))))
      | (None, s1) =>
          let s2 :=
            mkService (searchCache s1)
              (mkCacheStats (hits (cacheStats s1)) (misses (cacheStats s1) + 1)
                            (evictions (cacheStats s1))) in
          match performSearch ln r searchQuery (elapsed clk) with
          | inl e => (inl e, s2)
          | inr searchResults =>
              (inr searchResults, addToCache (atPut clk) cacheKey searchResults s2)
          end
      end
  end.

End Search.

(* ------------------------------------------------------------------ *)
(** ** SearchService, festive variant: the relevance score

    The second version of the service scores new and seasonal products
    differently and has more boosts.  Every reading of the clock during one
    score is the same instant [now].  The calendar enters through the
    current year: the instant it starts ([yearStart], UTC) and whether it
    is a leap year. *)

Module Festive.

Local Open Scope Q_scope.

Record Season : Type := mkSeason {
  s_name : string;
  startDate : Z;
  endDate : Z;
  peakDate : Z;
  categories : list string;
  keywords : list string
}.

Record Year : Type := mkYear {
  yearStart : Z;
  leap : bool
}.

(** Milliseconds in a day. *)
Definition dayMs : Z := 86400000.

Definition monthLengths (y : Year) : list Z :=
  [31; if leap y then 29 else 28; 31; 30; 31; 30; 31; 31; 30; 31; 30; 31]%Z.

(** [new Date(`${currentYear}-MM-DD`)]: midnight UTC of that day. *)
Definition dateOf (y : Year) (month dayOfMonth : nat) : Z :=
  (yearStart y
   + (List.fold_left Z.add (List.firstn (month - 1) (monthLengths y)) 0
      + Z.of_nat dayOfMonth - 1) * dayMs)%Z.

(** The table [festiveSeason] of [getCurrentFestiveSeason()]. *)
Definition festiveSeason (y : Year) : list Season :=
  [ mkSeason "Diwali" (dateOf y 10 15) (dateOf y 11 15) (dateOf y 11 1)
      ["electronics"; "fashion"; "home-decor"; "jewelry"; "gifts"]%string
      ["diwali"; "deepavali"; "lights"; "rangoli"; "sweets"; "gifts"]%string;
    mkSeason "Dussehra" (dateOf y 9 20) (dateOf y 10 20) (dateOf y 10 5)
      ["traditional-wear"; "jewelry"; "home-decor"; "electronics"]%string
      ["dussehra"; "navratri"; "garba"; "traditional"]%string;
    mkSeason "Christmas" (dateOf y 12 1) (dateOf y 12 31) (dateOf y 12 25)
      ["gifts"; "electronics"; "fashion"; "toys"]%string
      ["christmas"; "xmas"; "gifts"; "celebration"]%string;
    mkSeason "Valentine" (dateOf y 2 1) (dateOf y 2 20) (dateOf y 2 14)
      ["gifts"; "jewelry"; "fashion"; "flowers"]%string
      ["valentine"; "love"; "romantic"; "couple"; "gifts"]%string ].

(** [getCurrentFestiveSeason()] *)
Definition getCurrentFestiveSeason (now : Z) (y : Year) : option Season :=
  List.find (fun s => (startDate s <=? now)%Z && (now <=? endDate s)%Z)%bool
    (festiveSeason y).

Definition thirtyDays : Z := (30 * 24 * 60 * 60 * 1000)%Z.

(** [isNewProduct(product)] *)
Definition isNewProduct (now : Z) (p : Product) : bool :=
  ((now - createdAt p <? thirtyDays)%Z
   || Qltb (orElse (unitsSold (analytics p)) 0) 10
   || Qltb (orElse (Some (ratingCount p)) 0) 5)%bool.

Definition festiveCategories : list string :=
  ["diwali"; "dussehra"; "holi"; "christmas"; "eid"; "rakhi"; "karva-chauth";
   "ganesh-chaturthi"; "navratri"; "valentine"]%string.

Definition festiveKeywords : list string :=
  ["festive"; "celebration"; "gift"; "traditional"; "ethnic"; "decoration";
   "pooja"; "wedding"; "party"; "special occasion"]%string.

Definition memStr (x : string) (l : list string) : bool :=
  List.existsb (String.eqb x) l.

(** [isDateInFestiveRange(date, season)] *)
Definition isDateInFestiveRange (date : Z) (s : Season) : bool :=
  ((startDate s <=? date)%Z && (date <=? endDate s)%Z)%bool.

(** [`${product.title} ${product.description || ""}`] *)
Definition titleAndDescription (p : Product) : string :=
  (title p ++ " " ++ strOr (description p) "")%string.

(** [`${title} ${description || ""} ${(tags || []).join(" ")}`.toLowerCase()] *)
Definition productText (p : Product) : string :=
  Str.toLowerCase (titleAndDescription p ++ " " ++ Str.join " " (tags p))%string.

(** [isFestiveProduct(product)] *)
Definition isFestiveProduct (now : Z) (y : Year) (p : Product) : bool :=
  let cat := Str.toLowerCase (strOr (category p) "") in
  if List.existsb (fun fc => Str.includes cat fc) festiveCategories then true
  else if List.existsb
            (fun tag => (memStr tag festiveCategories || memStr tag festiveKeywords)%bool)
            (List.map Str.toLowerCase (tags p))
  then true
  else if List.existsb
            (fun kw => Str.includes (Str.toLowerCase (titleAndDescription p)) kw)
            festiveKeywords
  then true
  else match getCurrentFestiveSeason now y with
       | Some s => isDateInFestiveRange (createdAt p) s
       | None => false
       end.

(** [season.categories.includes(product.category?.toLowerCase())] *)
Definition inSeasonCategories (s : Season) (p : Product) : bool :=
  match category p with
  | Some c => memStr (Str.toLowerCase c) (categories s)
  | None => false
  end.

(** [getSeasonMatchScore(product, season)] *)
Definition getSeasonMatchScore (p : Product) (s : Season) : JsNum :=
  let score := if inSeasonCategories s p then 5 # 10 else 0 in
  let matching := List.filter (fun kw => Str.includes (productText p) kw) (keywords s) in
  let share :=
    Num.div (Fin (inject_Z (Z.of_nat (List.length matching))))
            (Fin (inject_Z (Z.of_nat (List.length (keywords s))))) in
  Num.min (Fin 1) (Num.add (Fin score) (Num.mul share (Fin (5 # 10)))).

(** [getQuerySeasonalScore(searchQuery, season)] *)
Definition getQuerySeasonalScore (sq : SearchQuery) (s : Season) : Q :=
  match query sq with
  | EmptyString => 3 # 10
  | q =>
      match List.filter (fun kw => Str.includes (Str.toLowerCase q) kw) (keywords s) with
      | [] => 2 # 10
      | _ => 8 # 10
      end
  end.

(** [Math.abs(peakDate - now) / (1000 * 60 * 60 * 24)] *)
Definition daysToPeak (now : Z) (s : Season) : Q :=
  inject_Z (Z.abs (peakDate s - now)) / inject_Z dayMs.

(** [getTimeProximityScore(season)] *)
Definition getTimeProximityScore (now : Z) (s : Season) : Q :=
  if Qle_bool (daysToPeak now s) 3 then 1
  else if Qle_bool (daysToPeak now s) 7 then 8 # 10
  else if Qle_bool (daysToPeak now s) 14 then 6 # 10
  else 3 # 10.

(** [calculateSeasonalRelevance(product, searchQuery)] *)
Definition calculateSeasonalRelevance (now : Z) (y : Year) (p : Product)
  (sq : SearchQuery) : JsNum :=
  match getCurrentFestiveSeason now y with
  | None => Fin (3 # 10)
  | Some s =>
      let score := Fin 0 in
      let score := Num.add score (Num.mul (getSeasonMatchScore p s) (Fin (4 # 10))) in
      let score := Num.add score (Fin (getQuerySeasonalScore sq s * (3 # 10))) in
      let score := Num.add score (Fin (getTimeProximityScore now s * (3 # 10))) in
      Num.min (Fin 1) score
  end.

(** [calculateAttributeScore(product, searchQuery)] *)
Definition calculateAttributeScore (p : Product) (sq : SearchQuery) : Q :=
  let s0 :=
    match query sq, truthyStr (brand p) with
    | EmptyString, _ => 0
    | _, None => 0
    | q, Some b =>
        let queryLower := Str.toLowerCase q in
        let brandLower := Str.toLowerCase b in
        if (Str.includes queryLower brandLower || Str.includes brandLower queryLower)%bool
        then 3 # 10 else 0
    end in
  let s1 :=
    match truthyStr (q_category sq), category p with
    | Some c, Some pc => if String.eqb pc c then s0 + (4 # 10) else s0
    | _, _ => s0
    end in
  let s2 :=
    match truthyNum (mrp p) with
    | Some m =>
        if Qltb (price p) m
        then s1 + Qmin (3 # 10) ((((m - price p) / m) * 100) / 100)
        else s1
    | None => s1
    end in
  Qmin 1 s2.

Definition premiumBrands : list string :=
  ["apple"; "samsung"; "oneplus"; "dell"; "hp"; "sony"]%string.

Definition trustedBrands : list string :=
  ["xiaomi"; "realme"; "lenovo"; "asus"; "lg"]%string.

Definition brandIn (l : list string) (p : Product) : bool :=
  match brand p with
  | Some b => memStr (Str.toLowerCase b) l
  | None => false
  end.

(** [calculateInitialQualityScore(product)] *)
Definition calculateInitialQualityScore (p : Product) : Q :=
  let score := 5 # 10 in
  let score :=
    if brandIn premiumBrands p then score + (3 # 10)
    else if brandIn trustedBrands p then score + (2 # 10)
    else score in
  let c := 0 in
  let c := match truthyStr (description p) with
           | Some d => if (50 <? Str.len d)%Z then c + (1 # 10) else c
           | None => c
           end in
  let c := if (3 <=? Z.of_nat (List.length (imageUrls p)))%Z then c + (1 # 10) else c in
  let c := if (0 <? Z.of_nat (List.length (tags p)))%Z then c + (5 # 100) else c in
  let c := if (3 <? Z.of_nat (List.length (JSMap.keys (metadata p))))%Z
           then c + (5 # 100) else c in
  Qmin 1 (score + c).

Definition giftCategories : list string :=
  ["gifts"; "jewelry"; "electronics"; "fashion"; "toys"; "books"]%string.

(** [isGiftCategory(product)] *)
Definition isGiftCategory (p : Product) : bool :=
  match category p with
  | Some c => memStr (Str.toLowerCase c) giftCategories
  | None => false
  end.

(** [calculateFestiveUrgencyScore(product)] *)
Definition calculateFestiveUrgencyScore (now : Z) (y : Year) (p : Product) : JsNum :=
  match getCurrentFestiveSeason now y with
  | None => Fin (2 # 10)
  | Some s =>
      let totalDuration := (endDate s - startDate s)%Z in
      let timeLeft := (endDate s - now)%Z in
      if (timeLeft <=? 0)%Z then Fin 0
      else
        let urgencyRatio :=
          Num.add (Fin 1)
            (Num.neg (Num.div (Fin (inject_Z timeLeft)) (Fin (inject_Z totalDuration)))) in
        let giftBonus := if isGiftCategory p then 2 # 10 else 0 in
        Num.min (Fin 1) (Num.add urgencyRatio (Fin giftBonus))
  end.

(** [calculateSeasonalBoost(product, season)] *)
Definition calculateSeasonalBoost (now : Z) (p : Product) (s : Season) : Q :=
  let boost :=
    if Qle_bool (daysToPeak now s) 3 then 14 # 10
    else if Qle_bool (daysToPeak now s) 7 then 13 # 10
    else if Qle_bool (daysToPeak now s) 14 then 12 # 10
    else 11 # 10 in
  let boost := if inSeasonCategories s p then boost * (11 # 10) else boost in
  if isNewProduct now p then boost * (115 # 100) else boost.

Definition giftIndicators : list string :=
  ["gift wrap"; "gift packaging"; "gift card"; "express delivery";
   "same day delivery"; "gift box"; "premium packaging"]%string.

(** [isGiftReady(product)].  Metadata values are strings in this model, so
    the two comparisons [metadata.x === true] are false. *)
Definition isGiftReady (p : Product) : bool :=
  List.existsb (fun i => Str.includes (productText p) i) giftIndicators.

(** [applyBoostFactors(baseScore, product, searchQuery)] *)
Definition applyBoostFactors (now : Z) (y : Year) (baseScore : JsNum) (p : Product)
  : JsNum :=
  let productAge := (now - createdAt p)%Z in
  let s :=
    if (productAge <? thirtyDays)%Z then
      let ageBoost :=
        Qmax (1 # 10) (1 - (inject_Z productAge / inject_Z thirtyDays) * (5 # 10)) in
      Num.mul baseScore (Fin (1 + ageBoost))
    else baseScore in
  let currentSeason := getCurrentFestiveSeason now y in
  let s :=
    match currentSeason with
    | Some season =>
        if isFestiveProduct now y p
        then Num.mul s (Fin (calculateSeasonalBoost now p season))
        else s
    | None => s
    end in
  let s := boostIf (isTrending (analytics p)) (11 # 10) s in
  let s := boostIf (isOnSale (analytics p)) (115 # 100) s in
  let s :=
    match currentSeason with
    | Some _ => boostIf (isGiftReady p) (12 # 10) s
    | None => s
    end in
  let s :=
    boostIf (Qgtb (stock p) 0 && Qle_bool (stock p) 10)
      (match currentSeason with Some _ => 115 # 100 | None => 105 # 100 end) s in
  let s := boostIf (Qgtb (orElse (profitMargin (analytics p)) 0) (3 # 10)) (11 # 10) s in
  let s := boostIf (isPopularBrand p) (105 # 100) s in
  boostIf (Qle_bool 5000 (price p) && Qle_bool (price p) 30000) (11 # 10) s.

Section Scoring.

Variable ln : Q -> Q.

(** The weighted sum of the festive [calculateRelevanceScore], before the
    boosts. *)
Definition baseRelevance (now : Z) (y : Year) (r : Repo) (p : Product)
  (sq : SearchQuery) : JsNum :=
  let isNew := isNewProduct now p in
  let isFestive := isFestiveProduct now y p in
  let score := Fin 0 in
  if (isFestive && isNew)%bool then
    let score := Num.add score (Fin (calculateTextRelevance p sq * (35 # 100))) in
    let score :=
      Num.add score (Num.mul (calculateSeasonalRelevance now y p sq) (Fin (35 # 100))) in
    let score :=
      Num.add score (Num.mul (calculateFestiveUrgencyScore now y p) (Fin (15 # 100))) in
    Num.add score (Fin (calculateAttributeScore p sq * (15 # 100)))
  else if isNew then
    let score := Num.add score (Fin (calculateTextRelevance p sq * (6 # 10))) in
    let score := Num.add score (Fin (calculateAttributeScore p sq * (25 # 100))) in
    Num.add score (Fin (calculateInitialQualityScore p * (15 # 100)))
  else
    let score := Num.add score (Fin (calculateTextRelevance p sq * (4 # 10))) in
    let score := Num.add score (Fin (calculateQualityScore p * (25 # 100))) in
    let score :=
      Num.add score (Num.mul (calculatePopularityScore ln r p) (Fin (2 # 10))) in
    let score := Num.add score (Fin (calculateBusinessScore p * (15 # 100))) in
    if isFestive
    then Num.add score (Num.mul (calculateSeasonalRelevance now y p sq) (Fin (1 # 10)))
    else score.

(** [calculateRelevanceScore(product, searchQuery)], festive variant. *)
Definition calculateRelevanceScore (now : Z) (y : Year) (r : Repo) (p : Product)
  (sq : SearchQuery) : JsNum :=
  let score := applyBoostFactors now y (baseRelevance now y r p sq) p in
  Num.max (Fin 0) (Num.min (Fin 1) score).

End Scoring.

End Festive.

(* ------------------------------------------------------------------ *)
(** ** Further methods of the models, the repository and the services *)

From Stdlib Require Import Permutation Sorted.

(** [product.updateStock(quantity)] *)
Definition Product_updateStock (now : Z) (quantity : Q) (p : Product) : Product :=
  {| productId := productId p; title := title p; description := description p;
     category := category p; subcategory := subcategory p; brand := brand p;
     model := model p; price := price p; mrp := mrp p; currency := currency p;
     rating := rating p; ratingCount := ratingCount p;
     stock := Qmax 0 quantity;
     isActive := isActive p; imageUrls := imageUrls p; metadata := metadata p;
     analytics := analytics p; searchableText := searchableText p;
     tags := tags p; createdAt := createdAt p; updatedAt := now |}.

(** [Product.fromJSON(json)] *)
Definition Product_fromJSON (now genId : Z) (json : ProductData) : Result Product :=
  newProduct now genId json.

(** [product.validate()] on a constructed product. *)
Definition Product_validate (p : Product) : Result unit :=
  validateProduct (Some (title p)) (Some (price p)) (rating p) (stock p).

(** [getById(productId)]: [None] is [null]. *)
Definition getById (r : Repo) (id : Z) : option Product :=
  JSMap.get id (products r).

(** [getByIds(productIds)] *)
Definition getByIds (r : Repo) (ids : list Z) : list Product :=
  List.flat_map
    (fun id => match JSMap.get id (products r) with Some p => [p] | None => [] end)
    ids.

(** [Array.from(ids).slice(0, limit).map(id => products.get(id)).filter(Boolean)] *)
Definition firstStored (r : Repo) (ids : JSSet.t Z) (limit : Z) : list Product :=
  List.flat_map
    (fun id => match JSMap.get id (products r) with Some p => [p] | None => [] end)
    (slice 0 limit ids).

(** [getByCategory(category, limit = 100)]; [None] is an omitted limit. *)
Definition getByCategory (r : Repo) (category : string) (limit : option Z)
  : list Product :=
  firstStored r (postings (Str.toLowerCase category) (categoryIndex r))
    (match limit with Some l => l | None => 100 end).

(** [getByBrand(brand, limit = 100)] *)
Definition getByBrand (r : Repo) (brand : string) (limit : option Z)
  : list Product :=
  firstStored r (postings (Str.toLowerCase brand) (brandIndex r))
    (match limit with Some l => l | None => 100 end).

(** The order of [Array.prototype.sort()] without a comparator, on strings:
    by code units. *)
Definition defaultCompare (a b : string) : JsNum :=
  match String.compare a b with
  | Lt => Fin (-1)
  | Eq => Fin 0
  | Gt => Fin 1
  end.

(** [getCategories()] *)
Definition getCategories (r : Repo) : list string :=
  Array_sort defaultCompare (JSMap.keys (categoryIndex r)).

(** [getBrands()] *)
Definition getBrands (r : Repo) : list string :=
  Array_sort defaultCompare (JSMap.keys (brandIndex r)).

(** [getCacheHitRate()] *)
Definition getCacheHitRate (s : Service) : Z :=
  let total := hits (cacheStats s) + misses (cacheStats s) in
  if 0 <? total
  then Math_round ((inject_Z (hits (cacheStats s)) / inject_Z total) * 100)
  else 0.

(** [s.split(" ")] *)
Definition splitSpace (s : string) : list string :=
  List.map Str.ofChars (Str.splitSpaceAux [] (Str.chars s)).

(** The fields [getSuggestions] reads from one product. *)
Definition suggestionFields (p : Product) : list (option string) :=
  [Some (title p); brand p; category p]
    ++ List.map Some (tags p)
    ++ List.map Some (splitSpace (searchableText p)).

(** [suggestions.set(word, (suggestions.get(word) || 0) + 1)] when the word
    starts with the last term. *)
Definition countWord (lastTerm : string) (suggestions : JSMap.t string Z)
  (word : string) : JSMap.t string Z :=
  if (Str.startsWith word lastTerm && (Str.len lastTerm <=? Str.len word))%bool
  then JSMap.set word
         (match JSMap.get word suggestions with
          | Some n => if n =? 0 then 1 else n + 1
          | None => 1
          end)
         suggestions
  else suggestions.

Definition countField (lastTerm : string) (suggestions : JSMap.t string Z)
  (field : option string) : JSMap.t string Z :=
  match truthyStr field with
  | None => suggestions
  | Some f =>
      List.fold_left (countWord lastTerm) (Str.splitWs (Str.toLowerCase f)) suggestions
  end.

Definition countProduct (lastTerm : string) (suggestions : JSMap.t string Z)
  (p : Product) : JSMap.t string Z :=
  List.fold_left (countField lastTerm) (suggestionFields p) suggestions.

(** [getSuggestions(partialQuery, limit = 10)] of the non-seasonal service
    (the festive one has the same body). *)
Definition getSuggestions (r : Repo) (partialQuery : string) (limit : option Z)
  : list string :=
  let limit := match limit with Some l => l | None => 10 end in
  let searchTerms := Str.splitWs (Str.toLowerCase partialQuery) in
  let lastTerm := List.last searchTerms EmptyString in
  if Str.len lastTerm <? 2 then []
  else
    let suggestions :=
      List.fold_left (countProduct lastTerm) (JSMap.values (products r)) JSMap.empty in
    List.map fst
      (slice 0 limit
         (Array_sort (fun a b => Fin (inject_Z (snd b - snd a))) suggestions)).

(* ------------------------------------------------------------------ *)
(** ** SearchService, festive variant: placing new products in the results *)

Module Injection.

(** The loop of the branch without a season: at positions 2 and 5 the next
    of the promoted new products is pushed while there is one, elsewhere
    (or when they have run out) the next of the remaining ones while there
    is one.  [i] is the loop index, [n] the number of iterations left. *)
Fixpoint plainLoop {A : Type} (i : nat) (n : nat) (top remaining : list A) : list A :=
  match n with
  | O => []
  | S n' =>
      match (if (Nat.eqb i 2 || Nat.eqb i 5)%bool then top else []) with
      | x :: _ => x :: plainLoop (S i) n' (List.tl top) remaining
      | [] =>
          match remaining with
          | x :: remaining' => x :: plainLoop (S i) n' top remaining'
          | [] => plainLoop (S i) n' top remaining
          end
      end
  end.

Definition isIn (i : nat) (l : list nat) : bool := List.existsb (Nat.eqb i) l.

(** The loop of the branch within a season. *)
Fixpoint seasonLoop {A : Type} (i : nat) (n : nat) (festive regular remaining : list A)
  : list A :=
  match n with
  | O => []
  | S n' =>
      match (if isIn i [1; 3; 5; 7]%nat then festive else []) with
      | x :: _ => x :: seasonLoop (S i) n' (List.tl festive) regular remaining
      | [] =>
          match (if isIn i [2; 6]%nat then regular else []) with
          | x :: _ => x :: seasonLoop (S i) n' festive (List.tl regular) remaining
          | [] =>
              match remaining with
              | x :: remaining' => x :: seasonLoop (S i) n' festive regular remaining'
              | [] => seasonLoop (S i) n' festive regular remaining
              end
          end
      end
  end.

(** [xs.slice(start)] *)
Definition sliceFrom {A : Type} (start : Z) (xs : list A) : list A :=
  slice start (Z.of_nat (List.length xs)) xs.

(** [injectNewProductsInResults(sortedProducts, searchQuery)]; every
    reading of the clock is the instant [now]. *)
Definition injectNewProductsInResults (now : Z) (y : Festive.Year)
  (sortedProducts : list Candidate) (sq : SearchQuery) : list Candidate :=
  if 0 <? offset sq then sortedProducts
  else
    let isNew := fun c => Festive.isNewProduct now (fieldsOf c) in
    let isFestive := fun c => Festive.isFestiveProduct now y (fieldsOf c) in
    let newProducts := List.filter isNew sortedProducts in
    let establishedProducts := List.filter (fun c => negb (isNew c)) sortedProducts in
    match Festive.getCurrentFestiveSeason now y with
    | Some currentSeason =>
        let newFestiveProducts := List.filter isFestive newProducts in
        let newRegularProducts := List.filter (fun c => negb (isFestive c)) newProducts in
        let daysToPeak := Festive.daysToPeak now currentSeason in
        let festiveSlots :=
          if Qle_bool daysToPeak 7 then 4
          else if Qle_bool daysToPeak 14 then 3 else 2 in
        let topNewFestiveProducts := slice 0 festiveSlots newFestiveProducts in
        let topNewRegularProducts :=
          slice 0 (Z.max 0 (2 - festiveSlots)) newRegularProducts in
        let remainingProducts :=
          establishedProducts
            ++ sliceFrom festiveSlots newFestiveProducts
            ++ sliceFrom (Z.max 0 (2 - festiveSlots)) newRegularProducts in
        seasonLoop 0 (List.length sortedProducts)
          topNewFestiveProducts topNewRegularProducts remainingProducts
    | None =>
        let topNewProducts := slice 0 2 newProducts in
        let remainingProducts := establishedProducts ++ sliceFrom 2 newProducts in
        plainLoop 0 (List.length sortedProducts) topNewProducts remainingProducts
    end.

End Injection.

(* ------------------------------------------------------------------ *)
(** ** Vocabulary of the statements *)

(** *** Record updates *)

Definition withStock (s : Q) (p : Product) : Product :=
  {| productId := productId p; title := title p; description := description p;
     category := category p; subcategory := subcategory p; brand := brand p;
     model := model p; price := price p; mrp := mrp p; currency := currency p;
     rating := rating p; ratingCount := ratingCount p; stock := s;
     isActive := isActive p; imageUrls := imageUrls p; metadata := metadata p;
     analytics := analytics p; searchableText := searchableText p;
     tags := tags p; createdAt := createdAt p; updatedAt := updatedAt p |}.

Definition withActive (b : bool) (p : Product) : Product :=
  {| productId := productId p; title := title p; description := description p;
     category := category p; subcategory := subcategory p; brand := brand p;
     model := model p; price := price p; mrp := mrp p; currency := currency p;
     rating := rating p; ratingCount := ratingCount p; stock := stock p;
     isActive := b; imageUrls := imageUrls p; metadata := metadata p;
     analytics := analytics p; searchableText := searchableText p;
     tags := tags p; createdAt := createdAt p; updatedAt := updatedAt p |}.


Definition withOffset (v : JsVal) (q : QueryParams) : QueryParams :=
  {| p_query := p_query q; p_limit := p_limit q; p_offset := v;
     p_sortBy := p_sortBy q; p_category := p_category q; p_brand := p_brand q;
     p_minPrice := p_minPrice q; p_maxPrice := p_maxPrice q;
     p_minRating := p_minRating q; p_inStock := p_inStock q;
     p_priceRange := p_priceRange q; p_ratingRange := p_ratingRange q |}.

Definition withQuery (s : string) (q : QueryParams) : QueryParams :=
  {| p_query := Some s; p_limit := p_limit q; p_offset := p_offset q;
     p_sortBy := p_sortBy q; p_category := p_category q; p_brand := p_brand q;
     p_minPrice := p_minPrice q; p_maxPrice := p_maxPrice q;
     p_minRating := p_minRating q; p_inStock := p_inStock q;
     p_priceRange := p_priceRange q; p_ratingRange := p_ratingRange q |}.

(** *** Query construction *)

(** The query normaliser as the specification words it: lower-case and
    trim, then the regional-term table, then the misspelling table, each
    applied to the whole string. *)
Definition specNormalize (q : string) : string :=
  applyTable misspellingMap (applyTable hinglishMap (Str.trim (Str.toLowerCase q))).



(** *** The search pipeline *)

(** The predicate [filterM] keeps by, when nothing throws. *)
Definition passes {A : Type} (f : A -> Result bool) (x : A) : bool :=
  match f x with
  | inr true => true
  | _ => false
  end.

(** A response entry that does not report MEDIUM_STOCK, and reports
    HIGH_STOCK whenever the stock exceeds 10. *)
Definition noMediumStock (item : SearchResult) : Prop :=
  r_stockStatus item <> MEDIUM_STOCK /\
  ((10 < r_stock item)%Q -> r_stockStatus item = HIGH_STOCK).

(** The candidates of a page, as [performSearch] computes them. *)
Definition pageCandidates (ln : Q -> Q) (r : Repo) (sq : SearchQuery)
  (filtered : list Product) : list Candidate :=
  slice (offset sq) (offset sq + limit sq)
    (Array_sort (sortFunction (sortBy sq)) (scoreAll ln r sq filtered)).

(** *** Numbers *)



(** *** The result cache *)

(** Every response held by the cache satisfies [P]. *)
Definition cacheHolds (P : Response -> Prop) (s : Service) : Prop :=
  Forall (fun e => P (ce_data e)) (JSMap.values (searchCache s)).

(** A well-formed cache: keys are unique, as in any [Map], and there are at
    most [maxCacheSize] entries. *)
Definition cacheWf (s : Service) : Prop :=
  NoDup (JSMap.keys (searchCache s)) /\
  (JSMap.size (searchCache s) <= maxCacheSize)%Z.

(** One call of [search]: the clock readings, the catalog at that moment
    and the parameters. *)
Definition Call : Type := (Clock * Repo * QueryParams)%type.

(** The service after a sequence of calls of [search]. *)
Definition runSearches (ln : Q -> Q) (calls : list Call) (s : Service) : Service :=
  List.fold_left
    (fun s c => snd (search ln (fst (fst c)) (snd (fst c)) (snd c) s))
    calls s.

(** The insertion time of the cache entry a parameter object maps to. *)
Definition cachedAt (params : QueryParams) (s : Service) : option Z :=
  match newSearchQuery params with
  | inr sq => option_map ce_timestamp (JSMap.get (generateCacheKey sq) (searchCache s))
  | inl _ => None
  end.

(** The service with one more cache hit counted. *)
Definition countHit (s : Service) : Service :=
  mkService (searchCache s)
    (mkCacheStats (hits (cacheStats s) + 1) (misses (cacheStats s))
                  (evictions (cacheStats s))).

(** What [getFromCache] guarantees about its outcome. *)
Definition getFromCacheSpec (now : Z) (key : CacheKey) (s : Service) : Prop :=
  match getFromCache now key s with
  | (Some d, s') =>
      (exists e, JSMap.get key (searchCache s) = Some e /\ ce_data e = d /\
                 (now - ce_timestamp e < 300000)%Z) /\
      s' = s
  | (None, s') =>
      JSMap.get key (searchCache s') = None /\
      (forall e, JSMap.get key (searchCache s) = Some e ->
                 (300000 <= now - ce_timestamp e)%Z) /\
      (forall k, k <> key ->
                 JSMap.get k (searchCache s') = JSMap.get k (searchCache s)) /\
      cacheStats s' = cacheStats s
  end.

(** *** The indexes *)

(** No bucket of the index holds [id]. *)
Definition idFree {K : Type} `{EqDec K} (id : Z) (idx : Index K) : Prop :=
  forall k s, JSMap.get k idx = Some s -> ~ In id s.

(** No secondary index of the repository holds [id]. *)
Definition repoIdFree (id : Z) (r : Repo) : Prop :=
  idFree id (searchIndex r) /\ idFree id (categoryIndex r) /\
  idFree id (brandIndex r) /\ idFree id (priceRangeIndex r) /\
  idFree id (ratingBucketIndex r) /\ idFree id (stockStatusIndex r).

(** None of the keys [ks] maps to an empty bucket. *)
Definition noEmptyBucketAt {K : Type} `{EqDec K} (ks : list K) (idx : Index K) : Prop :=
  forall k, In k ks -> JSMap.get k idx <> Some [].

(** The keys a product populates in each index. *)
Definition searchKeys (p : Product) : list string :=
  extractSearchTerms (searchableText p).

Definition categoryKeys (p : Product) : list string :=
  match truthyStr (category p) with
  | Some c => [Str.toLowerCase c]
  | None => []
  end.

Definition brandKeys (p : Product) : list string :=
  match truthyStr (brand p) with
  | Some b => [Str.toLowerCase b]
  | None => []
  end.

(** No key the product populated is left with an empty bucket. *)
Definition noOrphanedKeys (p : Product) (r : Repo) : Prop :=
  noEmptyBucketAt (searchKeys p) (searchIndex r) /\
  noEmptyBucketAt (categoryKeys p) (categoryIndex r) /\
  noEmptyBucketAt (brandKeys p) (brandIndex r) /\
  noEmptyBucketAt [getPriceRange p] (priceRangeIndex r) /\
  noEmptyBucketAt [getRatingBucket p] (ratingBucketIndex r) /\
  noEmptyBucketAt [getStockStatus p] (stockStatusIndex r).

(** Every id held by a bucket of the index is below [n]. *)
Definition bucketsBelow {K : Type} `{EqDec K} (n : Z) (idx : Index K) : Prop :=
  forall k s, JSMap.get k idx = Some s -> forall i, In i s -> (i < n)%Z.

(** The ids the repository has indexed were all issued by its counter. *)
Definition idsIssued (r : Repo) : Prop :=
  (1 <= nextId r)%Z /\
  bucketsBelow (nextId r) (searchIndex r) /\
  bucketsBelow (nextId r) (categoryIndex r) /\
  bucketsBelow (nextId r) (brandIndex r) /\
  bucketsBelow (nextId r) (priceRangeIndex r) /\
  bucketsBelow (nextId r) (ratingBucketIndex r) /\
  bucketsBelow (nextId r) (stockStatusIndex r).

(** The caller leaves the choice of the id to the repository. *)
Definition noIdSupplied (d : ProductData) : Prop := d_productId d = None.

(* ------------------------------------------------------------------ *)
(** ** Sample data *)

(** A function that is positive above [1], standing in for the logarithm
    where a concrete one is needed: [x - 1], an upper bound of [ln x]. *)
Definition lnUpper (x : Q) : Q := (x - 1)%Q.

(** A phone, as a caller would add it. *)
Definition phoneData : ProductData :=
  {| d_productId := None; d_title := Some "Old Phone"%string; d_description := None;
     d_category := Some "Mobile"%string; d_subcategory := None;
     d_brand := Some "Samsung"%string;
     d_model := None; d_price := Some 12000%Q; d_mrp := Some 15000%Q;
     d_currency := None; d_rating := Some (9 # 2)%Q; d_ratingCount := Some 10%Q;
     d_stock := Some 30%Q; d_isActive := None; d_imageUrls := None;
     d_metadata := None; d_analytics := None; d_searchableText := None;
     d_tags := None; d_createdAt := None; d_updatedAt := None |}.

(** The repository after [add(phoneData)] on a fresh repository. *)
Definition phoneRepo : Repo := snd (add 1000 0 phoneData emptyRepo).

(** The stored phone of [phoneRepo]. *)
Definition storedPhone : Product :=
  {| productId := 1; title := "Old Phone"; description := None;
     category := Some "Mobile"%string; subcategory := None;
     brand := Some "Samsung"%string; model := None; price := 12000;
     mrp := Some 15000%Q; currency := "INR"; rating := 9 # 2; ratingCount := 10;
     stock := 30; isActive := true; imageUrls := []; metadata := [];
     analytics := noAnalytics; searchableText := "old phone samsung mobile";
     tags := []; createdAt := 1000; updatedAt := 1000 |}.

(** The update [{ title: "New Tablet" }]. *)
Definition titleUpdate : ProductData :=
  {| d_productId := None; d_title := Some "New Tablet"%string; d_description := None;
     d_category := None; d_subcategory := None; d_brand := None;
     d_model := None; d_price := None; d_mrp := None; d_currency := None;
     d_rating := None; d_ratingCount := None; d_stock := None;
     d_isActive := None; d_imageUrls := None; d_metadata := None;
     d_analytics := None; d_searchableText := None; d_tags := None;
     d_createdAt := None; d_updatedAt := None |}.

(** The soft delete of the controller: the update [{ isActive: false }]. *)
Definition softDelete : ProductData :=
  {| d_productId := None; d_title := None; d_description := None;
     d_category := None; d_subcategory := None; d_brand := None;
     d_model := None; d_price := None; d_mrp := None; d_currency := None;
     d_rating := None; d_ratingCount := None; d_stock := None;
     d_isActive := Some false; d_imageUrls := None; d_metadata := None;
     d_analytics := None; d_searchableText := None; d_tags := None;
     d_createdAt := None; d_updatedAt := None |}.

(** The repository holding the phone after its soft delete. *)
Definition deletedPhoneRepo : Repo := snd (update 2000 0 1 softDelete phoneRepo).

(** The phone with [analytics.unitsSold = -5]. *)
Definition negativeSalesData : ProductData :=
  {| d_productId := None; d_title := Some "Old Phone"%string; d_description := None;
     d_category := Some "Mobile"%string; d_subcategory := None;
     d_brand := Some "Samsung"%string;
     d_model := None; d_price := Some 12000%Q; d_mrp := Some 15000%Q;
     d_currency := None; d_rating := Some (9 # 2)%Q; d_ratingCount := Some 10%Q;
     d_stock := Some 30%Q; d_isActive := None; d_imageUrls := None;
     d_metadata := None;
     d_analytics := Some (mkAnalytics (Some (-5)%Q) None None false false);
     d_searchableText := None;
     d_tags := None; d_createdAt := None; d_updatedAt := None |}.

Definition negativeSalesRepo : Repo := snd (add 1000 0 negativeSalesData emptyRepo).

(** The query built from no parameters at all. *)
Definition emptyQuery : SearchQuery :=
  {| query := ""; limit := 20; offset := 0; sortBy := "relevance";
     q_category := None; q_brand := None; minPrice := None; maxPrice := None;
     minRating := None; inStock := false; priceRange := None;
     ratingRange := None |}.

Definition sampleClock : Clock := mkClock 0 5 10.

(** A thousand searches over an empty catalog that differ in their offset
    only: call [i] asks for offset [i] at time [i]. *)
Definition offsetCall (i : nat) : Call :=
  (mkClock (Z.of_nat i) 0 (Z.of_nat i), emptyRepo,
   withOffset (JNum (inject_Z (Z.of_nat i))) noParams).

Definition fullService : Service :=
  runSearches lnUpper (List.map offsetCall (List.seq 0 1000)) newService.

(** The key of the query with offset [i] and no other parameter. *)
Definition offsetKey (i : Z) : CacheKey :=
  {| query := ""; limit := 20; offset := i; sortBy := "relevance";
     q_category := None; q_brand := None; minPrice := None; maxPrice := None;
     minRating := None; inStock := false; priceRange := None;
     ratingRange := None |}.

(** The response to a search over an empty catalog. *)
Definition emptyResponse (off : Z) : Response :=
  {| data := []; totalResults := 0; resp_query := "";
     filters := mkFilters None None None None None false;
     pagination := mkPagination 20 off false (0 <? off)%Z;
     resp_sortBy := "relevance"; executionTime := 0 |}.

(** A year that starts at instant 0 and is not a leap year, and an
    instant in its Diwali season (1 November). *)
Definition sampleYear : Festive.Year := Festive.mkYear 0 false.

Definition firstOfNovember : Z := Festive.dateOf sampleYear 11 1.

(* ------------------------------------------------------------------ *)
(** ** Vocabulary of the further statements *)

(** The invariants [validate()] enforces on a product. *)
Definition validFields (p : Product) : Prop :=
  Str.trim (title p) <> EmptyString /\
  (0 < price p)%Q /\ (0 <= rating p)%Q /\ (rating p <= 5)%Q /\ (0 <= stock p)%Q.

(** A string without upper-case letters. *)
Definition noUpper (l : list ascii) : Prop :=
  Forall (fun c => Str.isUpper c = false) l.

(** An index term: at least two characters, all of them in [a-z0-9]. *)
Definition isTerm (t : string) : Prop :=
  1 < Str.len t /\ Forall (fun c => Str.isLowerAlnum c = true) (Str.chars t).

(** The options object without any filter. *)
Definition noOptions : SearchOptions := mkSearchOptions None None None None false.

(** The primary map is well formed: the id counter is positive, and every
    stored product sits under its own, non-zero id and satisfies the
    checks of [validate()]. *)
Definition storeWf (r : Repo) : Prop :=
  0 < nextId r /\
  forall id p, JSMap.get id (products r) = Some p ->
    id <> 0 /\ productId p = id /\ validFields p.

(** The update [{ price: -1 }], which [validate()] rejects. *)
Definition badPriceUpdate : ProductData :=
  {| d_productId := None; d_title := None; d_description := None;
     d_category := None; d_subcategory := None; d_brand := None;
     d_model := None; d_price := Some (-1)%Q; d_mrp := None; d_currency := None;
     d_rating := None; d_ratingCount := None; d_stock := None;
     d_isActive := None; d_imageUrls := None; d_metadata := None;
     d_analytics := None; d_searchableText := None; d_tags := None;
     d_createdAt := None; d_updatedAt := None |}.

(** Every stored id was issued by the counter. *)
Definition keysBelow (r : Repo) : Prop :=
  0 < nextId r /\
  forall id, In id (JSMap.keys (products r)) -> id < nextId r.

(** Ascending order of strings, by code units. *)
Definition strLe (a b : string) : Prop := String.leb a b = true.

(** The analytics carry no negative return rate or profit margin. *)
Definition ratesNonNegative (a : Analytics) : Prop :=
  (forall x, returnRate a = Some x -> (0 <= x)%Q) /\
  (forall x, profitMargin a = Some x -> (0 <= x)%Q).

(** Two optional strings denote the same value up to the case of
    letters. *)
Definition sameIgnoringCase (a : option string) (b : string) : Prop :=
  exists a', a = Some a' /\ Str.toLowerCase a' = Str.toLowerCase b.

(** A response entry satisfies the filters of a query. *)
Definition satisfiesFilters (sq : SearchQuery) (item : SearchResult) : Prop :=
  (forall c, truthyStr (q_category sq) = Some c -> sameIgnoringCase (r_category item) c) /\
  (forall b, truthyStr (q_brand sq) = Some b -> sameIgnoringCase (r_brand item) b) /\
  (forall m, minPrice sq = Some m -> (m <= r_price item)%Q) /\
  (forall m, maxPrice sq = Some m -> (r_price item <= m)%Q) /\
  (forall m, minRating sq = Some m -> (m <= r_rating item)%Q) /\
  (inStock sq = true -> (0 < r_stock item)%Q).

(** A query sorted by ascending price over the phone repository. *)
Definition cheapestFirst : SearchQuery :=
  {| query := ""; limit := 20; offset := 0; sortBy := "price_low";
     q_category := None; q_brand := None; minPrice := Some 5000%Q;
     maxPrice := None; minRating := None; inStock := true; priceRange := None;
     ratingRange := None |}.

(** The number of calls whose parameters pass the query validation. *)
Definition validCalls (calls : list Call) : Z :=
  Z.of_nat (List.length (List.filter (fun c => isOk (newSearchQuery (snd c))) calls)).

(** The counters of the cache statistics are not negative. *)
Definition statsNonNegative (s : Service) : Prop :=
  0 <= hits (cacheStats s) /\ 0 <= misses (cacheStats s).

(** A tablet that claims the id 1. *)
Definition tabletData : ProductData :=
  {| d_productId := Some 1; d_title := Some "Tablet"%string; d_description := None;
     d_category := None; d_subcategory := None; d_brand := None;
     d_model := None; d_price := Some 9000%Q; d_mrp := None; d_currency := None;
     d_rating := None; d_ratingCount := None; d_stock := None;
     d_isActive := None; d_imageUrls := None; d_metadata := None;
     d_analytics := None; d_searchableText := None; d_tags := None;
     d_createdAt := None; d_updatedAt := None |}.

(** The last term of a partial query, as [getSuggestions] takes it. *)
Definition lastTermOf (partialQuery : string) : string :=
  List.last (Str.splitWs (Str.toLowerCase partialQuery)) EmptyString.

(** The words counted so far are distinct and start with the last term. *)
Definition suggestionsWf (lastTerm : string) (m : JSMap.t string Z) : Prop :=
  NoDup (JSMap.keys m) /\
  forall w, In w (JSMap.keys m) -> Str.startsWith w lastTerm = true.

(* ================================================================== *)
(** * Properties *)

(** ** Rationals and booleans *)

Lemma Qltb_lt (a b : Q) : Qltb a b = true <-> (a < b)%Q.
Proof.
  unfold Qltb. rewrite negb_true_iff.
  destruct (Qle_bool b a) eqn:E.
  - rewrite Qle_bool_iff in E. split; [discriminate | intro; exfalso; lra].
  - split; [intros _ | reflexivity].
    destruct (Qlt_le_dec a b) as [L | L]; [exact L |].
    apply Qle_bool_iff in L. congruence.
Qed.

Lemma Qltb_ge (a b : Q) : Qltb a b = false <-> (b <= a)%Q.
Proof.
  unfold Qltb. rewrite negb_false_iff. apply Qle_bool_iff.
Qed.

Lemma Qis0_eq (a : Q) : Qis0 a = true <-> (a == 0)%Q.
Proof. unfold Qis0. apply Qeq_bool_iff. Qed.

Lemma Qis0_neq (a : Q) : Qis0 a = false <-> ~ (a == 0)%Q.
Proof.
  unfold Qis0. split.
  - intros E H. apply Qeq_bool_iff in H. congruence.
  - intro H. destruct (Qeq_bool a 0) eqn:E; [| reflexivity].
    apply Qeq_bool_iff in E. contradiction.
Qed.

Lemma Qle_bool_gt (a b : Q) : Qle_bool a b = false <-> (b < a)%Q.
Proof.
  split.
  - intro E. destruct (Qlt_le_dec b a) as [L | L]; [exact L |].
    apply Qle_bool_iff in L. congruence.
  - intro L. destruct (Qle_bool a b) eqn:E; [| reflexivity].
    apply Qle_bool_iff in E. exfalso; lra.
Qed.

(** ** Stock status *)

Lemma getStockStatus_cases (p : Product) :
  (getStockStatus p = OUT_OF_STOCK /\ (stock p == 0)%Q) \/
  (getStockStatus p = LOW_STOCK /\ ~ (stock p == 0)%Q /\ (stock p <= 10)%Q) \/
  (getStockStatus p = MEDIUM_STOCK /\ (10 < stock p)%Q /\ (stock p <= 50)%Q) \/
  (getStockStatus p = HIGH_STOCK /\ (50 < stock p)%Q).
Proof.
  unfold getStockStatus.
  destruct (Qis0 (stock p)) eqn:E0.
  - left. split; [reflexivity | now apply Qis0_eq].
  - apply Qis0_neq in E0.
    destruct (Qle_bool (stock p) 10) eqn:E1.
    + right; left. apply Qle_bool_iff in E1. auto.
    + apply Qle_bool_gt in E1.
      destruct (Qle_bool (stock p) 50) eqn:E2.
      * right; right; left. apply Qle_bool_iff in E2. auto.
      * right; right; right. apply Qle_bool_gt in E2. auto.
Qed.

(** Case analysis on the four stock statuses of a product. *)
Ltac stock_cases C :=
  destruct C as [[E ?] | [[E [? ?]] | [[E [? ?]] | [E ?]]]].

(** C9.  The derived stock status has its boundaries at 0, 10 and 50:
    a stock of 0 is OUT_OF_STOCK, a non-zero stock up to 10 is LOW_STOCK,
    a stock above 10 and up to 50 is MEDIUM_STOCK, a stock above 50 is
    HIGH_STOCK; in particular 0, 10, 11 and 51 give OUT_OF_STOCK,
    LOW_STOCK, MEDIUM_STOCK and HIGH_STOCK for every product. *)
Theorem getStockStatus_boundaries : forall p : Product,
  (getStockStatus p = OUT_OF_STOCK <-> (stock p == 0)%Q) /\
  (getStockStatus p = LOW_STOCK <-> (~ (stock p == 0)%Q /\ (stock p <= 10)%Q)) /\
  (getStockStatus p = MEDIUM_STOCK <-> ((10 < stock p)%Q /\ (stock p <= 50)%Q)) /\
  (getStockStatus p = HIGH_STOCK <-> (50 < stock p)%Q) /\
  getStockStatus (withStock 0 p) = OUT_OF_STOCK /\
  getStockStatus (withStock 10 p) = LOW_STOCK /\
  getStockStatus (withStock 11 p) = MEDIUM_STOCK /\
  getStockStatus (withStock 51 p) = HIGH_STOCK.
Proof.
  intro p.
  assert (C := getStockStatus_cases p).
  split; [| split; [| split; [| split; [| repeat split ]]]];
    (split; intro H;
     [ stock_cases C; rewrite E in H; try discriminate; repeat split; assumption
     | stock_cases C; try exact E; exfalso;
       try (destruct H as [H0 H1]; try contradiction); lra ]).
Qed.

(** ** Query normalisation *)

Lemma chars_ofChars (l : list ascii) : Str.chars (Str.ofChars l) = l.
Proof. apply list_ascii_of_string_of_list_ascii. Qed.

Lemma ofChars_chars (s : string) : Str.ofChars (Str.chars s) = s.
Proof. apply string_of_list_ascii_of_string. Qed.

Lemma isSpace_lowerChar (c : ascii) : Str.isSpace (Str.lowerChar c) = Str.isSpace c.
Proof. destruct c as [[] [] [] [] [] [] [] []]; reflexivity. Qed.

Lemma dropSpaces_lowerChars (l : list ascii) :
  Str.dropSpaces (Str.lowerChars l) = Str.lowerChars (Str.dropSpaces l).
Proof.
  induction l as [| c l IH]; simpl; [reflexivity |].
  rewrite isSpace_lowerChar.
  destruct (Str.isSpace c); [exact IH | reflexivity].
Qed.

Lemma trimChars_lowerChars (l : list ascii) :
  Str.trimChars (Str.lowerChars l) = Str.lowerChars (Str.trimChars l).
Proof.
  unfold Str.trimChars.
  rewrite dropSpaces_lowerChars.
  unfold Str.lowerChars at 1.
  rewrite <- map_rev.
  fold (Str.lowerChars (rev (Str.dropSpaces l))).
  rewrite dropSpaces_lowerChars.
  unfold Str.lowerChars. now rewrite map_rev.
Qed.

Lemma trim_toLowerCase (s : string) :
  Str.trim (Str.toLowerCase s) = Str.toLowerCase (Str.trim s).
Proof.
  unfold Str.trim, Str.toLowerCase.
  rewrite !chars_ofChars. now rewrite trimChars_lowerChars.
Qed.

(** C8.  Normalisation of a raw query string is: lower-case and trim, then
    the regional-term table, then the misspelling table, each applied to
    the whole string in that order, replacing whole words only; the query
    "sasta" becomes "cheap" before it is split into terms. *)
Theorem normalize_refines_spec : forall q : string,
  normalize q = specNormalize q /\
  normalize "sasta" = "cheap"%string /\
  normalize "  Sasta Phone, acche covr " = "cheap phone, good cover"%string /\
  normalize "sastaphone" = "sastaphone"%string /\
  match newSearchQuery (withQuery "sasta" noParams) with
  | inr sq => query sq = "cheap"%string /\ getSearchTerms sq = ["cheap"%string]
  | inl _ => False
  end.
Proof.
  intro q. split; [| repeat split].
  unfold normalize, specNormalize, normalizeHinglishQuery,
    correctCommonMisspellings.
  now rewrite trim_toLowerCase.
Qed.

(** ** Facts about [JSMap] and [JSSet] *)

Section JSMapFacts.
Context {K V : Type} `{EqDec K}.
Implicit Types (m : JSMap.t K V) (k : K) (v : V).

Lemma eq_dec_refl {A : Type} (k : K) (a b : A) :
  (if eq_dec k k then a else b) = a.
Proof. destruct (eq_dec k k); [reflexivity | contradiction]. Qed.

Lemma eq_dec_neq {A : Type} (k k' : K) (a b : A) :
  k <> k' -> (if eq_dec k k' then a else b) = b.
Proof. intro N. destruct (eq_dec k k'); [contradiction | reflexivity]. Qed.

Lemma get_set_same m k v : JSMap.get k (JSMap.set k v m) = Some v.
Proof.
  induction m as [| [k' v'] m IH]; simpl.
  - now rewrite eq_dec_refl.
  - destruct (eq_dec k k') as [E | N]; simpl.
    + subst. now rewrite eq_dec_refl.
    + now rewrite eq_dec_neq.
Qed.

Lemma get_set_other m k k' v :
  k <> k' -> JSMap.get k' (JSMap.set k v m) = JSMap.get k' m.
Proof.
  intro N. induction m as [| [k0 v0] m IH]; simpl.
  - rewrite eq_dec_neq; [reflexivity | congruence].
  - destruct (eq_dec k k0) as [E | N0]; simpl.
    + subst. rewrite !eq_dec_neq; congruence.
    + destruct (eq_dec k' k0); [reflexivity | exact IH].
Qed.

Lemma get_delete_same m k : JSMap.get k (JSMap.delete k m) = None.
Proof.
  induction m as [| [k' v'] m IH]; simpl; [reflexivity |].
  destruct (eq_dec k k') as [E | N]; simpl; [exact IH |].
  now rewrite eq_dec_neq.
Qed.

Lemma get_delete_other m k k' :
  k <> k' -> JSMap.get k' (JSMap.delete k m) = JSMap.get k' m.
Proof.
  intro N. induction m as [| [k0 v0] m IH]; simpl; [reflexivity |].
  destruct (eq_dec k k0) as [E | N0]; simpl.
  - subst. rewrite eq_dec_neq; [exact IH | congruence].
  - destruct (eq_dec k' k0); [reflexivity | exact IH].
Qed.

Lemma get_None_keys m k : JSMap.get k m = None <-> ~ In k (JSMap.keys m).
Proof.
  induction m as [| [k' v'] m IH]; simpl; [tauto |].
  destruct (eq_dec k k') as [E | N].
  - subst. split; [discriminate | intro C; exfalso; apply C; now left].
  - rewrite IH. split; intro C.
    + intros [E | I]; [congruence | contradiction].
    + intro I. apply C. now right.
Qed.

Lemma get_Some_In m k v : JSMap.get k m = Some v -> In (k, v) m.
Proof.
  induction m as [| [k' v'] m IH]; simpl; [discriminate |].
  destruct (eq_dec k k') as [E | N].
  - intro E'. injection E' as ->. subst. now left.
  - intro G. right. now apply IH.
Qed.

Lemma delete_notin m k : ~ In k (JSMap.keys m) -> JSMap.delete k m = m.
Proof.
  induction m as [| [k' v'] m IH]; simpl; [reflexivity |].
  intro N. destruct (eq_dec k k') as [E | N'].
  - exfalso. apply N. left. now symmetry.
  - f_equal. apply IH. tauto.
Qed.

Lemma keys_delete_incl m k k' :
  In k' (JSMap.keys (JSMap.delete k m)) -> In k' (JSMap.keys m).
Proof.
  induction m as [| [k0 v0] m IH]; simpl; [tauto |].
  destruct (eq_dec k k0); simpl; intuition.
Qed.

Lemma keys_set m k v k' :
  In k' (JSMap.keys (JSMap.set k v m)) <-> k' = k \/ In k' (JSMap.keys m).
Proof.
  induction m as [| [k0 v0] m IH]; simpl.
  - intuition.
  - destruct (eq_dec k k0) as [E | N]; simpl.
    + subst. intuition.
    + rewrite IH. intuition.
Qed.

Lemma NoDup_keys_delete m k :
  NoDup (JSMap.keys m) -> NoDup (JSMap.keys (JSMap.delete k m)).
Proof.
  induction m as [| [k0 v0] m IH]; simpl; [trivial |].
  intro N. inversion N as [| ? ? Hn Hd]; subst.
  destruct (eq_dec k k0); simpl; [now apply IH |].
  constructor; [| now apply IH].
  intro I. apply Hn. eapply keys_delete_incl; eassumption.
Qed.

Lemma NoDup_keys_set m k v :
  NoDup (JSMap.keys m) -> NoDup (JSMap.keys (JSMap.set k v m)).
Proof.
  induction m as [| [k0 v0] m IH]; simpl.
  - intros _. constructor; [simpl; tauto | constructor].
  - intro N. inversion N as [| ? ? Hn Hd]; subst.
    destruct (eq_dec k k0) as [E | N0]; simpl.
    + constructor; assumption.
    + constructor; [| now apply IH].
      rewrite keys_set. intros [E | I]; [congruence | contradiction].
Qed.

Lemma length_delete_le m k : (List.length (JSMap.delete k m) <= List.length m)%nat.
Proof.
  induction m as [| [k0 v0] m IH]; simpl; [lia |].
  destruct (eq_dec k k0); simpl; lia.
Qed.

Lemma length_set_le m k v : (List.length (JSMap.set k v m) <= S (List.length m))%nat.
Proof.
  induction m as [| [k0 v0] m IH]; simpl; [lia |].
  destruct (eq_dec k k0); simpl; lia.
Qed.

Lemma length_set_fresh m k v :
  JSMap.get k m = None -> List.length (JSMap.set k v m) = S (List.length m).
Proof.
  induction m as [| [k0 v0] m IH]; simpl; [reflexivity |].
  destruct (eq_dec k k0); [discriminate |].
  intro G. simpl. now rewrite IH.
Qed.

Lemma set_fresh_app m k v :
  JSMap.get k m = None -> JSMap.set k v m = m ++ [(k, v)].
Proof.
  induction m as [| [k0 v0] m IH]; simpl; [reflexivity |].
  destruct (eq_dec k k0); [discriminate |].
  intro G. now rewrite IH.
Qed.

End JSMapFacts.

Section JSSetFacts.
Context {A : Type} `{EqDec A}.
Implicit Types (s : JSSet.t A) (x y : A).

Lemma has_In s x : JSSet.has x s = true <-> In x s.
Proof.
  induction s as [| y s IH]; simpl; [split; [discriminate | tauto] |].
  destruct (eq_dec x y) as [E | N].
  - subst. split; [now left | reflexivity].
  - rewrite IH. split; [now right | intros [E | I]; [congruence | exact I]].
Qed.

Lemma In_add s x y : In y (JSSet.add x s) <-> y = x \/ In y s.
Proof.
  unfold JSSet.add. destruct (JSSet.has x s) eqn:E.
  - apply has_In in E. split; [now right | intros [-> | I]; assumption].
  - rewrite in_app_iff. simpl. intuition.
Qed.

Lemma In_delete s x y : In y (JSSet.delete x s) <-> y <> x /\ In y s.
Proof.
  induction s as [| z s IH]; simpl; [tauto |].
  destruct (eq_dec x z) as [E | N]; simpl.
  - subst. rewrite IH. intuition congruence.
  - rewrite IH. intuition congruence.
Qed.

Lemma delete_notin_set s x : ~ In x s -> JSSet.delete x s = s.
Proof.
  induction s as [| z s IH]; simpl; [reflexivity |].
  intro N. destruct (eq_dec x z) as [E | N'].
  - exfalso. apply N. left. now symmetry.
  - f_equal. apply IH. tauto.
Qed.

End JSSetFacts.

(** ** Construction of a search query *)




(** ** Update of a product *)

Lemma newProduct_searchableText now genId data p :
  newProduct now genId data = inr p ->
  forall t, truthyStr (d_searchableText data) = Some t -> searchableText p = t.
Proof.
  unfold newProduct, bind.
  destruct (validateProduct _ _ _ _) as [e | []]; [discriminate |].
  intro E. injection E as <-. cbn [searchableText].
  intros t T. unfold strOr. now rewrite T.
Qed.

(** Whatever fields an update changes, a product that had a non-empty
    searchable text keeps exactly that text, unless the update supplies a
    text of its own. *)
Lemma update_carries_searchableText_over now genId id upd r old updated r' :
  JSMap.get id (products r) = Some old ->
  searchableText old <> EmptyString ->
  d_searchableText upd = None ->
  update now genId id upd r = (inr updated, r') ->
  searchableText updated = searchableText old.
Proof.
  intros G NE U. unfold update. rewrite G.
  destruct (newProduct _ _ _) as [e | p] eqn:E; intro R; inversion R; subst.
  eapply newProduct_searchableText; [eassumption |].
  cbn. rewrite U. cbn.
  destruct (searchableText old); [contradiction | reflexivity].
Qed.

Lemma indexAdd_has {K : Type} `{EqDec K} (k : K) (id : Z) (idx : Index K) :
  JSSet.has id (postings k (indexAdd k id idx)) = true.
Proof.
  unfold postings, indexAdd.
  destruct (JSMap.get k idx) as [s |]; rewrite get_set_same;
    apply has_In, In_add; now left.
Qed.

(** The derived buckets do follow an update: the updated product is
    indexed under the price range, rating bucket and stock status of its
    merged fields. *)
Lemma update_reindexes_buckets now genId id upd r updated r' :
  update now genId id upd r = (inr updated, r') ->
  JSSet.has (productId updated)
    (postings (getPriceRange updated) (priceRangeIndex r')) = true /\
  JSSet.has (productId updated)
    (postings (getRatingBucket updated) (ratingBucketIndex r')) = true /\
  JSSet.has (productId updated)
    (postings (getStockStatus updated) (stockStatusIndex r')) = true.
Proof.
  unfold update.
  destruct (JSMap.get id (products r)) as [old |]; [| intro E; inversion E].
  destruct (newProduct _ _ _) as [e | p]; intro E; inversion E; subst.
  cbn [updateIndexes priceRangeIndex ratingBucketIndex stockStatusIndex].
  repeat split; apply indexAdd_has.
Qed.

(** C3, the code at a failing input.  After [update(1, { title: "New
    Tablet" })] on the phone the stored product has the new title but its
    searchable text is still the one generated from the old title, not the
    text its merged fields generate; the token index follows the stale
    text. *)
Theorem update_leaves_searchableText_stale :
  match update 2000 0 1 titleUpdate phoneRepo with
  | (inr updated, repo') =>
      title updated = "New Tablet"%string /\
      searchableText updated = "old phone samsung mobile"%string /\
      generateSearchableText (Some (title updated)) (description updated)
        (brand updated) (model updated) (category updated) (subcategory updated)
        (tags updated) (metadata updated) = "new tablet samsung mobile"%string /\
      JSMap.get 1%Z (products repo') = Some updated /\
      JSMap.get "tablet"%string (searchIndex repo') = None /\
      JSMap.get "old"%string (searchIndex repo') = Some [1%Z]
  | (inl _, _) => False
  end.
Proof. vm_compute. repeat split. Qed.

(** ** Lists: sorting, slicing, filtering *)

Lemma In_insertSorted {A : Type} (cmp : A -> A -> JsNum) (x y : A) (l : list A) :
  In y (insertSorted cmp x l) <-> y = x \/ In y l.
Proof.
  induction l as [| z l IH]; simpl.
  - intuition.
  - destruct (isPositive (cmp x z)); simpl.
    + rewrite IH. intuition.
    + intuition.
Qed.

Lemma In_Array_sort {A : Type} (cmp : A -> A -> JsNum) (y : A) (l : list A) :
  In y (Array_sort cmp l) <-> In y l.
Proof.
  unfold Array_sort. induction l as [| x l IH]; simpl; [tauto |].
  rewrite In_insertSorted, IH. intuition.
Qed.

Lemma length_insertSorted {A : Type} (cmp : A -> A -> JsNum) (x : A) (l : list A) :
  List.length (insertSorted cmp x l) = S (List.length l).
Proof.
  induction l as [| z l IH]; simpl; [reflexivity |].
  destruct (isPositive (cmp x z)); simpl; [now rewrite IH | reflexivity].
Qed.

Lemma length_Array_sort {A : Type} (cmp : A -> A -> JsNum) (l : list A) :
  List.length (Array_sort cmp l) = List.length l.
Proof.
  unfold Array_sort. induction l as [| x l IH]; simpl; [reflexivity |].
  now rewrite length_insertSorted, IH.
Qed.

Lemma In_firstn_In {A : Type} (n : nat) (l : list A) (x : A) :
  In x (firstn n l) -> In x l.
Proof.
  revert l. induction n as [| n IH]; intros [| y l]; simpl; try tauto.
  intros [E | I]; [now left | right; now apply IH].
Qed.

Lemma In_skipn_In {A : Type} (n : nat) (l : list A) (x : A) :
  In x (skipn n l) -> In x l.
Proof.
  revert l. induction n as [| n IH]; intros [| y l]; simpl; try tauto.
  intro I. right. now apply IH.
Qed.

Lemma In_slice {A : Type} (a b : Z) (l : list A) (x : A) :
  In x (slice a b l) -> In x l.
Proof.
  unfold slice. intro I.
  eapply In_skipn_In, In_firstn_In. exact I.
Qed.

Lemma filterM_filter {A : Type} (f : A -> Result bool) (l l' : list A) :
  filterM f l = inr l' -> l' = filter (passes f) l.
Proof.
  revert l'. induction l as [| x l IH]; simpl; intros l' E.
  - now injection E as <-.
  - unfold bind in E. unfold passes at 1.
    destruct (f x) as [e | b]; [discriminate |].
    destruct (filterM f l) as [e | r]; [discriminate |].
    injection E as <-. rewrite (IH r eq_refl).
    destruct b; reflexivity.
Qed.

(** ** The search pipeline *)

Lemma performSearch_inv ln r sq el resp :
  performSearch ln r sq el = inr resp ->
  exists filtered,
    filterM (matchesFilters sq) (initialMatches r sq) = inr filtered /\
    data resp = map projectCandidate (pageCandidates ln r sq filtered) /\
    totalResults resp = Z.of_nat (List.length filtered).
Proof.
  unfold performSearch, bind.
  destruct (filterM _ _) as [e | filtered]; [discriminate |].
  intro E. injection E as <-. exists filtered. cbn [data totalResults].
  repeat split.
  rewrite length_Array_sort. unfold scoreAll. now rewrite length_map.
Qed.

Lemma scoreAll_plain ln r sq ps :
  Forall (fun c => hasToSearchResult c = false) (scoreAll ln r sq ps).
Proof.
  unfold scoreAll. apply Forall_forall. intros c I.
  apply in_map_iff in I. destruct I as [p [<- _]]. reflexivity.
Qed.

Lemma pageCandidates_In ln r sq filtered c :
  In c (pageCandidates ln r sq filtered) ->
  exists p, In p filtered /\ c = Plain p (calculateRelevanceScore ln r p sq).
Proof.
  unfold pageCandidates. intro I.
  apply In_slice, In_Array_sort in I. unfold scoreAll in I.
  apply in_map_iff in I. destruct I as [p [<- I]]. eauto.
Qed.

Lemma fallbackResult_noMediumStock p s : noMediumStock (fallbackResult p s).
Proof.
  unfold noMediumStock, fallbackResult. cbn [r_stockStatus r_stock].
  destruct (Qis0 (stock p)) eqn:E0.
  - apply Qis0_eq in E0. split; [discriminate | intro; exfalso; lra].
  - destruct (Qle_bool (stock p) 10) eqn:E1.
    + apply Qle_bool_iff in E1. split; [discriminate | intro; exfalso; lra].
    + split; [discriminate | reflexivity].
Qed.

Lemma projectCandidate_fallback c :
  hasToSearchResult c = false ->
  projectCandidate c
  = fallbackResult (fieldsOf c)
      (match relevanceScoreOf c with Some s => s | None => Fin 0 end).
Proof. unfold projectCandidate. now intros ->. Qed.

(** The page of a fresh response is built by the fallback literal only. *)
Lemma performSearch_fallback_only ln r sq el resp :
  performSearch ln r sq el = inr resp ->
  exists cs : list Candidate,
    Forall (fun c => hasToSearchResult c = false) cs /\
    data resp = map projectCandidate cs /\
    data resp
    = map (fun c => fallbackResult (fieldsOf c)
                      (match relevanceScoreOf c with Some s => s | None => Fin 0 end))
          cs /\
    Forall noMediumStock (data resp).
Proof.
  intro E.
  destruct (performSearch_inv _ _ _ _ _ E) as [filtered [_ [D _]]].
  exists (pageCandidates ln r sq filtered).
  assert (P : forall c, In c (pageCandidates ln r sq filtered) ->
                        hasToSearchResult c = false).
  { intros c I. apply pageCandidates_In in I. now destruct I as [p [_ ->]]. }
  assert (D' : data resp
               = map (fun c => fallbackResult (fieldsOf c)
                                 (match relevanceScoreOf c with
                                  | Some s => s
                                  | None => Fin 0
                                  end))
                     (pageCandidates ln r sq filtered)).
  { rewrite D. apply map_ext_in. intros c I.
    apply projectCandidate_fallback. now apply P. }
  repeat split.
  - apply Forall_forall. exact P.
  - exact D.
  - exact D'.
  - rewrite D'. apply Forall_forall. intros item I.
    apply in_map_iff in I. destruct I as [c [<- _]].
    apply fallbackResult_noMediumStock.
Qed.

(** C10.  Every candidate [performSearch] projects is the plain object
    [{...product, relevanceScore}], which has no [toSearchResult]; so every
    entry of the response is built by the fallback object literal, whose
    stock status is never MEDIUM_STOCK and is HIGH_STOCK whenever the stock
    exceeds 10. *)
Theorem performSearch_never_reports_medium_stock :
  forall (ln : Q -> Q) (r : Repo) (sq : SearchQuery) (el : Z) (resp : Response),
  performSearch ln r sq el = inr resp ->
  exists cs : list Candidate,
    Forall (fun c => hasToSearchResult c = false) cs /\
    data resp = map projectCandidate cs /\
    data resp
    = map (fun c => fallbackResult (fieldsOf c)
                      (match relevanceScoreOf c with Some s => s | None => Fin 0 end))
          cs /\
    Forall noMediumStock (data resp).
Proof.
  intros ln r sq el resp E. exact (performSearch_fallback_only _ _ _ _ _ E).
Qed.

(** An instance: the phone has a stock of 30, which [getStockStatus] calls
    MEDIUM_STOCK, and the response of a search reports HIGH_STOCK. *)
Lemma performSearch_never_reports_medium_stock_witness :
  exists resp : Response,
    performSearch lnUpper phoneRepo emptyQuery 5 = inr resp /\
    map r_stock (data resp) = [30%Q] /\
    map r_stockStatus (data resp) = [HIGH_STOCK] /\
    exists cs : list Candidate,
      Forall (fun c => hasToSearchResult c = false) cs /\
      data resp = map projectCandidate cs /\
      data resp
      = map (fun c => fallbackResult (fieldsOf c)
                        (match relevanceScoreOf c with Some s => s | None => Fin 0 end))
            cs /\
      Forall noMediumStock (data resp).
Proof.
  eexists. split; [vm_compute; reflexivity |].
  split; [reflexivity |]. split; [reflexivity |].
  apply (performSearch_never_reports_medium_stock lnUpper phoneRepo emptyQuery 5).
  vm_compute; reflexivity.
Defined.

(** *** Responses served from the cache *)

Section CacheValues.
Context {K V : Type} `{EqDec K}.

Lemma values_set_In (m : JSMap.t K V) k v x :
  In x (JSMap.values (JSMap.set k v m)) -> x = v \/ In x (JSMap.values m).
Proof.
  unfold JSMap.values.
  induction m as [| [k0 v0] m IH]; simpl.
  - intuition.
  - destruct (eq_dec k k0); simpl; intuition.
Qed.

Lemma values_delete_In (m : JSMap.t K V) k x :
  In x (JSMap.values (JSMap.delete k m)) -> In x (JSMap.values m).
Proof.
  unfold JSMap.values.
  induction m as [| [k0 v0] m IH]; simpl; [tauto |].
  destruct (eq_dec k k0); simpl; intuition.
Qed.

Lemma get_values_In (m : JSMap.t K V) k v :
  JSMap.get k m = Some v -> In v (JSMap.values m).
Proof.
  intro G. apply get_Some_In in G.
  unfold JSMap.values. apply in_map_iff. exists (k, v). auto.
Qed.

End CacheValues.

Lemma getFromCache_cacheHolds P now key s out s' :
  cacheHolds P s ->
  getFromCache now key s = (out, s') ->
  cacheHolds P s' /\
  cacheStats s' = cacheStats s /\
  match out with Some resp => P resp | None => True end.
Proof.
  unfold cacheHolds, getFromCache. intro C.
  destruct (JSMap.get key (searchCache s)) as [cached |] eqn:G.
  - destruct (now - ce_timestamp cached <? cacheTTL)%Z; intro E; inversion E; subst.
    + repeat split; [exact C |].
      rewrite Forall_forall in C. apply (C cached).
      eapply get_values_In; eassumption.
    + cbn. repeat split.
      apply Forall_forall. intros e I. rewrite Forall_forall in C.
      apply C. eapply values_delete_In; eassumption.
  - intro E; inversion E; subst. auto.
Qed.

Lemma addToCache_cacheHolds P now key resp s :
  cacheHolds P s -> P resp -> cacheHolds P (addToCache now key resp s).
Proof.
  unfold cacheHolds, addToCache. intros C Pr.
  rewrite Forall_forall in C. apply Forall_forall. intros e I.
  cbn in I. apply values_set_In in I. destruct I as [-> | I]; [exact Pr |].
  destruct (maxCacheSize <=? JSMap.size (searchCache s))%Z; cbn in I.
  - destruct (JSMap.firstKey (searchCache s)).
    + apply C. eapply values_delete_In; eassumption.
    + now apply C.
  - now apply C.
Qed.

(** A property every fresh response has is an invariant of the cache, and
    holds of every response [search] returns, cached or fresh. *)
Lemma search_cacheHolds (P : Response -> Prop) ln clk r params s out s' :
  (forall sq el resp, performSearch ln r sq el = inr resp -> P resp) ->
  cacheHolds P s ->
  search ln clk r params s = (out, s') ->
  cacheHolds P s' /\
  match out with inr resp => P resp | inl _ => True end.
Proof.
  intros Fresh C. unfold search.
  destruct (newSearchQuery params) as [e | sq].
  - intro E; inversion E; subst. auto.
  - destruct (getFromCache _ _ s) as [[cached |] s1] eqn:G;
      destruct (getFromCache_cacheHolds P _ _ _ _ _ C G) as [C1 [_ Pc]].
    + intro E; inversion E; subst. auto.
    + destruct (performSearch ln r sq (elapsed clk)) as [e | resp] eqn:PS;
        intro E; inversion E; subst.
      * auto.
      * split; [| eapply Fresh; eassumption].
        apply addToCache_cacheHolds; [exact C1 | eapply Fresh; eassumption].
Qed.

(** No response of [search], fresh or served from a cache filled by
    [search], reports MEDIUM_STOCK. *)
Corollary search_never_reports_medium_stock ln clk r params s resp s' :
  cacheHolds (fun resp => Forall noMediumStock (data resp)) s ->
  search ln clk r params s = (inr resp, s') ->
  Forall noMediumStock (data resp) /\
  cacheHolds (fun resp => Forall noMediumStock (data resp)) s'.
Proof.
  intros C E.
  assert (Fresh : forall sq el resp0,
             performSearch ln r sq el = inr resp0 ->
             Forall noMediumStock (data resp0)).
  { intros sq el resp0 PS.
    destruct (performSearch_fallback_only _ _ _ _ _ PS) as [cs [_ [_ [_ F]]]].
    exact F. }
  destruct (search_cacheHolds _ ln clk r params s _ _ Fresh C E) as [C' Pr].
  auto.
Qed.

(** *** Searches without a text query *)

Lemma slice_whole {A : Type} (n : Z) (l : list A) :
  (Z.of_nat (List.length l) <= n)%Z -> slice 0 (0 + n) l = l.
Proof.
  intro L. unfold slice.
  replace (0 <? 0)%Z with false by reflexivity.
  replace (0 + n <? 0)%Z with false by (symmetry; apply Z.ltb_ge; lia).
  replace (Z.min 0 (Z.of_nat (List.length l))) with 0%Z by lia.
  replace (Z.min (0 + n) (Z.of_nat (List.length l)))
    with (Z.of_nat (List.length l)) by lia.
  rewrite Z.sub_0_r, Nat2Z.id. cbn [Z.to_nat skipn].
  apply firstn_all.
Qed.

Lemma matchesFilters_withActive sq p b :
  matchesFilters sq (withActive b p) = matchesFilters sq p.
Proof. reflexivity. Qed.

Lemma filter_passes_In sq ps p :
  In p (filter (passes (matchesFilters sq)) ps) <->
  In p ps /\ matchesFilters sq p = inr true.
Proof.
  rewrite filter_In. unfold passes.
  destruct (matchesFilters sq p) as [e | []]; intuition congruence.
Qed.

Lemma performSearch_without_query ln r sq el resp :
  query sq = EmptyString ->
  performSearch ln r sq el = inr resp ->
  totalResults resp
  = Z.of_nat (List.length (filter (passes (matchesFilters sq))
                             (JSMap.values (products r)))) /\
  (forall item, In item (data resp) ->
     exists p, In p (JSMap.values (products r)) /\
               matchesFilters sq p = inr true /\
               item = fallbackResult p (calculateRelevanceScore ln r p sq)) /\
  (forall p, In p (JSMap.values (products r)) ->
     matchesFilters sq p = inr true ->
     offset sq = 0%Z -> (totalResults resp <= limit sq)%Z ->
     In (fallbackResult p (calculateRelevanceScore ln r p sq)) (data resp)).
Proof.
  intros Q E.
  destruct (performSearch_inv _ _ _ _ _ E) as [filtered [F [D T]]].
  unfold initialMatches in F. rewrite Q in F.
  apply filterM_filter in F. subst filtered.
  split; [exact T | split].
  - intros item I. rewrite D in I. apply in_map_iff in I.
    destruct I as [c [<- I]].
    apply pageCandidates_In in I. destruct I as [p [I ->]].
    apply filter_passes_In in I. destruct I as [I M].
    exists p. repeat split; assumption.
  - intros p I M O L. rewrite D. unfold pageCandidates. rewrite O.
    rewrite slice_whole.
    + apply in_map_iff.
      exists (Plain p (calculateRelevanceScore ln r p sq)). split; [reflexivity |].
      apply In_Array_sort. unfold scoreAll. apply in_map_iff.
      exists p. split; [reflexivity |]. apply filter_passes_In. auto.
    + rewrite length_Array_sort. unfold scoreAll. rewrite length_map. lia.
Qed.

(** C6 (as the code has it).  A search without a text query scores and
    returns every product of the primary map that passes the query's
    filters (category, brand, price, rating, stock): the total counts
    exactly those products, every entry of the page is the projection of
    one of them, a page that holds the whole result holds each of them, and
    the filters do not read [isActive]. *)
Theorem performSearch_without_query_ignores_isActive :
  forall (ln : Q -> Q) (r : Repo) (sq : SearchQuery) (el : Z) (resp : Response),
  query sq = EmptyString ->
  performSearch ln r sq el = inr resp ->
  totalResults resp
  = Z.of_nat (List.length (filter (passes (matchesFilters sq))
                             (JSMap.values (products r)))) /\
  (forall item, In item (data resp) ->
     exists p, In p (JSMap.values (products r)) /\
               matchesFilters sq p = inr true /\
               item = fallbackResult p (calculateRelevanceScore ln r p sq)) /\
  (forall p, In p (JSMap.values (products r)) ->
     matchesFilters sq p = inr true ->
     offset sq = 0%Z -> (totalResults resp <= limit sq)%Z ->
     In (fallbackResult p (calculateRelevanceScore ln r p sq)) (data resp)) /\
  (forall p b, matchesFilters sq (withActive b p) = matchesFilters sq p).
Proof.
  intros ln r sq el resp Q E.
  destruct (performSearch_without_query ln r sq el resp Q E) as [T [I A]].
  repeat split; try assumption.
Qed.

(** An instance: the search without parameters over the repository that
    holds the soft-deleted phone. *)
Lemma performSearch_without_query_ignores_isActive_witness :
  exists resp : Response,
    query emptyQuery = EmptyString /\
    performSearch lnUpper deletedPhoneRepo emptyQuery 5 = inr resp /\
    totalResults resp
    = Z.of_nat (List.length (filter (passes (matchesFilters emptyQuery))
                               (JSMap.values (products deletedPhoneRepo)))) /\
    (forall item, In item (data resp) ->
       exists p, In p (JSMap.values (products deletedPhoneRepo)) /\
                 matchesFilters emptyQuery p = inr true /\
                 item = fallbackResult p
                          (calculateRelevanceScore lnUpper deletedPhoneRepo p emptyQuery)) /\
    (forall p, In p (JSMap.values (products deletedPhoneRepo)) ->
       matchesFilters emptyQuery p = inr true ->
       offset emptyQuery = 0%Z -> (totalResults resp <= limit emptyQuery)%Z ->
       In (fallbackResult p (calculateRelevanceScore lnUpper deletedPhoneRepo p emptyQuery))
          (data resp)) /\
    (forall p b, matchesFilters emptyQuery (withActive b p) = matchesFilters emptyQuery p).
Proof.
  eexists. split; [reflexivity |]. split; [vm_compute; reflexivity |].
  apply (performSearch_without_query_ignores_isActive
           lnUpper deletedPhoneRepo emptyQuery 5);
    [reflexivity | vm_compute; reflexivity].
Defined.

(** C6, refuted as stated: after the soft delete of the only product, a
    search without a text query still returns it. *)
Lemma inactive_product_is_returned :
  option_map isActive (JSMap.get 1%Z (products deletedPhoneRepo)) = Some false /\
  match fst (search lnUpper sampleClock deletedPhoneRepo noParams newService) with
  | inr resp => map r_productId (data resp) = [1%Z] /\ totalResults resp = 1%Z
  | inl _ => False
  end.
Proof. vm_compute. repeat split. Qed.

(** ** The relevance score *)







Section LogRatio.
Variable ln : Q -> Q.
Hypothesis ln_pos : forall x : Q, (1 < x)%Q -> (0 < ln x)%Q.


End LogRatio.









(** *** The festive variant *)




















(** The product that breaks the bound in the non-seasonal variant is
    scored as a new product by the festive one, within the bound. *)
Lemma festive_score_of_negative_sales_in_unit :
  match JSMap.get 1%Z (products negativeSalesRepo) with
  | Some p =>
      Festive.isNewProduct firstOfNovember p = true /\
      Num.inUnit
        (Festive.calculateRelevanceScore lnUpper firstOfNovember sampleYear
           negativeSalesRepo p emptyQuery) = true
  | None => False
  end.
Proof. vm_compute. split; reflexivity. Qed.




(** ** The result cache: bound and eviction order *)

Section KeyOrder.
Context {K V : Type} `{EqDec K}.

Lemma has_get_None (m : JSMap.t K V) k : JSMap.has k m = false <-> JSMap.get k m = None.
Proof.
  unfold JSMap.has. destruct (JSMap.get k m); split; congruence.
Qed.

(** [set] never reorders: an existing key keeps its place, a new key goes
    to the end. *)
Lemma keys_set_order (m : JSMap.t K V) k v :
  JSMap.keys (JSMap.set k v m)
  = if JSMap.has k m then JSMap.keys m else JSMap.keys m ++ [k].
Proof.
  unfold JSMap.has.
  induction m as [| [k0 v0] m IH]; simpl; [reflexivity |].
  destruct (eq_dec k k0) as [E | N]; simpl; [now subst |].
  rewrite IH. now destruct (JSMap.get k m).
Qed.

Lemma delete_head (k : K) (v : V) (rest : JSMap.t K V) :
  NoDup (JSMap.keys ((k, v) :: rest)) -> JSMap.delete k ((k, v) :: rest) = rest.
Proof.
  intro N. simpl. rewrite eq_dec_refl.
  inversion N; subst. now apply delete_notin.
Qed.

End KeyOrder.

Lemma addToCache_get now key d s :
  JSMap.get key (searchCache (addToCache now key d s)) = Some (mkCacheEntry d now).
Proof. unfold addToCache. cbn [searchCache]. apply get_set_same. Qed.

Lemma addToCache_stats now key d s :
  hits (cacheStats (addToCache now key d s)) = hits (cacheStats s) /\
  misses (cacheStats (addToCache now key d s)) = misses (cacheStats s).
Proof.
  unfold addToCache.
  destruct (maxCacheSize <=? JSMap.size (searchCache s))%Z; split; reflexivity.
Qed.

Lemma addToCache_spec now key d s :
  cacheWf s ->
  cacheWf (addToCache now key d s) /\
  JSMap.get key (searchCache (addToCache now key d s)) = Some (mkCacheEntry d now) /\
  hits (cacheStats (addToCache now key d s)) = hits (cacheStats s) /\
  misses (cacheStats (addToCache now key d s)) = misses (cacheStats s) /\
  (if (JSMap.size (searchCache s) <? maxCacheSize)%Z
   then searchCache (addToCache now key d s)
        = JSMap.set key (mkCacheEntry d now) (searchCache s) /\
        evictions (cacheStats (addToCache now key d s)) = evictions (cacheStats s)
   else exists k0 e0 rest,
        searchCache s = (k0, e0) :: rest /\
        searchCache (addToCache now key d s)
        = JSMap.set key (mkCacheEntry d now) rest /\
        JSMap.keys (searchCache (addToCache now key d s))
        = (if JSMap.has key rest then JSMap.keys rest else JSMap.keys rest ++ [key]) /\
        evictions (cacheStats (addToCache now key d s))
        = (evictions (cacheStats s) + 1)%Z).
Proof.
  intros [N L]. unfold addToCache, cacheWf in *.
  unfold JSMap.size, maxCacheSize in *.
  destruct (1000 <=? Z.of_nat (List.length (searchCache s)))%Z eqn:Full.
  - apply Z.leb_le in Full.
    replace (Z.of_nat (List.length (searchCache s)) <? 1000)%Z with false
      by (symmetry; apply Z.ltb_ge; lia).
    destruct (searchCache s) as [| [k0 e0] rest] eqn:C; [cbn in Full; lia |].
    cbn [JSMap.firstKey searchCache cacheStats hits misses evictions].
    rewrite (delete_head k0 e0 rest N).
    assert (Nr : NoDup (JSMap.keys rest)) by (now inversion N).
    repeat split.
    + now apply NoDup_keys_set.
    + pose proof (length_set_le rest key (mkCacheEntry d now)).
      cbn [List.length] in L. lia.
    + apply get_set_same.
    + exists k0, e0, rest. repeat split. apply keys_set_order.
  - apply Z.leb_gt in Full.
    replace (Z.of_nat (List.length (searchCache s)) <? 1000)%Z with true
      by (symmetry; apply Z.ltb_lt; lia).
    cbn [searchCache cacheStats hits misses evictions].
    repeat split.
    + now apply NoDup_keys_set.
    + pose proof (length_set_le (searchCache s) key (mkCacheEntry d now)). lia.
    + apply get_set_same.
Qed.

Lemma getFromCache_cacheWf now key s out s' :
  cacheWf s -> getFromCache now key s = (out, s') -> cacheWf s'.
Proof.
  intros [N L]. unfold getFromCache.
  destruct (JSMap.get key (searchCache s)) as [cached |].
  - destruct (now - ce_timestamp cached <? cacheTTL)%Z; intro E; inversion E; subst.
    + now split.
    + split; cbn.
      * now apply NoDup_keys_delete.
      * unfold JSMap.size in *.
        pose proof (length_delete_le (searchCache s) key). lia.
  - intro E; inversion E; subst. now split.
Qed.

(** A hit does not touch the cache: reading an entry does not move it. *)
Lemma getFromCache_hit_unchanged now key s resp s' :
  getFromCache now key s = (Some resp, s') -> s' = s.
Proof.
  unfold getFromCache.
  destruct (JSMap.get key (searchCache s)) as [cached |].
  - destruct (now - ce_timestamp cached <? cacheTTL)%Z; intro E; inversion E.
    reflexivity.
  - intro E; inversion E.
Qed.

Lemma search_cacheWf ln clk r params s :
  cacheWf s -> cacheWf (snd (search ln clk r params s)).
Proof.
  intro W. unfold search.
  destruct (newSearchQuery params) as [e | sq]; [exact W |].
  destruct (getFromCache _ _ s) as [[cached |] s1] eqn:G;
    pose proof (getFromCache_cacheWf _ _ _ _ _ W G) as W1.
  - exact W1.
  - destruct (performSearch ln r sq (elapsed clk)) as [e | resp]; cbn [snd].
    + exact W1.
    + apply addToCache_spec. exact W1.
Qed.

(** The bound is an invariant of the service: whatever searches are made,
    the cache holds at most [maxCacheSize] entries under distinct keys. *)
Lemma runSearches_cacheWf ln calls s :
  cacheWf s -> cacheWf (runSearches ln calls s).
Proof.
  unfold runSearches. revert s.
  induction calls as [| c calls IH]; intros s W; simpl; [exact W |].
  apply IH. now apply search_cacheWf.
Qed.

Lemma newService_cacheWf : cacheWf newService.
Proof. split; [constructor | discriminate]. Qed.

(** C7.  A put into a cache of at most 1000 entries leaves at most 1000
    entries.  Below capacity nothing is evicted.  At capacity exactly one
    entry is evicted before the insertion: the first of the map, that is
    the entry whose key was inserted earliest; the others keep their
    order and the new key goes to the end (or keeps its place when it was
    present).  A hit of [getFromCache] leaves the map as it is, so the
    order is the order of insertion, not of access. *)
Theorem addToCache_bounded_fifo :
  forall (now : Z) (key : CacheKey) (d : Response) (s : Service),
  cacheWf s ->
  cacheWf (addToCache now key d s) /\
  (JSMap.size (searchCache (addToCache now key d s)) <= 1000)%Z /\
  JSMap.get key (searchCache (addToCache now key d s)) = Some (mkCacheEntry d now) /\
  (if (JSMap.size (searchCache s) <? maxCacheSize)%Z
   then searchCache (addToCache now key d s)
        = JSMap.set key (mkCacheEntry d now) (searchCache s) /\
        evictions (cacheStats (addToCache now key d s)) = evictions (cacheStats s)
   else exists k0 e0 rest,
        searchCache s = (k0, e0) :: rest /\
        searchCache (addToCache now key d s)
        = JSMap.set key (mkCacheEntry d now) rest /\
        JSMap.keys (searchCache (addToCache now key d s))
        = (if JSMap.has key rest then JSMap.keys rest else JSMap.keys rest ++ [key]) /\
        evictions (cacheStats (addToCache now key d s))
        = (evictions (cacheStats s) + 1)%Z) /\
  (forall now' key' resp s',
     getFromCache now' key' s = (Some resp, s') -> s' = s).
Proof.
  intros now key d s W.
  destruct (addToCache_spec now key d s W) as [W' [G [_ [_ B]]]].
  split; [exact W' |]. split; [apply W' |]. split; [exact G |].
  split; [exact B |].
  intros now' key' resp s'. apply getFromCache_hit_unchanged.
Qed.

(** An instance at capacity: after a thousand distinct searches the cache
    holds 1000 entries, the oldest under the key of offset 0; one more put
    evicts exactly that entry and the key of offset 1 becomes the first. *)
Lemma addToCache_bounded_fifo_witness :
  cacheWf fullService /\
  (JSMap.size (searchCache fullService) = 1000%Z /\
   JSMap.firstKey (searchCache fullService) = Some (offsetKey 0) /\
   JSMap.firstKey
     (searchCache (addToCache 5000 (offsetKey 5000) (emptyResponse 5000) fullService))
   = Some (offsetKey 1) /\
   JSMap.has (offsetKey 0)
     (searchCache (addToCache 5000 (offsetKey 5000) (emptyResponse 5000) fullService))
   = false) /\
  cacheWf (addToCache 5000 (offsetKey 5000) (emptyResponse 5000) fullService) /\
  (JSMap.size
     (searchCache (addToCache 5000 (offsetKey 5000) (emptyResponse 5000) fullService))
   <= 1000)%Z /\
  JSMap.get (offsetKey 5000)
    (searchCache (addToCache 5000 (offsetKey 5000) (emptyResponse 5000) fullService))
  = Some (mkCacheEntry (emptyResponse 5000) 5000) /\
  (if (JSMap.size (searchCache fullService) <? maxCacheSize)%Z
   then searchCache (addToCache 5000 (offsetKey 5000) (emptyResponse 5000) fullService)
        = JSMap.set (offsetKey 5000) (mkCacheEntry (emptyResponse 5000) 5000)
            (searchCache fullService) /\
        evictions (cacheStats
                     (addToCache 5000 (offsetKey 5000) (emptyResponse 5000) fullService))
        = evictions (cacheStats fullService)
   else exists k0 e0 rest,
        searchCache fullService = (k0, e0) :: rest /\
        searchCache (addToCache 5000 (offsetKey 5000) (emptyResponse 5000) fullService)
        = JSMap.set (offsetKey 5000) (mkCacheEntry (emptyResponse 5000) 5000) rest /\
        JSMap.keys
          (searchCache (addToCache 5000 (offsetKey 5000) (emptyResponse 5000) fullService))
        = (if JSMap.has (offsetKey 5000) rest then JSMap.keys rest
           else JSMap.keys rest ++ [offsetKey 5000]) /\
        evictions (cacheStats
                     (addToCache 5000 (offsetKey 5000) (emptyResponse 5000) fullService))
        = (evictions (cacheStats fullService) + 1)%Z) /\
  (forall now' key' resp s',
     getFromCache now' key' fullService = (Some resp, s') -> s' = fullService).
Proof.
  assert (W : cacheWf fullService)
    by (apply runSearches_cacheWf, newService_cacheWf).
  split; [exact W |].
  split; [vm_compute; repeat split |].
  exact (addToCache_bounded_fifo 5000 (offsetKey 5000) (emptyResponse 5000)
           fullService W).
Defined.

(** ** The result cache: repeated searches *)

Lemma getFromCache_spec now key s : getFromCacheSpec now key s.
Proof.
  unfold getFromCacheSpec, getFromCache, cacheTTL.
  destruct (JSMap.get key (searchCache s)) as [cached |] eqn:G.
  - destruct (now - ce_timestamp cached <? 300000)%Z eqn:T.
    + apply Z.ltb_lt in T. split; [| reflexivity].
      exists cached. auto.
    + apply Z.ltb_ge in T. cbn [searchCache cacheStats]. repeat split.
      * apply get_delete_same.
      * intros e E. injection E as <-. exact T.
      * intros k N. apply get_delete_other. congruence.
  - repeat split; [exact G | intros e E; discriminate].
Qed.

(** A successful search leaves its response in the cache under the key of
    its query: either it was served from an entry that is still there
    (a hit), or it was computed and stored at the time of the put (a
    miss). *)
Lemma search_caches_response ln clk r params s resp s1 :
  search ln clk r params s = (inr resp, s1) ->
  exists sq ts,
    newSearchQuery params = inr sq /\
    JSMap.get (generateCacheKey sq) (searchCache s1) = Some (mkCacheEntry resp ts) /\
    ((s1 = countHit s /\ (atGet clk - ts < 300000)%Z) \/
     (ts = atPut clk /\
      hits (cacheStats s1) = hits (cacheStats s) /\
      misses (cacheStats s1) = (misses (cacheStats s) + 1)%Z)).
Proof.
  unfold search.
  destruct (newSearchQuery params) as [e | sq]; [intro E; inversion E |].
  pose proof (getFromCache_spec (atGet clk) (generateCacheKey sq) s) as GS.
  unfold getFromCacheSpec in GS.
  destruct (getFromCache _ _ s) as [[cached |] s0].
  - destruct GS as [[e [G [D T]]] ->]. intro E. inversion E; subst.
    exists sq, (ce_timestamp e). split; [reflexivity |].
    cbn [searchCache]. rewrite G. split; [now destruct e |].
    left. split; [reflexivity | exact T].
  - destruct GS as [_ [_ [_ St]]].
    destruct (performSearch ln r sq (elapsed clk)) as [e | res];
      intro E; inversion E; subst.
    exists sq, (atPut clk). split; [reflexivity |].
    split; [apply addToCache_get |].
    right. split; [reflexivity |].
    destruct (addToCache_stats (atPut clk) (generateCacheKey sq) resp
                (mkService (searchCache s0)
                   (mkCacheStats (hits (cacheStats s0)) (misses (cacheStats s0) + 1)
                      (evictions (cacheStats s0))))) as [Hh Hm].
    rewrite Hh, Hm. cbn [cacheStats hits misses]. now rewrite St.
Qed.

Lemma search_hit ln clk r params s sq e :
  newSearchQuery params = inr sq ->
  JSMap.get (generateCacheKey sq) (searchCache s) = Some e ->
  (atGet clk - ce_timestamp e < 300000)%Z ->
  search ln clk r params s = (inr (ce_data e), countHit s).
Proof.
  intros Q G T. unfold search, getFromCache, cacheTTL. rewrite Q, G.
  apply Z.ltb_lt in T. now rewrite T.
Qed.

(** C2.  After a successful [search(Q)] the response sits in the cache
    with an insertion time [ts] (the time of the put when the call was a
    miss); every further [search(Q)] made while [now - ts < 300000]
    returns the very same response and changes nothing but the hit
    counter, which grows by exactly one.  [getFromCache] returns a stored
    value only when [now - insertedAt < 300000]; otherwise it reports a
    miss and the entry, if any, is deleted. *)
Theorem repeated_search_is_served_from_cache :
  forall (ln : Q -> Q) (clk1 : Clock) (r : Repo) (params : QueryParams)
         (s : Service) (resp : Response) (s1 : Service),
  search ln clk1 r params s = (inr resp, s1) ->
  (exists ts : Z,
     cachedAt params s1 = Some ts /\
     (misses (cacheStats s1) = (misses (cacheStats s) + 1)%Z -> ts = atPut clk1) /\
     forall clk2 : Clock,
       (atGet clk2 - ts < 300000)%Z ->
       search ln clk2 r params s1 = (inr resp, countHit s1) /\
       hits (cacheStats (countHit s1)) = (hits (cacheStats s1) + 1)%Z /\
       misses (cacheStats (countHit s1)) = misses (cacheStats s1) /\
       searchCache (countHit s1) = searchCache s1) /\
  (forall (now : Z) (key : CacheKey) (s0 : Service), getFromCacheSpec now key s0).
Proof.
  intros ln clk1 r params s resp s1 E.
  split; [| intros; apply getFromCache_spec].
  destruct (search_caches_response _ _ _ _ _ _ _ E) as [sq [ts [Q [G Case]]]].
  exists ts. unfold cachedAt. rewrite Q, G. split; [reflexivity |].
  split.
  - intro M. destruct Case as [[-> _] | [-> _]]; [| reflexivity].
    cbn in M. lia.
  - intros clk2 T. split; [| repeat split].
    apply (search_hit ln clk2 r params s1 sq (mkCacheEntry resp ts) Q G T).
Qed.

(** An instance: a search over the phone repository stored at time 10 and
    repeated at time 200000. *)
Lemma repeated_search_is_served_from_cache_witness :
  exists (resp : Response) (s1 : Service),
    search lnUpper sampleClock phoneRepo noParams newService = (inr resp, s1) /\
    map r_productId (data resp) = [1%Z] /\
    search lnUpper (mkClock 200000 7 200010) phoneRepo noParams s1
    = (inr resp, countHit s1) /\
    (exists ts : Z,
       cachedAt noParams s1 = Some ts /\
       (misses (cacheStats s1) = (misses (cacheStats newService) + 1)%Z ->
        ts = atPut sampleClock) /\
       forall clk2 : Clock,
         (atGet clk2 - ts < 300000)%Z ->
         search lnUpper clk2 phoneRepo noParams s1 = (inr resp, countHit s1) /\
         hits (cacheStats (countHit s1)) = (hits (cacheStats s1) + 1)%Z /\
         misses (cacheStats (countHit s1)) = misses (cacheStats s1) /\
         searchCache (countHit s1) = searchCache s1) /\
    (forall (now : Z) (key : CacheKey) (s0 : Service), getFromCacheSpec now key s0).
Proof.
  eexists. eexists.
  split; [vm_compute; reflexivity |].
  split; [reflexivity |].
  split; [vm_compute; reflexivity |].
  apply (repeated_search_is_served_from_cache lnUpper sampleClock phoneRepo
           noParams newService).
  vm_compute; reflexivity.
Defined.

(** ** Index symmetry *)

Section IndexFacts.
Context {K : Type} `{EqDec K}.
Variable id : Z.
Implicit Types (idx : Index K) (k : K).

Lemma get_indexAdd_other idx k k' :
  k <> k' -> JSMap.get k' (indexAdd k id idx) = JSMap.get k' idx.
Proof.
  intro N. unfold indexAdd.
  destruct (JSMap.get k idx); now apply get_set_other.
Qed.

Lemma get_indexRemove_other idx k k' :
  k <> k' -> JSMap.get k' (indexRemove k id idx) = JSMap.get k' idx.
Proof.
  intro N. unfold indexRemove.
  destruct (JSMap.get k idx) as [s |]; [| reflexivity].
  destruct (JSSet.size (JSSet.delete id s) =? 0)%Z.
  - now apply get_delete_other.
  - now apply get_set_other.
Qed.

(** After the removal under [k], the bucket of [k] is gone or is a
    non-empty subset of the old one without [id]. *)
Lemma get_indexRemove_same idx k s :
  JSMap.get k (indexRemove k id idx) = Some s ->
  ~ In id s /\ s <> [] /\
  exists s0, JSMap.get k idx = Some s0 /\ s = JSSet.delete id s0.
Proof.
  unfold indexRemove.
  destruct (JSMap.get k idx) as [s0 |] eqn:G; [| congruence].
  destruct (JSSet.size (JSSet.delete id s0) =? 0)%Z eqn:Z.
  - rewrite get_delete_same. discriminate.
  - rewrite get_set_same. intro E. injection E as <-.
    split; [| split].
    + rewrite In_delete. tauto.
    + intro E. rewrite E in Z. discriminate.
    + exists s0. auto.
Qed.

Lemma fold_indexAdd_other (ks : list K) idx k' :
  ~ In k' ks ->
  JSMap.get k' (fold_left (fun acc k => indexAdd k id acc) ks idx) = JSMap.get k' idx.
Proof.
  revert idx. induction ks as [| k ks IH]; intros idx N; simpl; [reflexivity |].
  rewrite IH by (simpl in N; tauto).
  apply get_indexAdd_other. simpl in N. tauto.
Qed.

Lemma fold_indexRemove_other (ks : list K) idx k' :
  ~ In k' ks ->
  JSMap.get k' (fold_left (fun acc k => indexRemove k id acc) ks idx) = JSMap.get k' idx.
Proof.
  revert idx. induction ks as [| k ks IH]; intros idx N; simpl; [reflexivity |].
  rewrite IH by (simpl in N; tauto).
  apply get_indexRemove_other. simpl in N. tauto.
Qed.

Lemma fold_indexRemove_same (ks : list K) idx k s :
  In k ks ->
  JSMap.get k (fold_left (fun acc k => indexRemove k id acc) ks idx) = Some s ->
  ~ In id s /\ s <> [].
Proof.
  revert idx. induction ks as [| k0 ks IH]; intros idx I G; simpl in *; [tauto |].
  destruct (in_dec eq_dec k ks) as [I' | N].
  - eapply IH; eassumption.
  - destruct I as [-> | I]; [| contradiction].
    rewrite fold_indexRemove_other in G by exact N.
    apply get_indexRemove_same in G. tauto.
Qed.

(** Adding a product's id under its keys and removing it under the same
    keys leaves no bucket holding the id and no empty bucket under those
    keys, provided the id was in no bucket before. *)
Lemma index_add_remove_clean (ks : list K) idx :
  idFree id idx ->
  idFree id
    (fold_left (fun acc k => indexRemove k id acc) ks
       (fold_left (fun acc k => indexAdd k id acc) ks idx)) /\
  noEmptyBucketAt ks
    (fold_left (fun acc k => indexRemove k id acc) ks
       (fold_left (fun acc k => indexAdd k id acc) ks idx)).
Proof.
  intro F. split.
  - intros k s G.
    destruct (in_dec eq_dec k ks) as [I | N].
    + eapply fold_indexRemove_same; eassumption.
    + rewrite fold_indexRemove_other, fold_indexAdd_other in G by exact N.
      eapply F; eassumption.
  - intros k I G.
    destruct (fold_indexRemove_same _ _ _ _ I G) as [_ E]. now apply E.
Qed.

End IndexFacts.

Lemma addToCategoryIndex_fold p idx :
  addToCategoryIndex p idx
  = fold_left (fun acc k => indexAdd k (productId p) acc) (categoryKeys p) idx.
Proof. unfold addToCategoryIndex, categoryKeys. now destruct (truthyStr (category p)). Qed.

Lemma removeFromCategoryIndex_fold p idx :
  removeFromCategoryIndex p idx
  = fold_left (fun acc k => indexRemove k (productId p) acc) (categoryKeys p) idx.
Proof.
  unfold removeFromCategoryIndex, categoryKeys. now destruct (truthyStr (category p)).
Qed.

Lemma addToBrandIndex_fold p idx :
  addToBrandIndex p idx
  = fold_left (fun acc k => indexAdd k (productId p) acc) (brandKeys p) idx.
Proof. unfold addToBrandIndex, brandKeys. now destruct (truthyStr (brand p)). Qed.

Lemma removeFromBrandIndex_fold p idx :
  removeFromBrandIndex p idx
  = fold_left (fun acc k => indexRemove k (productId p) acc) (brandKeys p) idx.
Proof. unfold removeFromBrandIndex, brandKeys. now destruct (truthyStr (brand p)). Qed.

(** Index symmetry for one product: indexing it and removing it again
    leaves no trace of its id and no empty bucket under its keys. *)
Lemma removeFromIndexes_updateIndexes p r :
  repoIdFree (productId p) r ->
  repoIdFree (productId p) (removeFromIndexes p (updateIndexes p r)) /\
  noOrphanedKeys p (removeFromIndexes p (updateIndexes p r)).
Proof.
  intros [F1 [F2 [F3 [F4 [F5 F6]]]]].
  unfold repoIdFree, noOrphanedKeys, removeFromIndexes, updateIndexes.
  cbn [searchIndex categoryIndex brandIndex priceRangeIndex ratingBucketIndex
       stockStatusIndex].
  rewrite addToCategoryIndex_fold, removeFromCategoryIndex_fold,
    addToBrandIndex_fold, removeFromBrandIndex_fold.
  pose proof (index_add_remove_clean (productId p) (searchKeys p) _ F1) as [A1 B1].
  pose proof (index_add_remove_clean (productId p) (categoryKeys p) _ F2) as [A2 B2].
  pose proof (index_add_remove_clean (productId p) (brandKeys p) _ F3) as [A3 B3].
  pose proof (index_add_remove_clean (productId p) [getPriceRange p] _ F4) as [A4 B4].
  pose proof (index_add_remove_clean (productId p) [getRatingBucket p] _ F5) as [A5 B5].
  pose proof (index_add_remove_clean (productId p) [getStockStatus p] _ F6) as [A6 B6].
  repeat split; assumption.
Qed.

Lemma repoIdFree_setProducts id ps r : repoIdFree id (setProducts ps r) <-> repoIdFree id r.
Proof. reflexivity. Qed.

Lemma repoIdFree_setNextId id n r : repoIdFree id (setNextId n r) <-> repoIdFree id r.
Proof. reflexivity. Qed.

Lemma removeFromIndexes_updateIndexes_indexes p r r0 :
  searchIndex r0 = searchIndex r -> categoryIndex r0 = categoryIndex r ->
  brandIndex r0 = brandIndex r -> priceRangeIndex r0 = priceRangeIndex r ->
  ratingBucketIndex r0 = ratingBucketIndex r ->
  stockStatusIndex r0 = stockStatusIndex r ->
  repoIdFree (productId p) r ->
  repoIdFree (productId p) (removeFromIndexes p (updateIndexes p r0)) /\
  noOrphanedKeys p (removeFromIndexes p (updateIndexes p r0)).
Proof.
  intros E1 E2 E3 E4 E5 E6 F.
  destruct (removeFromIndexes_updateIndexes p r F) as [A B].
  unfold repoIdFree, noOrphanedKeys, removeFromIndexes, updateIndexes in *.
  cbn [searchIndex categoryIndex brandIndex priceRangeIndex ratingBucketIndex
       stockStatusIndex] in *.
  rewrite E1, E2, E3, E4, E5, E6. split; assumption.
Qed.

Lemma add_inv now genId data r id r1 :
  add now genId data r = (inr id, r1) ->
  exists p r0,
    productId p = id /\
    r1 = updateIndexes p r0 /\
    JSMap.get id (products r1) = Some p /\
    searchIndex r0 = searchIndex r /\ categoryIndex r0 = categoryIndex r /\
    brandIndex r0 = brandIndex r /\ priceRangeIndex r0 = priceRangeIndex r /\
    ratingBucketIndex r0 = ratingBucketIndex r /\
    stockStatusIndex r0 = stockStatusIndex r.
Proof.
  unfold add.
  set (c := match d_productId data with
            | Some i => if (i =? 0)%Z then (nextId r, setNextId (nextId r + 1) r)
                        else (i, r)
            | None => (nextId r, setNextId (nextId r + 1) r)
            end).
  assert (C : forall X : Repo -> Type,
             X r -> X (setNextId (nextId r + 1) r) -> X (snd c)).
  { intros X X1 X2. unfold c. destruct (d_productId data) as [i |]; [| exact X2].
    destruct (i =? 0)%Z; assumption. }
  destruct c as [i rb]. cbn [snd] in C.
  destruct (newProduct now genId (withProductId i data)) as [e | p];
    intro E; inversion E; subst.
  exists p, (setProducts (JSMap.set (productId p) p (products rb)) rb).
  split; [reflexivity |]. split; [reflexivity |].
  split; [cbn; apply get_set_same |].
  cbn [setProducts searchIndex categoryIndex brandIndex priceRangeIndex
       ratingBucketIndex stockStatusIndex].
  apply (C (fun rb =>
              (searchIndex rb = searchIndex r /\ categoryIndex rb = categoryIndex r /\
               brandIndex rb = brandIndex r /\ priceRangeIndex rb = priceRangeIndex r /\
               ratingBucketIndex rb = ratingBucketIndex r /\
               stockStatusIndex rb = stockStatusIndex r)%type));
    repeat split.
Qed.


Lemma emptyRepo_idFree id : repoIdFree id emptyRepo.
Proof. repeat split; intros k s G; discriminate. Qed.


(** *** Ids issued by the repository are fresh *)

Section BucketsBelow.
Context {K : Type} `{EqDec K}.

Lemma indexAdd_below (n id : Z) (k : K) (idx : Index K) :
  (id < n)%Z -> bucketsBelow n idx -> bucketsBelow n (indexAdd k id idx).
Proof.
  intros L B k' s G i I.
  destruct (eq_dec k k') as [<- | N].
  - unfold indexAdd in G.
    destruct (JSMap.get k idx) as [s0 |] eqn:G0;
      rewrite get_set_same in G; injection G as <-;
      apply In_add in I; destruct I as [-> | I]; try exact L.
    + eapply B; eassumption.
    + contradiction.
  - rewrite get_indexAdd_other in G by exact N. eapply B; eassumption.
Qed.

Lemma fold_indexAdd_below (n id : Z) (ks : list K) (idx : Index K) :
  (id < n)%Z -> bucketsBelow n idx ->
  bucketsBelow n (fold_left (fun acc k => indexAdd k id acc) ks idx).
Proof.
  intro L. revert idx. induction ks as [| k ks IH]; intros idx B; simpl; [exact B |].
  apply IH. now apply indexAdd_below.
Qed.

Lemma bucketsBelow_mono (n m : Z) (idx : Index K) :
  (n <= m)%Z -> bucketsBelow n idx -> bucketsBelow m idx.
Proof. intros L B k s G i I. specialize (B k s G i I). lia. Qed.

Lemma bucketsBelow_idFree (n : Z) (idx : Index K) :
  bucketsBelow n idx -> idFree n idx.
Proof. intros B k s G I. specialize (B k s G n I). lia. Qed.

End BucketsBelow.

Lemma idsIssued_fresh r : idsIssued r -> repoIdFree (nextId r) r.
Proof.
  intros [_ [B1 [B2 [B3 [B4 [B5 B6]]]]]].
  repeat split; now apply bucketsBelow_idFree.
Qed.

Lemma newProduct_productId now genId id data p :
  id <> 0%Z -> newProduct now genId (withProductId id data) = inr p -> productId p = id.
Proof.
  intro N. unfold newProduct, bind.
  destruct (validateProduct _ _ _ _) as [e | []]; [discriminate |].
  intro E. injection E as <-. cbn.
  destruct (id =? 0)%Z eqn:Z; [apply Z.eqb_eq in Z; contradiction | reflexivity].
Qed.

(** Adding a product without an id takes the id from the counter and keeps
    every indexed id below the counter. *)
Lemma add_idsIssued now genId data r :
  noIdSupplied data -> idsIssued r ->
  idsIssued (snd (add now genId data r)) /\
  match fst (add now genId data r) with
  | inr id => id = nextId r
  | inl _ => True
  end.
Proof.
  unfold noIdSupplied. intros D [P [B1 [B2 [B3 [B4 [B5 B6]]]]]].
  unfold add. rewrite D.
  destruct (newProduct now genId (withProductId (nextId r) data)) as [e | p] eqn:E;
    cbn [fst snd].
  - split; [| exact I].
    unfold idsIssued. cbn.
    repeat split; try lia; eapply bucketsBelow_mono; try eassumption; lia.
  - apply newProduct_productId in E; [| lia].
    split; [| exact E].
    unfold idsIssued, updateIndexes. cbn.
    rewrite addToCategoryIndex_fold, addToBrandIndex_fold.
    unfold addToSearchIndex, addToPriceRangeIndex, addToRatingBucketIndex,
      addToStockStatusIndex.
    rewrite E.
    repeat split; try lia;
      try (apply fold_indexAdd_below; [lia |]);
      try (apply indexAdd_below; [lia |]);
      eapply bucketsBelow_mono; try eassumption; lia.
Qed.

Lemma bulkLoad_idsIssued now genId ps r :
  Forall noIdSupplied ps -> idsIssued r -> idsIssued (snd (bulkLoad now genId ps r)).
Proof.
  revert r. induction ps as [| d ps IH]; intros r F W; simpl; [exact W |].
  inversion F as [| ? ? Fd Fps]; subst.
  destruct (add_idsIssued now genId d r Fd W) as [W1 _].
  destruct (add now genId d r) as [outcome r1]. cbn [snd] in W1.
  specialize (IH r1 Fps W1).
  destruct (bulkLoad now genId ps r1) as [[ok err] r2]. exact IH.
Qed.

Lemma emptyRepo_idsIssued : idsIssued emptyRepo.
Proof. unfold idsIssued. cbn. repeat split; try lia; intros k s G; discriminate. Qed.

(** Index symmetry in a repository that issued all its ids itself: after
    any bulk load of products without ids, a further product added without
    an id and then removed from the indexes leaves no trace. *)
Corollary issued_id_add_then_remove_leaves_no_trace now genId ps data id r1 :
  Forall noIdSupplied ps -> noIdSupplied data ->
  add now genId data (snd (bulkLoad now genId ps emptyRepo)) = (inr id, r1) ->
  exists p : Product,
    JSMap.get id (products r1) = Some p /\
    productId p = id /\
    repoIdFree id (removeFromIndexes p r1) /\
    noOrphanedKeys p (removeFromIndexes p r1).
Proof.
  intros Fps Fd A.
  set (r := snd (bulkLoad now genId ps emptyRepo)) in *.
  assert (W : idsIssued r) by (apply bulkLoad_idsIssued; [exact Fps | apply emptyRepo_idsIssued]).
  destruct (add_idsIssued now genId data r Fd W) as [_ Id].
  rewrite A in Id. cbn in Id. subst id.
  destruct (add_inv _ _ _ _ _ _ A)
    as [p [r0 [Pid [-> [G [E1 [E2 [E3 [E4 [E5 E6]]]]]]]]]].
  exists p. split; [exact G |]. split; [exact Pid |].
  rewrite <- Pid.
  apply (removeFromIndexes_updateIndexes_indexes p r r0); try assumption.
  rewrite Pid. now apply idsIssued_fresh.
Qed.

(* ================================================================== *)
(** * Further properties of the code *)

(** ** Products *)

Lemma truthyStr_Some (x : option string) (t : string) :
  truthyStr x = Some t -> x = Some t /\ t <> EmptyString.
Proof.
  destruct x as [[| c s] |]; cbn; intro E; try discriminate.
  injection E as <-. split; [reflexivity | discriminate].
Qed.

Lemma len_zero (s : string) : (Str.len s =? 0)%Z = true <-> s = EmptyString.
Proof.
  unfold Str.len. destruct s as [| c s].
  - split; reflexivity.
  - split; [| discriminate]. intro E. apply Z.eqb_eq in E. cbn in E. lia.
Qed.

Lemma validateProduct_ok (t : option string) (pr : option Q) (rt st : Q) :
  validateProduct t pr rt st = inr tt <->
  exists t' p,
    t = Some t' /\ t' <> EmptyString /\ Str.trim t' <> EmptyString /\
    pr = Some p /\ (0 < p)%Q /\ (0 <= rt)%Q /\ (rt <= 5)%Q /\ (0 <= st)%Q.
Proof.
  unfold validateProduct. split.
  - destruct (truthyStr t) as [t' |] eqn:T; [| discriminate].
    apply truthyStr_Some in T. destruct T as [-> N].
    destruct (Str.len (Str.trim t') =? 0)%Z eqn:L; [discriminate |].
    destruct pr as [p |]; [| discriminate].
    destruct (Qis0 p || Qle_bool p 0)%bool eqn:P; [discriminate |].
    destruct (Qltb rt 0 || Qgtb rt 5)%bool eqn:R; [discriminate |].
    destruct (Qltb st 0) eqn:S; [discriminate |].
    intros _. exists t', p.
    apply orb_false_iff in P. destruct P as [_ P]. apply Qle_bool_gt in P.
    apply orb_false_iff in R. destruct R as [R1 R2].
    apply Qltb_ge in R1. unfold Qgtb in R2. apply Qltb_ge in R2. apply Qltb_ge in S.
    repeat split; try assumption.
    intro E. apply len_zero in E. congruence.
  - intros [t' [p [-> [N [Tr [-> [P [R1 [R2 S]]]]]]]]].
    destruct t' as [| c s]; [contradiction |]. cbn [truthyStr].
    destruct (Str.len (Str.trim (String c s)) =? 0)%Z eqn:L;
      [apply len_zero in L; contradiction |].
    replace (Qis0 p || Qle_bool p 0)%bool with false.
    2:{ symmetry. apply orb_false_iff. split; [apply Qis0_neq; lra | apply Qle_bool_gt; lra]. }
    replace (Qltb rt 0 || Qgtb rt 5)%bool with false.
    2:{ symmetry. apply orb_false_iff. split; [| unfold Qgtb]; apply Qltb_ge; lra. }
    replace (Qltb st 0) with false by (symmetry; apply Qltb_ge; lra).
    reflexivity.
Qed.

Lemma validateProduct_errors t pr rt st e :
  validateProduct t pr rt st = inl e ->
  e = TitleRequired \/ e = PriceNotPositive \/ e = ProductRatingOutOfRange
  \/ e = StockNegative.
Proof.
  unfold validateProduct.
  destruct (truthyStr t); [| intro E; inversion E; auto].
  destruct (Str.len _ =? 0)%Z; [intro E; inversion E; auto |].
  destruct pr; [| intro E; inversion E; auto].
  destruct (Qis0 q || Qle_bool q 0)%bool; [intro E; inversion E; auto |].
  destruct (Qltb rt 0 || Qgtb rt 5)%bool; [intro E; inversion E; auto |].
  destruct (Qltb st 0); intro E; inversion E; auto.
Qed.

Lemma strOr_truthy (x : option string) (t d : string) :
  x = Some t -> t <> EmptyString -> strOr x d = t.
Proof. intros -> N. destruct t; [contradiction | reflexivity]. Qed.

Lemma newProduct_inv now genId data p :
  newProduct now genId data = inr p ->
  validateProduct (d_title data) (d_price data) (orElse (d_rating data) 0)
    (orElse (d_stock data) 0) = inr tt /\
  d_title data = Some (title p) /\ d_price data = Some (price p) /\
  rating p = orElse (d_rating data) 0 /\ stock p = orElse (d_stock data) 0.
Proof.
  unfold newProduct, bind.
  destruct (validateProduct _ _ _ _) as [e | []] eqn:V; [discriminate |].
  intro E. injection E as <-. cbn.
  pose proof V as V'. apply validateProduct_ok in V'.
  destruct V' as [t' [p' [T [N [_ [P _]]]]]].
  rewrite T, P. rewrite (strOr_truthy (Some t') t' "" eq_refl N).
  repeat split.
Qed.

Lemma newProduct_valid now genId data p :
  newProduct now genId data = inr p ->
  validFields p /\ Product_validate p = inr tt.
Proof.
  intro E. destruct (newProduct_inv _ _ _ _ E) as [V [T [P [R S]]]].
  assert (V' : Product_validate p = inr tt).
  { unfold Product_validate. now rewrite <- T, <- P, R, S. }
  split; [| exact V'].
  apply validateProduct_ok in V'.
  destruct V' as [t' [p' [T' [_ [Tr [P' [Pp [R1 [R2 St]]]]]]]]].
  injection T' as <-. injection P' as <-.
  unfold validFields. auto.
Qed.

(** The constructor accepts exactly the data that pass the four checks of
    [validate()]: every product it returns has a non-blank title, a
    positive price, a rating between 0 and 5 and a non-negative stock, and
    a rejection is one of the four validation errors. *)
Theorem newProduct_establishes_validity :
  forall (now genId : Z) (data : ProductData),
  match newProduct now genId data with
  | inr p => validFields p /\ Product_validate p = inr tt
  | inl e =>
      e = TitleRequired \/ e = PriceNotPositive \/ e = ProductRatingOutOfRange
      \/ e = StockNegative
  end.
Proof.
  intros now genId data.
  destruct (newProduct now genId data) as [e | p] eqn:E.
  - unfold newProduct, bind in E.
    destruct (validateProduct _ _ _ _) as [e' | []] eqn:V; [| discriminate].
    injection E as <-. eapply validateProduct_errors; eassumption.
  - eapply newProduct_valid; eassumption.
Qed.

Lemma orElse_idem (x : option Q) : orElse (Some (orElse x 0)) 0 = orElse x 0.
Proof.
  unfold orElse. destruct x as [q |]; [| reflexivity].
  destruct (Qis0 q) eqn:E; [reflexivity | now rewrite E].
Qed.

Lemma strOr_idem (x : option string) (d : string) :
  d <> EmptyString -> strOr (Some (strOr x d)) d = strOr x d.
Proof.
  intro N. unfold strOr at 1. cbn [truthyStr].
  destruct (strOr x d) eqn:E; [| reflexivity].
  unfold strOr in E. destruct (truthyStr x) as [s |] eqn:T.
  - apply truthyStr_Some in T. destruct T as [_ T]. congruence.
  - congruence.
Qed.

Lemma toLowerCase_empty (s : string) :
  Str.toLowerCase s = EmptyString -> s = EmptyString.
Proof. destruct s; [reflexivity | discriminate]. Qed.

Lemma join_head_nonempty (sep x : string) (r : list string) :
  x <> EmptyString -> Str.join sep (x :: r) <> EmptyString.
Proof.
  intro N. destruct x as [| c x]; [contradiction |].
  destruct r; cbn; discriminate.
Qed.

Lemma generateSearchableText_nonempty t d b m c s tags md :
  t <> EmptyString ->
  generateSearchableText (Some t) d b m c s tags md <> EmptyString.
Proof.
  intros N E. unfold generateSearchableText in E.
  apply toLowerCase_empty in E. revert E.
  destruct t as [| a t]; [contradiction |].
  cbn [app filterBoolean flat_map truthyStr].
  apply join_head_nonempty. discriminate.
Qed.

(** [toJSON()] followed by [fromJSON] gives the product back: every field
    survives, whatever the clock and the id generator say at decoding
    time.  The id generator never returns 0 (it parses a decimal numeral
    that starts with the clock reading). *)
Theorem fromJSON_toJSON_round_trip :
  forall (now genId : Z) (data : ProductData) (p : Product) (now' genId' : Z),
  newProduct now genId data = inr p ->
  genId <> 0 ->
  Product_fromJSON now' genId' (Product_toJSON p) = inr p.
Proof.
  intros now genId data p now' genId' E G.
  destruct (newProduct_valid _ _ _ _ E) as [_ V].
  pose proof V as V'. apply validateProduct_ok in V'.
  destruct V' as [t' [p' [T' [N _]]]]. injection T' as <-.
  assert (I : productId p <> 0).
  { unfold newProduct, bind in E.
    destruct (validateProduct _ _ _ _) as [e | []]; [discriminate |].
    injection E as <-. cbn.
    destruct (d_productId data) as [i |]; [| exact G].
    destruct (i =? 0) eqn:Z0; [exact G | now apply Z.eqb_neq]. }
  assert (S : searchableText p <> EmptyString).
  { unfold newProduct, bind in E.
    destruct (validateProduct _ _ _ _) as [e | []] eqn:VV; [discriminate |].
    apply validateProduct_ok in VV.
    destruct VV as [t0 [p0 [T0 [N0 _]]]].
    injection E as <-. cbn [searchableText]. unfold strOr.
    destruct (truthyStr (d_searchableText data)) as [s |] eqn:TS.
    - apply truthyStr_Some in TS. tauto.
    - rewrite T0. apply generateSearchableText_nonempty. exact N0. }
  assert (C : currency p = strOr (Some (currency p)) "INR").
  { unfold newProduct, bind in E.
    destruct (validateProduct _ _ _ _) as [e | []]; [discriminate |].
    injection E as <-. cbn [currency]. symmetry. apply strOr_idem. discriminate. }
  assert (R : orElse (Some (rating p)) 0 = rating p
              /\ orElse (Some (ratingCount p)) 0 = ratingCount p
              /\ orElse (Some (stock p)) 0 = stock p).
  { unfold newProduct, bind in E.
    destruct (validateProduct _ _ _ _) as [e | []]; [discriminate |].
    injection E as <-. cbn [rating ratingCount stock].
    repeat split; apply orElse_idem. }
  destruct R as [R1 [R2 R3]].
  unfold Product_fromJSON, newProduct.
  cbn [Product_toJSON d_productId d_title d_description d_category d_subcategory
       d_brand d_model d_price d_mrp d_currency d_rating d_ratingCount d_stock
       d_isActive d_imageUrls d_metadata d_analytics d_searchableText d_tags
       d_createdAt d_updatedAt].
  rewrite R1, R2, R3. unfold Product_validate in V. rewrite V. cbn [bind].
  rewrite <- C.
  rewrite (strOr_truthy (Some (title p)) (title p) "" eq_refl N).
  rewrite (strOr_truthy (Some (searchableText p)) (searchableText p) _ eq_refl S).
  apply Z.eqb_neq in I. rewrite I.
  destruct p; reflexivity.
Qed.

(** An instance: the phone, constructed with a generated id and decoded
    at another time. *)
Lemma fromJSON_toJSON_round_trip_witness :
  exists p : Product,
    newProduct 1000 77 phoneData = inr p /\
    productId p = 77 /\
    Product_fromJSON 5000 99 (Product_toJSON p) = inr p.
Proof.
  eexists. split; [vm_compute; reflexivity |]. split; [reflexivity |].
  apply (fromJSON_toJSON_round_trip 1000 77 phoneData _ 5000 99);
    [vm_compute; reflexivity | lia].
Defined.

Lemma Math_round_bounds (q : Q) (a b : Z) :
  (inject_Z a <= q)%Q -> (q <= inject_Z b)%Q -> a <= Math_round q <= b.
Proof.
  intros A B. unfold Math_round. split.
  - rewrite <- (Qfloor_Z a). apply Qfloor_resp_le. lra.
  - assert (L : (Qfloor (q + (1 # 2)) <= Qfloor (inject_Z b + (1 # 2)))%Z)
      by (apply Qfloor_resp_le; lra).
    assert (F : Qfloor (inject_Z b + (1 # 2)) = b).
    { assert (U := Qlt_floor (inject_Z b + (1 # 2))).
      assert (D := Qfloor_le (inject_Z b + (1 # 2))).
      assert (M : (b <= Qfloor (inject_Z b + (1 # 2)))%Z).
      { rewrite <- (Qfloor_Z b) at 1. apply Qfloor_resp_le. lra. }
      assert (N : (Qfloor (inject_Z b + (1 # 2)) < b + 1)%Z).
      { rewrite Zlt_Qlt. rewrite inject_Z_plus. change (inject_Z 1) with 1%Q. lra. }
      lia. }
    lia.
Qed.

Lemma percentage_bounds (m pr : Q) :
  (0 <= pr)%Q -> (pr < m)%Q ->
  (0 <= (m - pr) / m * 100)%Q /\ ((m - pr) / m * 100 <= 100)%Q.
Proof.
  intros P M.
  assert (Mp : (0 < m)%Q) by lra.
  assert (A : (0 <= (m - pr) / m)%Q) by (apply Qle_shift_div_l; lra).
  assert (B : ((m - pr) / m <= 1)%Q) by (apply Qle_shift_div_r; lra).
  split; lra.
Qed.

Lemma calculateDiscount_is_a_percentage_aux (p : Product) :
  (0 <= price p)%Q -> 0 <= calculateDiscount p /\ calculateDiscount p <= 100.
Proof.
  intro P. unfold calculateDiscount.
  destruct (mrp p) as [m |]; [| lia].
  destruct (Qis0 m || Qle_bool m (price p))%bool eqn:E; [lia |].
  apply orb_false_iff in E. destruct E as [_ E]. apply Qle_bool_gt in E.
  destruct (percentage_bounds m (price p) P E) as [A B].
  apply Math_round_bounds; [exact A | exact B].
Qed.

(** The discount is a percentage: for a product whose price is not
    negative it lies between 0 and 100, and it is 0 when there is no list
    price or the list price does not exceed the price. *)
Theorem calculateDiscount_is_a_percentage :
  forall p : Product,
  (0 <= price p)%Q ->
  0 <= calculateDiscount p <= 100 /\
  (mrp p = None -> calculateDiscount p = 0) /\
  (forall m : Q, mrp p = Some m -> (m <= price p)%Q -> calculateDiscount p = 0).
Proof.
  intros p P. split; [now apply calculateDiscount_is_a_percentage_aux |].
  unfold calculateDiscount. split.
  - intros ->. reflexivity.
  - intros m -> L. apply Qle_bool_iff in L. rewrite L, orb_true_r. reflexivity.
Qed.

(** An instance: the stored phone costs 12000 against a list price of
    15000, a discount of 20 percent. *)
Lemma calculateDiscount_is_a_percentage_witness :
  (0 <= price storedPhone)%Q /\
  calculateDiscount storedPhone = 20 /\
  0 <= calculateDiscount storedPhone <= 100.
Proof.
  split; [vm_compute; discriminate |]. split; [vm_compute; reflexivity |].
  apply (calculateDiscount_is_a_percentage storedPhone). vm_compute; discriminate.
Defined.

(** [updateStock] never stores a negative stock: a valid product stays
    valid whatever quantity is passed, a quantity that is not positive
    leaves the product out of stock, and any other quantity is stored. *)
Theorem updateStock_keeps_the_product_valid :
  forall (now : Z) (quantity : Q) (p : Product),
  validFields p ->
  validFields (Product_updateStock now quantity p) /\
  ((quantity <= 0)%Q ->
   getStockStatus (Product_updateStock now quantity p) = OUT_OF_STOCK) /\
  ((0 <= quantity)%Q -> (stock (Product_updateStock now quantity p) == quantity)%Q).
Proof.
  intros now quantity p [T [P [R1 [R2 S]]]]. split; [| split].
  - unfold validFields. cbn. repeat split; try assumption. apply Q.le_max_l.
  - intro L. unfold getStockStatus. cbn [Product_updateStock stock].
    replace (Qis0 (Qmax 0 quantity)) with true; [reflexivity |].
    symmetry. apply Qis0_eq. apply Q.max_l. exact L.
  - intro L. cbn. apply Q.max_r. exact L.
Qed.

(** An instance: the stored phone after [updateStock(-3)]. *)
Lemma updateStock_keeps_the_product_valid_witness :
  validFields storedPhone /\
  stock (Product_updateStock 2000 (-3) storedPhone) = 0%Q /\
  validFields (Product_updateStock 2000 (-3) storedPhone).
Proof.
  assert (V : validFields storedPhone).
  { unfold validFields. repeat split; vm_compute; discriminate. }
  split; [exact V |]. split; [vm_compute; reflexivity |].
  apply (updateStock_keeps_the_product_valid 2000 (-3) storedPhone V).
Defined.

(** ** Search queries and search terms *)

Lemma validateQuery_ok (minP maxP minR : option Q) (sort : string) :
  validateQuery minP maxP minR sort = inr tt ->
  (forall a b : Q, truthyNum minP = Some a -> truthyNum maxP = Some b -> (a <= b)%Q) /\
  (forall m : Q, truthyNum minR = Some m -> (0 <= m)%Q /\ (m <= 5)%Q) /\
  isValidSortBy sort = true.
Proof.
  unfold validateQuery.
  destruct (truthyNum minP) as [a |]; destruct (truthyNum maxP) as [b |];
    destruct (truthyNum minR) as [m |];
    repeat match goal with
           | |- context [if ?c then _ else _] => destruct c eqn:?
           end; intro E; try discriminate;
    (split; [| split]);
    try (intros ? ? ? ?; discriminate); try (intros ? ?; discriminate);
    try reflexivity;
    repeat match goal with
           | H : Qgtb _ _ = false |- _ => unfold Qgtb in H; apply Qltb_ge in H
           | H : (_ || _)%bool = false |- _ =>
               apply orb_false_iff in H; destruct H as [? ?]
           | H : Qltb _ _ = false |- _ => apply Qltb_ge in H
           | H : negb _ = false |- _ => apply negb_false_iff in H
           end;
    try assumption;
    try (intros ? ? X Y; injection X as <-; injection Y as <-; assumption);
    try (intros ? X; injection X as <-; split; assumption).
Qed.

Lemma truthyNum_nonzero (x : option Q) (m : Q) :
  truthyNum x = Some m -> ~ (m == 0)%Q.
Proof.
  unfold truthyNum. destruct x as [q |]; [| discriminate].
  destruct (Qis0 q) eqn:Z0; [discriminate |].
  intro H. injection H as <-. now apply Qis0_neq.
Qed.

Lemma truthyNum_idem (x : option Q) : truthyNum (truthyNum x) = truthyNum x.
Proof.
  unfold truthyNum. destruct x as [q |]; [| reflexivity].
  destruct (Qis0 q) eqn:Z0; [reflexivity | now rewrite Z0].
Qed.

(** On success the constructor has established what [validate()] checks:
    the sort key is one of the six known ones, a minimum price is not
    above a maximum price and a minimum rating lies between 0 and 5.  A
    bound given as 0 counts as not given. *)
Theorem newSearchQuery_establishes_query_invariants :
  forall (params : QueryParams) (sq : SearchQuery),
  newSearchQuery params = inr sq ->
  In (sortBy sq) validSortOptions /\
  (forall a b : Q, minPrice sq = Some a -> maxPrice sq = Some b -> (a <= b)%Q) /\
  (forall m : Q, minRating sq = Some m -> (0 <= m)%Q /\ (m <= 5)%Q) /\
  (forall m : Q,
     minPrice sq = Some m \/ maxPrice sq = Some m \/ minRating sq = Some m ->
     ~ (m == 0)%Q).
Proof.
  intros params sq. unfold newSearchQuery, bind.
  destruct (validateQuery _ _ _ _) as [e | []] eqn:V; [discriminate |].
  intro E. injection E as <-. cbn [sortBy minPrice maxPrice minRating].
  apply validateQuery_ok in V. rewrite !truthyNum_idem in V.
  destruct V as [P [R S]].
  split; [| split; [exact P | split; [exact R |]]].
  - unfold isValidSortBy in S. apply existsb_exists in S.
    destruct S as [x [I S]]. apply String.eqb_eq in S. now subst.
  - intros m [M | [M | M]]; eapply truthyNum_nonzero; eassumption.
Qed.

(** An instance: a query for phones between 5000 and 20000, rated 4 or
    better. *)
Lemma newSearchQuery_establishes_query_invariants_witness :
  exists sq : SearchQuery,
    newSearchQuery
      (mkQueryParams (Some "Phone"%string) JUndefined JUndefined
         (Some "price_low"%string) None None (Some 5000%Q) (Some 20000%Q)
         (Some 4%Q) JUndefined None None) = inr sq /\
    minPrice sq = Some 5000%Q /\
    In (sortBy sq) validSortOptions.
Proof.
  eexists. split; [vm_compute; reflexivity |]. split; [reflexivity |].
  eapply (newSearchQuery_establishes_query_invariants
            (mkQueryParams (Some "Phone"%string) JUndefined JUndefined
               (Some "price_low"%string) None None (Some 5000%Q) (Some 20000%Q)
               (Some 4%Q) JUndefined None None)).
  vm_compute. reflexivity.
Defined.

Lemma isLowerAlnum_facts (c : ascii) :
  Str.isLowerAlnum c = true ->
  Str.isUpper c = false /\ Str.isSpace c = false /\ Str.isAlnum c = true.
Proof.
  destruct c as [[] [] [] [] [] [] [] []]; cbv; intro H;
    try discriminate; repeat split.
Qed.

Lemma isAlnum_noUpper (c : ascii) :
  Str.isUpper c = false -> Str.isAlnum c = Str.isLowerAlnum c.
Proof. unfold Str.isAlnum, Str.isLowerAlnum. now intros ->. Qed.

Lemma isUpper_lowerChar (c : ascii) : Str.isUpper (Str.lowerChar c) = false.
Proof. destruct c as [[] [] [] [] [] [] [] []]; reflexivity. Qed.

Lemma lowerChars_noUpper (l : list ascii) : noUpper (Str.lowerChars l).
Proof.
  unfold noUpper, Str.lowerChars. apply Forall_forall. intros c I.
  apply in_map_iff in I. destruct I as [c' [<- _]]. apply isUpper_lowerChar.
Qed.

Lemma lowerChars_id (l : list ascii) : noUpper l -> Str.lowerChars l = l.
Proof.
  unfold noUpper, Str.lowerChars. induction 1 as [| c l U _ IH]; [reflexivity |].
  cbn. rewrite IH. unfold Str.lowerChar. now rewrite U.
Qed.

Lemma toLowerCase_id (s : string) : noUpper (Str.chars s) -> Str.toLowerCase s = s.
Proof.
  intro U. unfold Str.toLowerCase. rewrite (lowerChars_id _ U). apply ofChars_chars.
Qed.

Lemma dropSpaces_Forall (P : ascii -> Prop) (l : list ascii) :
  Forall P l -> Forall P (Str.dropSpaces l).
Proof.
  induction 1 as [| c l Pc Pl IH]; cbn; [constructor |].
  destruct (Str.isSpace c); [exact IH | now constructor].
Qed.

Lemma trimChars_Forall (P : ascii -> Prop) (l : list ascii) :
  Forall P l -> Forall P (Str.trimChars l).
Proof.
  intro F. unfold Str.trimChars.
  apply Forall_rev, dropSpaces_Forall, Forall_rev, dropSpaces_Forall, F.
Qed.

Lemma replaceWordAux_Forall (P : ascii -> Prop) (w r : list ascii) :
  Forall P r ->
  forall (l : list ascii) (prevWord : bool) (skip : nat),
  Forall P l -> Forall P (Str.replaceWordAux w r prevWord skip l).
Proof.
  intros Fr. induction l as [| c l IH]; intros prevWord skip Fl; cbn [Str.replaceWordAux];
    [constructor |].
  inversion Fl as [| ? ? Pc Pl]; subst.
  destruct skip as [| k]; [| now apply IH].
  destruct (negb prevWord && Str.prefixCharsCI w (c :: l)
            && negb (Str.headIsWord (skipn (List.length w) (c :: l))))%bool.
  - apply Forall_app. split; [exact Fr | now apply IH].
  - constructor; [exact Pc | now apply IH].
Qed.

Lemma applyTable_noUpper (table : list (string * string)) :
  Forall (fun e => noUpper (Str.chars (snd e))) table ->
  forall q : string, noUpper (Str.chars q) -> noUpper (Str.chars (applyTable table q)).
Proof.
  unfold applyTable. induction 1 as [| e table Ue _ IH]; intros q Uq; cbn [fold_left];
    [exact Uq |].
  apply IH. unfold Str.replaceWord. rewrite chars_ofChars.
  now apply replaceWordAux_Forall.
Qed.

Lemma noUpper_dec_sound (l : list ascii) :
  forallb (fun c => negb (Str.isUpper c)) l = true -> noUpper l.
Proof.
  intro H. apply Forall_forall. intros c I.
  rewrite forallb_forall in H. apply H in I. now apply negb_true_iff.
Qed.

Lemma table_noUpper_sound (table : list (string * string)) :
  forallb (fun e => forallb (fun c => negb (Str.isUpper c)) (Str.chars (snd e))) table
  = true ->
  Forall (fun e => noUpper (Str.chars (snd e))) table.
Proof.
  intro H. apply Forall_forall. intros e I.
  rewrite forallb_forall in H. apply noUpper_dec_sound. now apply H.
Qed.

Lemma normalize_noUpper (q : string) : noUpper (Str.chars (normalize q)).
Proof.
  unfold normalize, correctCommonMisspellings, normalizeHinglishQuery.
  apply applyTable_noUpper; [apply table_noUpper_sound; vm_compute; reflexivity |].
  apply applyTable_noUpper; [apply table_noUpper_sound; vm_compute; reflexivity |].
  unfold Str.toLowerCase. rewrite chars_ofChars. apply lowerChars_noUpper.
Qed.

Lemma splitWsAux_Forall (P : ascii -> Prop) (l : list ascii) :
  Forall P l ->
  forall (cur : list ascii) (inWs : bool),
  Forall P cur -> Forall (Forall P) (Str.splitWsAux cur inWs l).
Proof.
  induction 1 as [| c l Pc Pl IH]; intros cur inWs Fc; cbn [Str.splitWsAux].
  - constructor; [now apply Forall_rev | constructor].
  - destruct (Str.isSpace c).
    + destruct inWs; [now apply IH |].
      constructor; [now apply Forall_rev | apply IH; constructor].
    + apply IH. now constructor.
Qed.

Lemma filter_alnum_noUpper (l : list ascii) :
  noUpper l -> filter Str.isAlnum l = filter Str.isLowerAlnum l.
Proof.
  induction 1 as [| c l U _ IH]; [reflexivity |].
  cbn. now rewrite (isAlnum_noUpper c U), IH.
Qed.

Lemma getSearchTerms_noUpper (sq : SearchQuery) :
  noUpper (Str.chars (query sq)) ->
  getSearchTerms sq = extractSearchTerms (query sq).
Proof.
  intro U. unfold getSearchTerms, extractSearchTerms.
  destruct (query sq) as [| c s] eqn:Q; [reflexivity |].
  rewrite (toLowerCase_id _ U).
  f_equal. apply map_ext_in. intros t I.
  apply filter_In in I. destruct I as [I _].
  unfold Str.splitWs in I. apply in_map_iff in I. destruct I as [l [<- I]].
  unfold Str.stripNonAlnum, Str.stripNonLowerAlnum. rewrite chars_ofChars.
  f_equal. apply filter_alnum_noUpper.
  assert (F := splitWsAux_Forall _ _ U [] false (Forall_nil _)).
  rewrite Forall_forall in F. now apply F.
Qed.

(** The two tokenizers agree on every constructed query: the terms the
    service scores a product against ([getSearchTerms()]) are exactly the
    terms the repository looks up in its term index
    ([extractSearchTerms(query)]), because a normalised query has no
    upper-case letter left. *)
Theorem constructed_query_terms_are_the_index_terms :
  forall (params : QueryParams) (sq : SearchQuery),
  newSearchQuery params = inr sq ->
  noUpper (Str.chars (query sq)) /\
  getSearchTerms sq = extractSearchTerms (query sq).
Proof.
  intros params sq. unfold newSearchQuery, bind.
  destruct (validateQuery _ _ _ _) as [e | []]; [discriminate |].
  intro E. injection E as <-.
  assert (U : noUpper (Str.chars (normalize (strOr (p_query params) ""))))
    by apply normalize_noUpper.
  split; [exact U |]. now apply getSearchTerms_noUpper.
Qed.

(** An instance: the query "  Sasta PHONE x, 5G! ". *)
Lemma constructed_query_terms_are_the_index_terms_witness :
  exists sq : SearchQuery,
    newSearchQuery (withQuery "  Sasta PHONE x, 5G! " noParams) = inr sq /\
    getSearchTerms sq = ["cheap"; "phone"; "5g"]%string /\
    getSearchTerms sq = extractSearchTerms (query sq).
Proof.
  eexists. split; [vm_compute; reflexivity |]. split; [vm_compute; reflexivity |].
  apply (constructed_query_terms_are_the_index_terms
           (withQuery "  Sasta PHONE x, 5G! " noParams)).
  vm_compute. reflexivity.
Defined.

Lemma len_ofChars (l : list ascii) : Str.len (Str.ofChars l) = Z.of_nat (List.length l).
Proof.
  unfold Str.len, Str.ofChars. f_equal.
  induction l as [| c l IH]; cbn; [reflexivity | now rewrite IH].
Qed.

Lemma splitWsAux_no_space (l : list ascii) :
  Forall (fun c => Str.isSpace c = false) l ->
  forall cur : list ascii, Str.splitWsAux cur false l = [rev cur ++ l].
Proof.
  induction 1 as [| c l Sc _ IH]; intro cur; cbn [Str.splitWsAux].
  - now rewrite app_nil_r.
  - rewrite Sc, IH. cbn [rev]. now rewrite <- app_assoc.
Qed.

Lemma filter_all (A : Type) (f : A -> bool) (l : list A) :
  Forall (fun x => f x = true) l -> filter f l = l.
Proof.
  induction 1 as [| x l Fx _ IH]; [reflexivity |]. cbn. now rewrite Fx, IH.
Qed.

Lemma extractSearchTerms_isTerm (text t : string) :
  In t (extractSearchTerms text) -> isTerm t.
Proof.
  unfold extractSearchTerms. destruct text as [| c s]; [contradiction |].
  intro I. apply filter_In in I. destruct I as [I L].
  apply in_map_iff in I. destruct I as [x [<- _]].
  split; [now apply Z.ltb_lt |].
  unfold Str.stripNonLowerAlnum. rewrite chars_ofChars.
  apply Forall_forall. intros a Ia. apply filter_In in Ia. tauto.
Qed.

Lemma extractSearchTerms_term (t : string) :
  isTerm t -> extractSearchTerms t = [t].
Proof.
  intros [L F]. unfold extractSearchTerms.
  destruct t as [| c s] eqn:T; [cbn in L; lia |]. rewrite <- T in *. clear T c s.
  assert (U : noUpper (Str.chars t)).
  { eapply Forall_impl; [| exact F]. intros a Fa. now apply isLowerAlnum_facts. }
  assert (S : Forall (fun c => Str.isSpace c = false) (Str.chars t)).
  { eapply Forall_impl; [| exact F]. intros a Fa. now apply isLowerAlnum_facts. }
  rewrite (toLowerCase_id _ U). unfold Str.splitWs.
  rewrite (splitWsAux_no_space _ S). cbn [rev app map]. rewrite ofChars_chars.
  apply Z.ltb_lt in L. cbn [filter]. rewrite L. cbn [map].
  unfold Str.stripNonLowerAlnum. rewrite (filter_all _ _ _ F), ofChars_chars.
  cbn [filter]. now rewrite L.
Qed.

(** Every term of the index has at least two characters, all of them
    lower-case letters or digits, and it is its own tokenization: querying
    for a term looks up exactly that term. *)
Theorem index_terms_are_stable :
  forall text t : string,
  In t (extractSearchTerms text) ->
  isTerm t /\ extractSearchTerms t = [t].
Proof.
  intros text t I. assert (T := extractSearchTerms_isTerm _ _ I).
  split; [exact T | now apply extractSearchTerms_term].
Qed.

(** An instance: the text of a title with punctuation and a one-letter
    word. *)
Lemma index_terms_are_stable_witness :
  extractSearchTerms "Galaxy S-24, a 5G Phone!" = ["galaxy"; "s24"; "5g"; "phone"]%string /\
  isTerm "s24" /\ extractSearchTerms "s24" = ["s24"%string].
Proof.
  split; [vm_compute; reflexivity |].
  apply (index_terms_are_stable "Galaxy S-24, a 5G Phone!" "s24").
  vm_compute. auto.
Defined.

(** ** The repository: primary map *)

Lemma emptyRepo_storeWf : storeWf emptyRepo.
Proof. split; [reflexivity | intros id p H; discriminate]. Qed.

Lemma add_products now genId data r out r1 :
  add now genId data r = (out, r1) ->
  match out with
  | inr id =>
      exists p, productId p = id /\
                products r1 = JSMap.set id p (products r) /\
                (exists id0, newProduct now genId (withProductId id0 data) = inr p /\
                             (id0 = nextId r \/ (id0 <> 0 /\ d_productId data = Some id0)))
  | inl _ => products r1 = products r
  end /\
  (nextId r1 = nextId r \/ nextId r1 = nextId r + 1).
Proof.
  unfold add.
  destruct (match d_productId data with
            | Some i => if i =? 0 then (nextId r, setNextId (nextId r + 1) r) else (i, r)
            | None => (nextId r, setNextId (nextId r + 1) r)
            end) as [id0 r0] eqn:C.
  assert (C' : products r0 = products r /\
               (nextId r0 = nextId r \/ nextId r0 = nextId r + 1) /\
               (id0 = nextId r \/ (id0 <> 0 /\ d_productId data = Some id0))).
  { destruct (d_productId data) as [i |].
    - destruct (i =? 0) eqn:Z0; injection C as <- <-; cbn; auto.
      apply Z.eqb_neq in Z0. auto.
    - injection C as <- <-; cbn; auto. }
  destruct C' as [P0 [N0 I0]].
  destruct (newProduct now genId (withProductId id0 data)) as [e | p] eqn:NP;
    intro E; injection E as <- <-.
  - split; [exact P0 | exact N0].
  - split; [| exact N0].
    exists p. split; [reflexivity |]. cbn. rewrite P0. split; [reflexivity |].
    exists id0. auto.
Qed.

Lemma updateMetadata_validFields now md p :
  validFields p -> validFields (Product_updateMetadata now md p).
Proof. intro V. exact V. Qed.

Lemma add_storeWf now genId data r :
  storeWf r -> storeWf (snd (add now genId data r)).
Proof.
  intros [N W]. destruct (add now genId data r) as [out r1] eqn:A.
  destruct (add_products _ _ _ _ _ _ A) as [P N1]. cbn [snd].
  split; [lia |].
  destruct out as [e | id].
  - rewrite P. exact W.
  - destruct P as [p [Ip [P [id0 [NP I0]]]]]. rewrite P.
    assert (Z0 : id0 <> 0) by (destruct I0 as [-> | [Z0 _]]; [lia | exact Z0]).
    assert (Ip0 := newProduct_productId _ _ _ _ _ Z0 NP).
    intros id' p' G.
    destruct (Z.eq_dec id id') as [<- | D].
    + rewrite get_set_same in G. injection G as <-.
      split; [congruence |]. split; [exact Ip |].
      now apply (newProduct_valid _ _ _ _ NP).
    + rewrite (get_set_other _ _ _ _ D) in G. now apply W.
Qed.

Lemma update_storeWf now genId id upd r :
  storeWf r -> storeWf (snd (update now genId id upd r)).
Proof.
  intros [N W]. unfold update.
  destruct (JSMap.get id (products r)) as [existing |] eqn:G; [| exact (conj N W)].
  destruct (W _ _ G) as [Z0 _].
  destruct (newProduct now genId _) as [e | updated] eqn:NP; cbn [snd].
  - exact (conj N W).
  - split; [exact N |]. cbn [updateIndexes products setProducts removeFromIndexes].
    intros id' p' G'.
    destruct (Z.eq_dec id id') as [<- | D].
    + rewrite get_set_same in G'. injection G' as <-.
      split; [exact Z0 |]. split.
      * unfold newProduct, bind in NP.
        destruct (validateProduct _ _ _ _) as [e | []]; [discriminate |].
        injection NP as <-. cbn. apply Z.eqb_neq in Z0. now rewrite Z0.
      * now apply (newProduct_valid _ _ _ _ NP).
    + rewrite (get_set_other _ _ _ _ D) in G'. now apply W.
Qed.

Lemma updateMetadata_storeWf now id md r :
  storeWf r -> storeWf (snd (updateMetadata now id md r)).
Proof.
  intros [N W]. unfold updateMetadata.
  destruct (JSMap.get id (products r)) as [p |] eqn:G; [| exact (conj N W)].
  cbn [snd]. split; [exact N |]. cbn [products].
  destruct (W _ _ G) as [Z0 [Ip V]].
  intros id' p' G'.
  destruct (Z.eq_dec id id') as [<- | D].
  - rewrite get_set_same in G'. injection G' as <-. auto.
  - rewrite (get_set_other _ _ _ _ D) in G'. now apply W.
Qed.

Lemma bulkLoad_storeWf now genId ps :
  forall r, storeWf r -> storeWf (snd (bulkLoad now genId ps r)).
Proof.
  induction ps as [| d ps IH]; intros r W; [exact W |].
  cbn [bulkLoad].
  assert (W1 := add_storeWf now genId d r W).
  destruct (add now genId d r) as [out r1]. cbn [snd] in W1.
  assert (W2 := IH r1 W1).
  destruct (bulkLoad now genId ps r1) as [[sc ec] r2]. exact W2.
Qed.

(** The primary map stays well formed under every mutating method of the
    repository, whether the call succeeds or throws: every stored product
    sits under its own non-zero id and passes [validate()]. *)
Theorem repository_keeps_the_store_well_formed :
  forall (now genId id : Z) (data : ProductData) (ps : list ProductData)
         (md : Metadata) (r : Repo),
  storeWf r ->
  storeWf (snd (add now genId data r)) /\
  storeWf (snd (update now genId id data r)) /\
  storeWf (snd (updateMetadata now id md r)) /\
  storeWf (snd (bulkLoad now genId ps r)).
Proof.
  intros now genId id data ps md r W.
  split; [now apply add_storeWf |].
  split; [now apply update_storeWf |].
  split; [now apply updateMetadata_storeWf | now apply bulkLoad_storeWf].
Qed.

(** An instance: the empty repository, a load of two phones of which the
    second is rejected, and an update of the first. *)
Lemma repository_keeps_the_store_well_formed_witness :
  storeWf emptyRepo /\
  fst (bulkLoad 1000 0 [phoneData; badPriceUpdate] emptyRepo) = (1, 1) /\
  storeWf (snd (bulkLoad 1000 0 [phoneData; badPriceUpdate] emptyRepo)).
Proof.
  split; [exact emptyRepo_storeWf |]. split; [vm_compute; reflexivity |].
  apply (repository_keeps_the_store_well_formed 1000 0 1 phoneData
           [phoneData; badPriceUpdate] [] emptyRepo emptyRepo_storeWf).
Defined.

Lemma length_set_present {K V : Type} `{EqDec K} (m : JSMap.t K V) (k : K) (v v' : V) :
  JSMap.get k m = Some v' -> List.length (JSMap.set k v m) = List.length m.
Proof.
  induction m as [| [k0 v0] m IH]; cbn; [discriminate |].
  destruct (eq_dec k k0); [reflexivity |]. intro G. cbn. now rewrite IH.
Qed.

(** [add] followed by [getById]: the id [add] returns gives back the
    product that was constructed, every other id is answered as before,
    and the map grows by one entry exactly when the id was not stored yet.
    There is no duplicate check: an id that is already stored is
    overwritten. *)
Theorem add_then_getById :
  forall (now genId : Z) (data : ProductData) (r : Repo) (id : Z) (r1 : Repo),
  add now genId data r = (inr id, r1) ->
  (exists p : Product,
     getById r1 id = Some p /\ productId p = id /\
     Product_validate p = inr tt /\
     getByIds r1 [id] = [p]) /\
  (forall id' : Z, id' <> id -> getById r1 id' = getById r id') /\
  JSMap.size (products r1)
  = match getById r id with
    | Some _ => JSMap.size (products r)
    | None => JSMap.size (products r) + 1
    end.
Proof.
  intros now genId data r id r1 A.
  destruct (add_products _ _ _ _ _ _ A) as [[p [Ip [P [id0 [NP _]]]]] _].
  unfold getById, getByIds. rewrite P. split; [| split].
  - exists p. rewrite get_set_same. split; [reflexivity |]. split; [exact Ip |].
    split; [now apply (newProduct_valid _ _ _ _ NP) |].
    cbn [flat_map]. rewrite get_set_same. reflexivity.
  - intros id' D. apply get_set_other. congruence.
  - unfold JSMap.size. destruct (JSMap.get id (products r)) as [old |] eqn:G.
    + now rewrite (length_set_present _ _ _ _ G).
    + rewrite (length_set_fresh _ _ _ G). lia.
Qed.

(** An instance: the phone added to the empty repository. *)
Lemma add_then_getById_witness :
  add 1000 0 phoneData emptyRepo = (inr 1, phoneRepo) /\
  getById phoneRepo 1 = Some storedPhone /\
  JSMap.size (products phoneRepo)
  = match getById emptyRepo 1 with
    | Some _ => JSMap.size (products emptyRepo)
    | None => JSMap.size (products emptyRepo) + 1
    end.
Proof.
  assert (A : add 1000 0 phoneData emptyRepo = (inr 1, phoneRepo))
    by (vm_compute; reflexivity).
  split; [exact A |]. split; [vm_compute; reflexivity |].
  apply (add_then_getById 1000 0 phoneData emptyRepo 1 phoneRepo A).
Defined.

(** ** The repository: term search *)

Section IndexAddFacts.
Context {K : Type} `{EqDec K}.

Lemma indexAdd_keeps (k k' : K) (id id' : Z) (idx : Index K) :
  JSSet.has id (postings k idx) = true ->
  JSSet.has id (postings k (indexAdd k' id' idx)) = true.
Proof.
  intro I. destruct (eq_dec k' k) as [-> | D].
  - unfold postings, indexAdd in *.
    destruct (JSMap.get k idx) as [s |] eqn:G; rewrite get_set_same.
    + apply has_In. apply In_add. right. now apply has_In.
    + discriminate.
  - unfold postings in *. now rewrite (get_indexAdd_other _ _ _ _ D).
Qed.

Lemma fold_indexAdd_keeps (ks : list K) (k : K) (id id' : Z) :
  forall idx : Index K,
  JSSet.has id (postings k idx) = true ->
  JSSet.has id (postings k (fold_left (fun acc k' => indexAdd k' id' acc) ks idx)) = true.
Proof.
  induction ks as [| k0 ks IH]; intros idx I; [exact I |].
  cbn [fold_left]. apply IH. now apply indexAdd_keeps.
Qed.

Lemma fold_indexAdd_has (ks : list K) (k : K) (id : Z) :
  In k ks ->
  forall idx : Index K,
  JSSet.has id (postings k (fold_left (fun acc k' => indexAdd k' id acc) ks idx)) = true.
Proof.
  induction ks as [| k0 ks IH]; intros I idx; [contradiction |].
  cbn [fold_left]. destruct I as [-> | I].
  - apply fold_indexAdd_keeps. apply indexAdd_has.
  - now apply IH.
Qed.

End IndexAddFacts.

Lemma fold_add_In (l : list Z) (x : Z) :
  forall acc : JSSet.t Z,
  In x (fold_left (fun acc' id => JSSet.add id acc') l acc) <-> In x l \/ In x acc.
Proof.
  induction l as [| y l IH]; intro acc; cbn [fold_left].
  - cbn. tauto.
  - rewrite IH, In_add. cbn. intuition congruence.
Qed.

Lemma matching_In (idx : Index string) (terms : list string) (x : Z) :
  forall acc : JSSet.t Z,
  In x (fold_left
          (fun acc term =>
             fold_left (fun acc' id => JSSet.add id acc') (postings term idx) acc)
          terms acc)
  <-> (exists term, In term terms /\ In x (postings term idx)) \/ In x acc.
Proof.
  induction terms as [| t terms IH]; intro acc; cbn [fold_left].
  - split; [auto | intros [[term [[] _]] | I]; exact I].
  - rewrite IH, fold_add_In. split.
    + intros [[term [I P]] | [P | A]]; [left; exists term; cbn; auto | | auto].
      left. exists t. cbn. auto.
    + intros [[term [[<- | I] P]] | A]; [auto | | auto].
      left. exists term. auto.
Qed.

Lemma In_stored (r : Repo) (ids : list Z) (p : Product) :
  In p (flat_map (fun id => match JSMap.get id (products r) with
                            | Some p => [p]
                            | None => []
                            end) ids)
  <-> exists id, In id ids /\ JSMap.get id (products r) = Some p.
Proof.
  rewrite in_flat_map. split; intros [id [I G]]; exists id; (split; [exact I |]).
  - destruct (JSMap.get id (products r)) as [p' |]; [| contradiction].
    destruct G as [-> | []]. reflexivity.
  - rewrite G. now left.
Qed.

Lemma In_filterByIndex (ids : JSSet.t Z) (ps : list Product) (p : Product) :
  In p (filterByIndex ids ps) <-> In p ps /\ In (productId p) ids.
Proof. unfold filterByIndex. now rewrite filter_In, has_In. Qed.

Lemma In_filter_lower (x : option string) (idx : Index string)
  (ps : list Product) (p : Product) :
  In p (match truthyStr x with
        | Some c => filterByIndex (postings (Str.toLowerCase c) idx) ps
        | None => ps
        end)
  <-> In p ps /\
      (forall c, truthyStr x = Some c ->
         In (productId p) (postings (Str.toLowerCase c) idx)).
Proof.
  destruct (truthyStr x) as [c |].
  - rewrite In_filterByIndex. split.
    + intros [I J]. split; [exact I |]. intros c' E. now injection E as <-.
    + intros [I J]. auto.
  - split; [intro I; split; [exact I | discriminate] | tauto].
Qed.

Lemma In_filter_key (x : option string) (idx : Index string)
  (ps : list Product) (p : Product) :
  In p (match truthyStr x with
        | Some k => filterByIndex (postings k idx) ps
        | None => ps
        end)
  <-> In p ps /\
      (forall k, truthyStr x = Some k -> In (productId p) (postings k idx)).
Proof.
  destruct (truthyStr x) as [c |].
  - rewrite In_filterByIndex. split.
    + intros [I J]. split; [exact I |]. intros c' E. now injection E as <-.
    + intros [I J]. auto.
  - split; [intro I; split; [exact I | discriminate] | tauto].
Qed.

Lemma Repo_search_In (r : Repo) (q : string) (o : SearchOptions) (p : Product) :
  In p (Repo_search r q o) <->
   (exists (id : Z) (term : string),
      In term (extractSearchTerms q) /\
      In id (postings term (searchIndex r)) /\
      getById r id = Some p) /\
   (forall c, truthyStr (o_category o) = Some c ->
      In (productId p) (postings (Str.toLowerCase c) (categoryIndex r))) /\
   (forall b, truthyStr (o_brand o) = Some b ->
      In (productId p) (postings (Str.toLowerCase b) (brandIndex r))) /\
   (forall k, truthyStr (o_priceRange o) = Some k ->
      In (productId p) (postings k (priceRangeIndex r))) /\
   (forall k, truthyStr (o_ratingRange o) = Some k ->
      In (productId p) (postings k (ratingBucketIndex r))) /\
   (o_inStock o = true ->
      In (productId p) (postings HIGH_STOCK (stockStatusIndex r)) \/
      In (productId p) (postings MEDIUM_STOCK (stockStatusIndex r)) \/
      In (productId p) (postings LOW_STOCK (stockStatusIndex r))).
Proof.
  unfold Repo_search.
  set (ps0 := flat_map _ _).
  assert (B : In p ps0 <->
              exists id term,
                In term (extractSearchTerms q) /\
                In id (postings term (searchIndex r)) /\
                getById r id = Some p).
  { unfold ps0. rewrite In_stored. unfold getById. split.
    - intros [id [I G]]. apply matching_In in I.
      destruct I as [[term [It Ip]] | []]. exists id, term. auto.
    - intros [id [term [It [Ip G]]]]. exists id. split; [| exact G].
      apply matching_In. left. exists term. auto. }
  clearbody ps0.
  destruct (o_inStock o).
  - rewrite filter_In, !orb_true_iff, !has_In.
    rewrite In_filter_key, In_filter_key, In_filter_lower, In_filter_lower, B.
    split; [intros [[[[[a0 a1] a2] a3] a4] a5]; repeat split; auto; tauto |].
    intros [a0 [a1 [a2 [a3 [a4 a5]]]]]. repeat split; auto.
    specialize (a5 eq_refl). tauto.
  - rewrite In_filter_key, In_filter_key, In_filter_lower, In_filter_lower, B.
    split; [intros [[[[a0 a1] a2] a3] a4]; repeat split; auto; discriminate |].
    intros [a0 [a1 [a2 [a3 [a4 a5]]]]]. repeat split; auto.
Qed.

Lemma Repo_search_no_terms (r : Repo) (q : string) (o : SearchOptions) :
  extractSearchTerms q = [] -> Repo_search r q o = [].
Proof.
  intro E. unfold Repo_search. rewrite E. cbn [fold_left flat_map JSSet.empty].
  unfold filterByIndex.
  destruct (truthyStr (o_category o)); destruct (truthyStr (o_brand o));
    destruct (truthyStr (o_priceRange o)); destruct (truthyStr (o_ratingRange o));
    destruct (o_inStock o); reflexivity.
Qed.

(** What [repository.search] returns, for every query and every options
    object: exactly the stored products whose id the term index lists
    under one of the query's terms, restricted, for each filter that is
    set, to the ids the corresponding index lists under the filter's key.
    A query without a term of two or more characters returns nothing. *)
Theorem Repo_search_characterisation :
  forall (r : Repo) (q : string) (o : SearchOptions) (p : Product),
  (In p (Repo_search r q o) <->
   (exists (id : Z) (term : string),
      In term (extractSearchTerms q) /\
      In id (postings term (searchIndex r)) /\
      getById r id = Some p) /\
   (forall c, truthyStr (o_category o) = Some c ->
      In (productId p) (postings (Str.toLowerCase c) (categoryIndex r))) /\
   (forall b, truthyStr (o_brand o) = Some b ->
      In (productId p) (postings (Str.toLowerCase b) (brandIndex r))) /\
   (forall k, truthyStr (o_priceRange o) = Some k ->
      In (productId p) (postings k (priceRangeIndex r))) /\
   (forall k, truthyStr (o_ratingRange o) = Some k ->
      In (productId p) (postings k (ratingBucketIndex r))) /\
   (o_inStock o = true ->
      In (productId p) (postings HIGH_STOCK (stockStatusIndex r)) \/
      In (productId p) (postings MEDIUM_STOCK (stockStatusIndex r)) \/
      In (productId p) (postings LOW_STOCK (stockStatusIndex r)))) /\
  (extractSearchTerms q = [] -> Repo_search r q o = []).
Proof.
  intros r q o p. split; [apply Repo_search_In | apply Repo_search_no_terms].
Qed.

Lemma add_searchIndex now genId data r id r1 :
  add now genId data r = (inr id, r1) ->
  exists p, JSMap.get id (products r1) = Some p /\ productId p = id /\
            searchIndex r1 = addToSearchIndex p (searchIndex r).
Proof.
  intro A. destruct (add_inv _ _ _ _ _ _ A) as [p [r0 [Ip [R [G [S _]]]]]].
  exists p. split; [exact G |]. split; [exact Ip |].
  rewrite R. cbn [updateIndexes searchIndex]. now rewrite S.
Qed.

(** A product that was added is found: for every term of its searchable
    text, a search for that term alone returns the product. *)
Theorem added_product_is_found_by_each_of_its_terms :
  forall (now genId : Z) (data : ProductData) (r : Repo) (id : Z) (r1 : Repo),
  add now genId data r = (inr id, r1) ->
  exists p : Product,
    getById r1 id = Some p /\
    forall term : string,
      In term (extractSearchTerms (searchableText p)) ->
      In p (Repo_search r1 term noOptions).
Proof.
  intros now genId data r id r1 A.
  destruct (add_searchIndex _ _ _ _ _ _ A) as [p [G [Ip S]]].
  exists p. split; [exact G |]. intros term I.
  apply Repo_search_In. split; [| repeat split; discriminate].
  exists id, term. split; [| split; [| exact G]].
  - rewrite (extractSearchTerms_term term (extractSearchTerms_isTerm _ _ I)).
    now left.
  - apply has_In. rewrite S. unfold addToSearchIndex. rewrite Ip.
    now apply fold_indexAdd_has.
Qed.

(** An instance: the phone added to the empty repository is found by
    "samsung". *)
Lemma added_product_is_found_by_each_of_its_terms_witness :
  add 1000 0 phoneData emptyRepo = (inr 1, phoneRepo) /\
  extractSearchTerms (searchableText storedPhone)
  = ["old"; "phone"; "samsung"; "mobile"]%string /\
  Repo_search phoneRepo "samsung" noOptions = [storedPhone] /\
  exists p : Product,
    getById phoneRepo 1 = Some p /\
    forall term : string,
      In term (extractSearchTerms (searchableText p)) ->
      In p (Repo_search phoneRepo term noOptions).
Proof.
  assert (A : add 1000 0 phoneData emptyRepo = (inr 1, phoneRepo))
    by (vm_compute; reflexivity).
  split; [exact A |]. split; [vm_compute; reflexivity |].
  split; [vm_compute; reflexivity |].
  exact (added_product_is_found_by_each_of_its_terms 1000 0 phoneData emptyRepo 1
           phoneRepo A).
Defined.

(** [add] does not check for duplicates.  Adding under an id that is
    already stored replaces the stored product without removing the old
    one from the indexes: the map keeps its size, and a search for a term
    of the old product's text now returns the new product. *)
Theorem add_under_a_stored_id_keeps_the_old_terms :
  forall (now genId : Z) (d1 : ProductData) (r : Repo) (id : Z) (r1 : Repo)
         (now' genId' : Z) (d2 : ProductData) (r2 : Repo),
  add now genId d1 r = (inr id, r1) ->
  add now' genId' d2 r1 = (inr id, r2) ->
  exists p1 p2 : Product,
    getById r1 id = Some p1 /\
    getById r2 id = Some p2 /\
    JSMap.size (products r2) = JSMap.size (products r1) /\
    forall term : string,
      In term (extractSearchTerms (searchableText p1)) ->
      In p2 (Repo_search r2 term noOptions).
Proof.
  intros now genId d1 r id r1 now' genId' d2 r2 A1 A2.
  destruct (add_searchIndex _ _ _ _ _ _ A1) as [p1 [G1 [I1 S1]]].
  destruct (add_searchIndex _ _ _ _ _ _ A2) as [p2 [G2 [I2 S2]]].
  exists p1, p2. split; [exact G1 |]. split; [exact G2 |]. split.
  - destruct (add_products _ _ _ _ _ _ A2) as [[p [_ [P _]]] _].
    rewrite P. unfold JSMap.size. now rewrite (length_set_present _ _ _ _ G1).
  - intros term I. apply Repo_search_In. split; [| repeat split; discriminate].
    exists id, term. split; [| split; [| exact G2]].
    + rewrite (extractSearchTerms_term term (extractSearchTerms_isTerm _ _ I)).
      now left.
    + apply has_In. rewrite S2. unfold addToSearchIndex.
      apply fold_indexAdd_keeps. rewrite S1. unfold addToSearchIndex. rewrite I1.
      now apply fold_indexAdd_has.
Qed.

(** An instance: the phone is stored under id 1, then a tablet is added
    under id 1; a search for "samsung" returns the tablet. *)
Lemma add_under_a_stored_id_keeps_the_old_terms_witness :
  add 1000 0 phoneData emptyRepo = (inr 1, phoneRepo) /\
  fst (add 2000 0 tabletData phoneRepo) = inr 1 /\
  map title (Repo_search (snd (add 2000 0 tabletData phoneRepo)) "samsung" noOptions)
  = ["Tablet"%string] /\
  exists p1 p2 : Product,
    getById phoneRepo 1 = Some p1 /\
    getById (snd (add 2000 0 tabletData phoneRepo)) 1 = Some p2 /\
    JSMap.size (products (snd (add 2000 0 tabletData phoneRepo)))
    = JSMap.size (products phoneRepo) /\
    forall term : string,
      In term (extractSearchTerms (searchableText p1)) ->
      In p2 (Repo_search (snd (add 2000 0 tabletData phoneRepo)) term noOptions).
Proof.
  assert (A1 : add 1000 0 phoneData emptyRepo = (inr 1, phoneRepo))
    by (vm_compute; reflexivity).
  assert (A2 : add 2000 0 tabletData phoneRepo
               = (inr 1, snd (add 2000 0 tabletData phoneRepo)))
    by (vm_compute; reflexivity).
  split; [exact A1 |]. split; [vm_compute; reflexivity |].
  split; [vm_compute; reflexivity |].
  exact (add_under_a_stored_id_keeps_the_old_terms 1000 0 phoneData emptyRepo 1
           phoneRepo 2000 0 tabletData _ A1 A2).
Defined.

(** ** The repository: updates *)

Lemma newProduct_not_ProductNotFound now genId data e id :
  newProduct now genId data = inl e -> e <> ProductNotFound id.
Proof.
  unfold newProduct, bind.
  destruct (validateProduct _ _ _ _) as [e' | []] eqn:V; [| discriminate].
  intro E. injection E as <-.
  destruct (validateProduct_errors _ _ _ _ _ V) as [-> | [-> | [-> | ->]]];
    discriminate.
Qed.

(** [update] and [updateMetadata] throw "not found" exactly for an id that
    is not stored, and then leave the repository as it was. *)
Theorem update_reports_not_found_exactly_for_missing_ids :
  forall (now genId id : Z) (upd : ProductData) (md : Metadata) (r : Repo),
  (getById r id = None ->
   update now genId id upd r = (inl (ProductNotFound id), r) /\
   updateMetadata now id md r = (inl (ProductNotFound id), r)) /\
  (forall id' : Z,
     fst (update now genId id upd r) = inl (ProductNotFound id') ->
     id' = id /\ getById r id = None) /\
  (forall id' : Z,
     fst (updateMetadata now id md r) = inl (ProductNotFound id') ->
     id' = id /\ getById r id = None).
Proof.
  intros now genId id upd md r. unfold getById, update, updateMetadata.
  destruct (JSMap.get id (products r)) as [p |] eqn:G.
  - split; [discriminate |]. split.
    + intros id'.
      destruct (newProduct now genId _) as [e | updated] eqn:NP; cbn [fst];
        [| discriminate].
      intro E. injection E as ->.
      exfalso. exact (newProduct_not_ProductNotFound _ _ _ _ id' NP eq_refl).
    + intros id'. cbn [fst]. discriminate.
  - split; [auto |]. split; intros id' E; cbn [fst] in E; injection E as <-; auto.
Qed.

Lemma update_failure now genId id upd r e r1 existing :
  JSMap.get id (products r) = Some existing ->
  update now genId id upd r = (inl e, r1) ->
  r1 = removeFromIndexes existing r.
Proof.
  intros G. unfold update. rewrite G.
  destruct (newProduct now genId _); intro E; [| discriminate].
  now injection E as _ <-.
Qed.

(** A rejected update is not undone.  When [update] throws a validation
    error for a product that [add] has just stored, the product stays in
    the primary map with its old fields, but it has already been taken out
    of every index: no index lists its id any more, so no text search
    returns it. *)
Theorem rejected_update_leaves_the_product_unindexed :
  forall (now genId : Z) (data : ProductData) (r : Repo) (id : Z) (r1 : Repo)
         (now' genId' : Z) (upd : ProductData) (e : Error) (r2 : Repo),
  storeWf r ->
  repoIdFree id r ->
  add now genId data r = (inr id, r1) ->
  update now' genId' id upd r1 = (inl e, r2) ->
  getById r2 id = getById r1 id /\
  getById r2 id <> None /\
  repoIdFree id r2 /\
  forall (q : string) (o : SearchOptions) (p : Product),
    In p (Repo_search r2 q o) -> productId p <> id.
Proof.
  intros now genId data r id r1 now' genId' upd e r2 W F A U.
  destruct (add_inv _ _ _ _ _ _ A) as [p [r0 [Ip [R [G S]]]]].
  assert (W1 := add_storeWf now genId data r W). rewrite A in W1. cbn [snd] in W1.
  assert (R2 := update_failure _ _ _ _ _ _ _ _ G U).
  assert (F0 : repoIdFree (productId p) r0).
  { rewrite Ip. destruct F as [F1 [F2 [F3 [F4 [F5 F6]]]]].
    destruct S as [S1 [S2 [S3 [S4 [S5 S6]]]]].
    unfold repoIdFree. rewrite S1, S2, S3, S4, S5, S6. repeat split; assumption. }
  assert (F2 : repoIdFree id r2).
  { rewrite R2, R, <- Ip. exact (proj1 (removeFromIndexes_updateIndexes p r0 F0)). }
  assert (P2 : products r2 = products r1) by (rewrite R2; reflexivity).
  unfold getById. rewrite P2.
  split; [reflexivity |]. split; [rewrite G; discriminate |].
  split; [exact F2 |].
  intros q o p' I E.
  apply Repo_search_In in I. destruct I as [[id' [term [_ [I G']]]] _].
  unfold getById in G'. rewrite P2 in G'.
  destruct W1 as [_ W1]. destruct (W1 _ _ G') as [_ [Ip' _]].
  assert (X : id' = id) by congruence. rewrite X in I.
  destruct F2 as [F2 _]. unfold postings in I.
  destruct (JSMap.get term (searchIndex r2)) as [s |] eqn:Gs; [| contradiction].
  exact (F2 _ _ Gs I).
Qed.

(** An instance: the phone added to the empty repository, then the
    update [{ price: -1 }]. *)
Lemma rejected_update_leaves_the_product_unindexed_witness :
  storeWf emptyRepo /\
  repoIdFree 1 emptyRepo /\
  add 1000 0 phoneData emptyRepo = (inr 1, phoneRepo) /\
  fst (update 2000 0 1 badPriceUpdate phoneRepo) = inl PriceNotPositive /\
  Repo_search phoneRepo "samsung" noOptions = [storedPhone] /\
  Repo_search (snd (update 2000 0 1 badPriceUpdate phoneRepo)) "samsung" noOptions = [] /\
  getById (snd (update 2000 0 1 badPriceUpdate phoneRepo)) 1 = getById phoneRepo 1 /\
  getById (snd (update 2000 0 1 badPriceUpdate phoneRepo)) 1 <> None /\
  repoIdFree 1 (snd (update 2000 0 1 badPriceUpdate phoneRepo)) /\
  forall (q : string) (o : SearchOptions) (p : Product),
    In p (Repo_search (snd (update 2000 0 1 badPriceUpdate phoneRepo)) q o) ->
    productId p <> 1.
Proof.
  assert (A : add 1000 0 phoneData emptyRepo = (inr 1, phoneRepo))
    by (vm_compute; reflexivity).
  assert (U : update 2000 0 1 badPriceUpdate phoneRepo
              = (inl PriceNotPositive, snd (update 2000 0 1 badPriceUpdate phoneRepo)))
    by (vm_compute; reflexivity).
  split; [exact emptyRepo_storeWf |]. split; [apply emptyRepo_idFree |].
  split; [exact A |]. split; [vm_compute; reflexivity |].
  split; [vm_compute; reflexivity |]. split; [vm_compute; reflexivity |].
  exact (rejected_update_leaves_the_product_unindexed 1000 0 phoneData emptyRepo 1
           phoneRepo 2000 0 badPriceUpdate PriceNotPositive _
           emptyRepo_storeWf (emptyRepo_idFree 1) A U).
Defined.

(** [updateMetadata] regenerates the searchable text from the current
    fields, tags and merged metadata, and re-indexes it: afterwards the
    product is found by every term of the new text. *)
Theorem updateMetadata_reindexes_the_regenerated_text :
  forall (now id : Z) (md : Metadata) (r : Repo) (p : Product),
  storeWf r ->
  getById r id = Some p ->
  exists (p' : Product) (r' : Repo),
    updateMetadata now id md r = (inr p', r') /\
    getById r' id = Some p' /\
    metadata p' = mergeMetadata (metadata p) md /\
    searchableText p'
    = generateSearchableText (Some (title p)) (description p) (brand p) (model p)
        (category p) (subcategory p) (tags p) (metadata p') /\
    forall term : string,
      In term (extractSearchTerms (searchableText p')) ->
      In p' (Repo_search r' term noOptions).
Proof.
  intros now id md r p [_ W] G. unfold getById in G.
  destruct (W _ _ G) as [_ [Ip _]].
  unfold updateMetadata. rewrite G.
  eexists. eexists. split; [reflexivity |].
  unfold getById. cbn [products]. rewrite get_set_same.
  split; [reflexivity |]. split; [reflexivity |]. split; [reflexivity |].
  intros term I.
  apply Repo_search_In. split; [| repeat split; discriminate].
  exists id, term. split; [| split].
  - rewrite (extractSearchTerms_term term (extractSearchTerms_isTerm _ _ I)).
    now left.
  - cbn [searchIndex]. apply has_In. unfold addToSearchIndex.
    cbn [Product_updateMetadata productId]. rewrite Ip.
    apply fold_indexAdd_has. exact I.
  - unfold getById. cbn [products]. apply get_set_same.
Qed.

(** An instance: the stored phone gets the metadata [{ color: "Blue" }]
    and is then found by "blue". *)
Lemma updateMetadata_reindexes_the_regenerated_text_witness :
  storeWf phoneRepo /\
  getById phoneRepo 1 = Some storedPhone /\
  Repo_search phoneRepo "blue" noOptions = [] /\
  map productId
    (Repo_search (snd (updateMetadata 2000 1 [("color", "Blue")]%string phoneRepo))
       "blue" noOptions) = [1] /\
  exists (p' : Product) (r' : Repo),
    updateMetadata 2000 1 [("color", "Blue")]%string phoneRepo = (inr p', r') /\
    getById r' 1 = Some p' /\
    metadata p' = mergeMetadata (metadata storedPhone) [("color", "Blue")]%string /\
    searchableText p'
    = generateSearchableText (Some (title storedPhone)) (description storedPhone)
        (brand storedPhone) (model storedPhone) (category storedPhone)
        (subcategory storedPhone) (tags storedPhone) (metadata p') /\
    forall term : string,
      In term (extractSearchTerms (searchableText p')) ->
      In p' (Repo_search r' term noOptions).
Proof.
  assert (W : storeWf phoneRepo) by (apply (add_storeWf 1000 0 phoneData emptyRepo
                                              emptyRepo_storeWf)).
  assert (G : getById phoneRepo 1 = Some storedPhone) by (vm_compute; reflexivity).
  split; [exact W |]. split; [exact G |].
  split; [vm_compute; reflexivity |]. split; [vm_compute; reflexivity |].
  exact (updateMetadata_reindexes_the_regenerated_text 2000 1
           [("color", "Blue")]%string phoneRepo storedPhone W G).
Defined.

(** ** The repository: bulk load *)

Lemma add_size now genId data r :
  JSMap.size (products r) <= JSMap.size (products (snd (add now genId data r))) /\
  JSMap.size (products (snd (add now genId data r)))
  <= JSMap.size (products r)
     + (if isOk (fst (add now genId data r)) then 1 else 0).
Proof.
  destruct (add now genId data r) as [out r1] eqn:A.
  destruct (add_products _ _ _ _ _ _ A) as [P _]. cbn [fst snd].
  destruct out as [e | id]; cbn [isOk].
  - rewrite P. lia.
  - destruct P as [p [_ [P _]]]. rewrite P. unfold JSMap.size.
    assert (L := length_set_le (products r) id p).
    destruct (JSMap.get id (products r)) as [old |] eqn:G.
    + rewrite (length_set_present _ _ _ _ G). lia.
    + rewrite (length_set_fresh _ _ _ G). lia.
Qed.

Lemma add_keysBelow now genId data r :
  noIdSupplied data -> keysBelow r ->
  keysBelow (snd (add now genId data r)) /\
  JSMap.size (products (snd (add now genId data r)))
  = JSMap.size (products r) + (if isOk (fst (add now genId data r)) then 1 else 0).
Proof.
  intros N [Pos K]. unfold noIdSupplied in N.
  unfold add. rewrite N.
  destruct (newProduct now genId (withProductId (nextId r) data)) as [e | p] eqn:NP;
    cbn [fst snd isOk].
  - unfold keysBelow. cbn [products setNextId nextId].
    split; [| lia]. split; [lia |].
    intros id I. apply K in I. lia.
  - assert (Ip : productId p = nextId r)
      by (apply (newProduct_productId now genId _ data); [lia | exact NP]).
    unfold keysBelow.
    cbn [updateIndexes products setProducts setNextId nextId]. rewrite Ip.
    assert (G : JSMap.get (nextId r) (products r) = None).
    { apply get_None_keys. intro I. apply K in I. lia. }
    split.
    + split; [lia |]. intros id I.
      apply keys_set in I. destruct I as [-> | I]; [lia | apply K in I; lia].
    + unfold JSMap.size. rewrite (length_set_fresh _ _ _ G). lia.
Qed.

Lemma emptyRepo_keysBelow : keysBelow emptyRepo.
Proof. split; [reflexivity | intros id []]. Qed.

Lemma bulkLoad_counts now genId ps :
  forall r : Repo,
  fst (fst (bulkLoad now genId ps r)) + snd (fst (bulkLoad now genId ps r))
  = Z.of_nat (List.length ps) /\
  0 <= fst (fst (bulkLoad now genId ps r)) /\
  0 <= snd (fst (bulkLoad now genId ps r)) /\
  JSMap.size (products r) <= JSMap.size (products (snd (bulkLoad now genId ps r))) /\
  JSMap.size (products (snd (bulkLoad now genId ps r)))
  <= JSMap.size (products r) + fst (fst (bulkLoad now genId ps r)).
Proof.
  induction ps as [| d ps IH]; intro r.
  - cbn. lia.
  - cbn [bulkLoad]. assert (S := add_size now genId d r).
    destruct (add now genId d r) as [out r1]. cbn [fst snd] in S.
    specialize (IH r1).
    destruct (bulkLoad now genId ps r1) as [[sc ec] r2]. cbn [fst snd] in IH.
    cbn [List.length]. rewrite Nat2Z.inj_succ.
    destruct out as [e | id]; cbn [fst snd isOk] in *; lia.
Qed.

Lemma bulkLoad_issued_ids now genId ps :
  forall r : Repo,
  Forall noIdSupplied ps -> keysBelow r ->
  keysBelow (snd (bulkLoad now genId ps r)) /\
  JSMap.size (products (snd (bulkLoad now genId ps r)))
  = JSMap.size (products r) + fst (fst (bulkLoad now genId ps r)).
Proof.
  induction ps as [| d ps IH]; intros r F K.
  - cbn. split; [exact K | lia].
  - inversion F as [| ? ? Fd Fps]; subst.
    cbn [bulkLoad]. destruct (add_keysBelow now genId d r Fd K) as [K1 S].
    destruct (add now genId d r) as [out r1]. cbn [fst snd] in K1, S.
    destruct (IH r1 Fps K1) as [K2 S2].
    destruct (bulkLoad now genId ps r1) as [[sc ec] r2]. cbn [fst snd] in *.
    split; [exact K2 |].
    destruct out as [e | id]; cbn [fst snd isOk] in *; lia.
Qed.

(** [bulkLoad] accounts for every element of its input: the two counts it
    returns are not negative and add up to the number of products given;
    the primary map never shrinks and grows by at most the number of
    successes, and by exactly that number when the repository issues the
    ids itself (no product brings an id, every stored id came from the
    counter). *)
Theorem bulkLoad_counts_every_product :
  forall (now genId : Z) (ps : list ProductData) (r : Repo),
  (fst (fst (bulkLoad now genId ps r)) + snd (fst (bulkLoad now genId ps r))
   = Z.of_nat (List.length ps) /\
   0 <= fst (fst (bulkLoad now genId ps r)) /\
   0 <= snd (fst (bulkLoad now genId ps r)) /\
   JSMap.size (products r) <= JSMap.size (products (snd (bulkLoad now genId ps r))) /\
   JSMap.size (products (snd (bulkLoad now genId ps r)))
   <= JSMap.size (products r) + fst (fst (bulkLoad now genId ps r))) /\
  (Forall noIdSupplied ps -> keysBelow r ->
   JSMap.size (products (snd (bulkLoad now genId ps r)))
   = JSMap.size (products r) + fst (fst (bulkLoad now genId ps r))).
Proof.
  intros now genId ps r. split; [apply bulkLoad_counts |].
  intros F K. now apply bulkLoad_issued_ids.
Qed.

(** ** The repository: listings *)

Lemma length_slice_le {A : Type} (a b : Z) (l : list A) :
  0 <= b -> Z.of_nat (List.length (slice a (a + b) l)) <= b.
Proof.
  intro B. unfold slice. rewrite length_firstn.
  set (n := Z.of_nat (List.length l)).
  destruct (a <? 0) eqn:A0; destruct (a + b <? 0) eqn:B0;
    try apply Z.ltb_lt in A0; try apply Z.ltb_ge in A0;
    try apply Z.ltb_lt in B0; try apply Z.ltb_ge in B0; lia.
Qed.

Lemma length_stored_le (r : Repo) (ids : list Z) :
  (List.length
     (flat_map (fun id => match JSMap.get id (products r) with
                          | Some p => [p]
                          | None => []
                          end) ids)
   <= List.length ids)%nat.
Proof.
  induction ids as [| id ids IH]; cbn [flat_map]; [apply Nat.le_refl |].
  rewrite length_app. destruct (JSMap.get id (products r)); cbn [List.length]; lia.
Qed.

Lemma length_firstStored (r : Repo) (ids : JSSet.t Z) (limit : Z) :
  0 <= limit -> Z.of_nat (List.length (firstStored r ids limit)) <= limit.
Proof.
  intro L. unfold firstStored.
  assert (A := length_stored_le r (slice 0 limit ids)).
  assert (B := length_slice_le 0 limit ids L). cbn [Z.add] in B. lia.
Qed.

(** [getByCategory] and [getByBrand] return at most [limit] products, and
    at most 100 when no limit is given; every product returned is stored
    under an id that the index lists for the lower-cased key. *)
Theorem listings_respect_the_limit :
  forall (r : Repo) (key : string) (limit : Z),
  0 <= limit ->
  Z.of_nat (List.length (getByCategory r key (Some limit))) <= limit /\
  Z.of_nat (List.length (getByBrand r key (Some limit))) <= limit /\
  Z.of_nat (List.length (getByCategory r key None)) <= 100 /\
  Z.of_nat (List.length (getByBrand r key None)) <= 100 /\
  (forall p : Product,
     In p (getByCategory r key (Some limit)) ->
     exists id : Z,
       In id (postings (Str.toLowerCase key) (categoryIndex r)) /\
       getById r id = Some p) /\
  (forall p : Product,
     In p (getByBrand r key (Some limit)) ->
     exists id : Z,
       In id (postings (Str.toLowerCase key) (brandIndex r)) /\
       getById r id = Some p).
Proof.
  intros r key limit L. unfold getByCategory, getByBrand.
  split; [now apply length_firstStored |].
  split; [now apply length_firstStored |].
  split; [apply length_firstStored; lia |].
  split; [apply length_firstStored; lia |].
  split; intros p I; unfold firstStored in I; apply In_stored in I;
    destruct I as [id [I G]]; exists id; (split; [| exact G]);
    eapply In_slice; exact I.
Qed.

(** An instance: the phone repository asked for one product of the
    category "MOBILE". *)
Lemma listings_respect_the_limit_witness :
  getByCategory phoneRepo "MOBILE" (Some 1) = [storedPhone] /\
  getByCategory phoneRepo "MOBILE" (Some 0) = [] /\
  Z.of_nat (List.length (getByCategory phoneRepo "MOBILE" (Some 1))) <= 1.
Proof.
  split; [vm_compute; reflexivity |]. split; [vm_compute; reflexivity |].
  apply (listings_respect_the_limit phoneRepo "MOBILE" 1). lia.
Defined.

Lemma insertSorted_Permutation {A : Type} (cmp : A -> A -> JsNum) (x : A) (l : list A) :
  Permutation (insertSorted cmp x l) (x :: l).
Proof.
  induction l as [| y l IH]; cbn [insertSorted]; [apply Permutation_refl |].
  destruct (isPositive (cmp x y)); [| apply Permutation_refl].
  eapply Permutation_trans; [apply perm_skip, IH | apply perm_swap].
Qed.

Lemma Array_sort_Permutation {A : Type} (cmp : A -> A -> JsNum) (l : list A) :
  Permutation (Array_sort cmp l) l.
Proof.
  unfold Array_sort. induction l as [| x l IH]; cbn [fold_right];
    [apply Permutation_refl |].
  eapply Permutation_trans; [apply insertSorted_Permutation | now apply perm_skip].
Qed.

Section SortedBy.
Context {A : Type} (cmp : A -> A -> JsNum) (R : A -> A -> Prop).
Hypothesis after : forall x y, isPositive (cmp x y) = true -> R y x.
Hypothesis before : forall x y, isPositive (cmp x y) = false -> R x y.

Lemma insertSorted_Sorted (x : A) (l : list A) :
  Sorted R l -> Sorted R (insertSorted cmp x l).
Proof.
  induction 1 as [| y l S IH Hd]; cbn [insertSorted].
  - repeat constructor.
  - destruct (isPositive (cmp x y)) eqn:C.
    + constructor; [exact IH |].
      destruct Hd as [| z l' Ryz]; cbn [insertSorted].
      * constructor. now apply after.
      * destruct (isPositive (cmp x z)); constructor; [exact Ryz | now apply after].
    + constructor; [now constructor |]. constructor. now apply before.
Qed.

Lemma Array_sort_Sorted (l : list A) : Sorted R (Array_sort cmp l).
Proof.
  unfold Array_sort. induction l as [| x l IH]; cbn [fold_right]; [constructor |].
  now apply insertSorted_Sorted.
Qed.

End SortedBy.

Lemma defaultCompare_after (x y : string) :
  isPositive (defaultCompare x y) = true -> strLe y x.
Proof.
  unfold defaultCompare, strLe, String.leb.
  rewrite (String.compare_antisym x y).
  destruct (String.compare y x); cbn; intro E; try discriminate; reflexivity.
Qed.

Lemma defaultCompare_before (x y : string) :
  isPositive (defaultCompare x y) = false -> strLe x y.
Proof.
  unfold defaultCompare, strLe, String.leb.
  destruct (String.compare x y); cbn; intro E; try discriminate; reflexivity.
Qed.

(** [getCategories()] and [getBrands()] list the keys of their index in
    ascending order, each key as often as the index has it (once, for a
    map). *)
Theorem getCategories_and_getBrands_are_sorted :
  forall r : Repo,
  Sorted strLe (getCategories r) /\
  Permutation (getCategories r) (JSMap.keys (categoryIndex r)) /\
  Sorted strLe (getBrands r) /\
  Permutation (getBrands r) (JSMap.keys (brandIndex r)).
Proof.
  intro r. unfold getCategories, getBrands.
  split; [apply Array_sort_Sorted;
          [apply defaultCompare_after | apply defaultCompare_before] |].
  split; [apply Array_sort_Permutation |].
  split; [apply Array_sort_Sorted;
          [apply defaultCompare_after | apply defaultCompare_before] |].
  apply Array_sort_Permutation.
Qed.

Lemma newProduct_category now genId data p :
  newProduct now genId data = inr p ->
  category p = d_category data /\ brand p = d_brand data.
Proof.
  unfold newProduct, bind.
  destruct (validateProduct _ _ _ _) as [e | []]; [discriminate |].
  intro E. injection E as <-. split; reflexivity.
Qed.

(** A product that was added with a category is listed under it, however
    the caller spells the category's case, as long as the limit is not
    below the number of products the category holds. *)
Theorem added_product_is_listed_under_its_category :
  forall (now genId : Z) (data : ProductData) (r : Repo) (id : Z) (r1 : Repo)
         (c key : string) (limit : Z),
  add now genId data r = (inr id, r1) ->
  d_category data = Some c ->
  c <> EmptyString ->
  Str.toLowerCase key = Str.toLowerCase c ->
  JSSet.size (postings (Str.toLowerCase c) (categoryIndex r1)) <= limit ->
  exists p : Product,
    getById r1 id = Some p /\ In p (getByCategory r1 key (Some limit)).
Proof.
  intros now genId data r id r1 c key limit A C N K L.
  destruct (add_inv _ _ _ _ _ _ A) as [p [r0 [Ip [R [G [_ [S _]]]]]]].
  destruct (add_products _ _ _ _ _ _ A) as [[p' [_ [P [id0 [NP _]]]]] _].
  assert (p' = p).
  { rewrite P, get_set_same in G. now injection G. }
  subst p'.
  destruct (newProduct_category _ _ _ _ NP) as [Cp _].
  cbn [withProductId d_category] in Cp. rewrite C in Cp.
  exists p. split; [exact G |].
  unfold getByCategory, firstStored. rewrite K.
  change limit with (0 + limit). rewrite (slice_whole limit _ L).
  apply In_stored. exists id. split; [| exact G].
  apply has_In. rewrite R. cbn [updateIndexes categoryIndex].
  unfold addToCategoryIndex. rewrite Cp.
  destruct c as [| a c]; [contradiction |]. cbn [truthyStr].
  rewrite Ip. apply indexAdd_has.
Qed.

(** An instance: the phone, added with the category "Mobile", is listed
    under "MOBILE". *)
Lemma added_product_is_listed_under_its_category_witness :
  add 1000 0 phoneData emptyRepo = (inr 1, phoneRepo) /\
  getByCategory phoneRepo "MOBILE" (Some 5) = [storedPhone] /\
  exists p : Product,
    getById phoneRepo 1 = Some p /\ In p (getByCategory phoneRepo "MOBILE" (Some 5)).
Proof.
  assert (A : add 1000 0 phoneData emptyRepo = (inr 1, phoneRepo))
    by (vm_compute; reflexivity).
  split; [exact A |]. split; [vm_compute; reflexivity |].
  apply (added_product_is_listed_under_its_category 1000 0 phoneData emptyRepo 1
           phoneRepo "Mobile" "MOBILE" 5 A);
    [reflexivity | discriminate | vm_compute; reflexivity | vm_compute; discriminate].
Defined.

(** ** Scores of the non-seasonal service *)

Lemma levRow_nonneg (c : ascii) (str1 : list ascii) :
  forall (prev : list Z) (left : Z),
  Forall (fun d => 0 <= d) prev -> 0 <= left ->
  Forall (fun d => 0 <= d) (levRow c str1 prev left).
Proof.
  induction str1 as [| a str1 IH]; intros prev left F L; cbn [levRow]; [constructor |].
  destruct prev as [| d [| u prev']]; try constructor.
  - inversion F as [| ? ? Fd F']; subst. inversion F' as [| ? ? Fu F'']; subst.
    destruct (ascii_dec c a); lia.
  - inversion F as [| ? ? Fd F']; subst. inversion F' as [| ? ? Fu F'']; subst.
    apply IH; [exact F' |]. destruct (ascii_dec c a); lia.
Qed.

Lemma levRows_nonneg (str1 str2 : list ascii) :
  forall (i : Z) (prev : list Z),
  0 <= i -> Forall (fun d => 0 <= d) prev ->
  Forall (fun d => 0 <= d) (levRows str1 str2 i prev).
Proof.
  induction str2 as [| c str2 IH]; intros i prev I F; cbn [levRows]; [exact F |].
  apply IH; [lia |]. constructor; [exact I |]. now apply levRow_nonneg.
Qed.

Lemma levenshteinDistance_nonneg (str1 str2 : string) :
  0 <= levenshteinDistance str1 str2.
Proof.
  unfold levenshteinDistance.
  set (rows := levRows _ _ _ _).
  assert (F : Forall (fun d => 0 <= d) rows).
  { unfold rows. apply levRows_nonneg; [lia |].
    apply Forall_forall. intros d I. apply in_map_iff in I.
    destruct I as [n [<- _]]. lia. }
  clearbody rows. induction F as [| d l Fd F IH]; cbn [last]; [lia |].
  destruct l; [exact Fd | exact IH].
Qed.

Lemma calculateFuzzyMatch_cases (term text : string) :
  calculateFuzzyMatch term text = 0%Q \/
  ((7 # 10) < calculateFuzzyMatch term text)%Q /\
  (calculateFuzzyMatch term text <= 1)%Q.
Proof.
  unfold calculateFuzzyMatch.
  destruct term as [| a term]; [now left |].
  destruct text as [| b text]; [now left |].
  set (d := levenshteinDistance _ _).
  set (m := Z.max _ _).
  destruct (m =? 0) eqn:M0; [now left |].
  destruct (Qgtb (1 - inject_Z d / inject_Z m) (7 # 10)) eqn:G; [| now left].
  right. unfold Qgtb in G. apply Qltb_lt in G. split; [exact G |].
  assert (D : 0 <= d) by apply levenshteinDistance_nonneg.
  assert (M : 0 < m).
  { unfold m, Str.len. cbn [String.length]. lia. }
  assert (Q0 : (0 <= inject_Z d / inject_Z m)%Q).
  { apply Qle_shift_div_l.
    - change 0%Q with (inject_Z 0). now rewrite <- Zlt_Qlt.
    - rewrite Qmult_0_l. change 0%Q with (inject_Z 0). now rewrite <- Zle_Qle. }
  lra.
Qed.

Lemma termRelevance_bounds (ttl descr text term : string) :
  (0 <= termRelevance ttl descr text term)%Q /\
  (termRelevance ttl descr text term <= 1)%Q.
Proof.
  unfold termRelevance.
  set (r0 := if Str.includes ttl term then _ else _).
  assert (R0 : (0 <= r0)%Q).
  { unfold r0. destruct (Str.includes ttl term); [| lra].
    destruct (String.eqb ttl term); [lra |].
    destruct (Str.startsWith ttl term || Str.endsWith ttl term)%bool; lra. }
  clearbody r0.
  set (r1 := if Str.includes descr term then _ else _).
  assert (R1 : (0 <= r1)%Q) by (unfold r1; destruct (Str.includes descr term); lra).
  clearbody r1.
  set (r2 := if Str.includes text term then _ else _).
  assert (R2 : (0 <= r2)%Q) by (unfold r2; destruct (Str.includes text term); lra).
  clearbody r2.
  assert (F := calculateFuzzyMatch_cases term ttl).
  set (f := calculateFuzzyMatch term ttl) in *. clearbody f.
  assert (F0 : (0 <= f)%Q) by (destruct F as [-> | [F _]]; lra).
  split.
  - apply Q.min_glb; lra.
  - apply Q.le_min_l.
Qed.

Lemma fold_sum_bounds (f : string -> Q) (l : list string) :
  (forall t, 0 <= f t /\ f t <= 1)%Q ->
  forall acc : Q,
  (acc <= fold_left (fun a t => a + f t) l acc)%Q /\
  (fold_left (fun a t => a + f t) l acc
   <= acc + inject_Z (Z.of_nat (List.length l)))%Q.
Proof.
  intro B. induction l as [| t l IH]; intro acc; cbn [fold_left List.length].
  - change (inject_Z (Z.of_nat 0)) with 0%Q. split; lra.
  - destruct (IH (acc + f t)%Q) as [L U]. destruct (B t) as [B0 B1].
    rewrite Nat2Z.inj_succ, <- Z.add_1_r, inject_Z_plus.
    change (inject_Z 1) with 1%Q. split; lra.
Qed.

Lemma calculateTextRelevance_bounds (p : Product) (sq : SearchQuery) :
  (0 <= calculateTextRelevance p sq)%Q /\ (calculateTextRelevance p sq <= 1)%Q.
Proof.
  unfold calculateTextRelevance.
  destruct (query sq) as [| c q]; [lra |].
  destruct (getSearchTerms sq) as [| t ts] eqn:T; [lra |].
  set (l := t :: ts).
  set (f := termRelevance _ _ _).
  destruct (fold_sum_bounds f l (fun t => termRelevance_bounds _ _ _ t) 0) as [L U].
  set (total := fold_left _ l 0%Q) in *. clearbody total.
  assert (N : (0 < inject_Z (Z.of_nat (List.length l)))%Q).
  { change 0%Q with (inject_Z 0). rewrite <- Zlt_Qlt. unfold l. cbn [List.length]. lia. }
  split.
  - apply Qle_shift_div_l; [exact N | lra].
  - apply Qle_shift_div_r; [exact N | lra].
Qed.

(** The text relevance of a product for a query lies between 0 and 1, and
    the fuzzy match it uses is 0 unless the similarity exceeds 0.7, in
    which case it is the similarity, at most 1; the edit distance is
    never negative. *)
Theorem text_relevance_and_fuzzy_match_ranges :
  forall (p : Product) (sq : SearchQuery) (term text : string),
  ((0 <= calculateTextRelevance p sq)%Q /\ (calculateTextRelevance p sq <= 1)%Q) /\
  (calculateFuzzyMatch term text = 0%Q \/
   ((7 # 10) < calculateFuzzyMatch term text)%Q /\
   (calculateFuzzyMatch term text <= 1)%Q) /\
  0 <= levenshteinDistance term text.
Proof.
  intros p sq term text.
  split; [apply calculateTextRelevance_bounds |].
  split; [apply calculateFuzzyMatch_cases | apply levenshteinDistance_nonneg].
Qed.

Lemma orElse_nonneg (x : option Q) (d : Q) :
  (0 <= d)%Q -> (forall q, x = Some q -> (0 <= q)%Q) -> (0 <= orElse x d)%Q.
Proof.
  intros D X. unfold orElse. destruct x as [q |]; [| exact D].
  destruct (Qis0 q); [exact D | now apply X].
Qed.

Lemma orElse_le (x d b : Q) : (d <= b)%Q -> (x <= b)%Q -> (orElse (Some x) d <= b)%Q.
Proof. intros D X. unfold orElse. destruct (Qis0 x); assumption. Qed.

Lemma Qmin1_bounds (x : Q) : (0 <= x)%Q -> (0 <= Qmin 1 x)%Q /\ (Qmin 1 x <= 1)%Q.
Proof. intro X. split; [apply Q.min_glb; lra | apply Q.le_min_l]. Qed.

Lemma calculateQualityScore_bounds (p : Product) :
  (0 <= rating p)%Q -> (rating p <= 5)%Q ->
  (forall x, returnRate (analytics p) = Some x -> (0 <= x)%Q) ->
  (0 <= calculateQualityScore p)%Q /\ (calculateQualityScore p <= 1)%Q.
Proof.
  intros R0 R5 RR. unfold calculateQualityScore.
  assert (A0 : (0 <= orElse (Some (rating p)) 0)%Q).
  { apply orElse_nonneg; [lra |]. intros q E. now injection E as <-. }
  assert (A5 : (orElse (Some (rating p)) 0 <= 5)%Q) by (apply orElse_le; lra).
  set (a := orElse (Some (rating p)) 0) in *. clearbody a.
  assert (B : (0 <= orElse (returnRate (analytics p)) (1 # 10))%Q)
    by (apply orElse_nonneg; [lra | exact RR]).
  destruct (Qmin1_bounds _ B) as [M0 M1].
  set (m := Qmin 1 _) in *. clearbody m.
  assert (S0 : (0 <= a / 5)%Q) by (apply Qle_shift_div_l; lra).
  assert (S1 : (a / 5 <= 1)%Q) by (apply Qle_shift_div_r; lra).
  set (s := (a / 5)%Q) in *. clearbody s.
  split; lra.
Qed.

Lemma calculateBusinessScore_bounds (p : Product) :
  (0 <= price p)%Q ->
  (forall x, profitMargin (analytics p) = Some x -> (0 <= x)%Q) ->
  (0 <= calculateBusinessScore p)%Q /\ (calculateBusinessScore p <= 1)%Q.
Proof.
  intros P PM. unfold calculateBusinessScore.
  set (stockScore := if Qgtb (stock p) 0 then _ else _).
  assert (S : (0 <= stockScore)%Q /\ (stockScore <= 1)%Q).
  { unfold stockScore. destruct (Qgtb (stock p) 0); [| split; lra].
    destruct (Qgtb (stock p) 100); [split; lra |].
    destruct (Qgtb (stock p) 10); split; lra. }
  clearbody stockScore. destruct S as [S0 S1].
  destruct (calculateDiscount_is_a_percentage_aux p P) as [D0 D1].
  assert (D : (0 <= inject_Z (calculateDiscount p) / 50)%Q).
  { apply Qle_shift_div_l; [lra |]. rewrite Qmult_0_l.
    change 0%Q with (inject_Z 0). now rewrite <- Zle_Qle. }
  destruct (Qmin1_bounds _ D) as [A0 A1].
  set (priceScore := Qmin 1 _) in *. clearbody priceScore.
  assert (B : (0 <= orElse (profitMargin (analytics p)) (2 # 10))%Q)
    by (apply orElse_nonneg; [lra | exact PM]).
  assert (B' : (0 <= orElse (profitMargin (analytics p)) (2 # 10) / (5 # 10))%Q)
    by (apply Qle_shift_div_l; lra).
  destruct (Qmin1_bounds _ B') as [C0 C1].
  set (profitScore := Qmin 1 _) in *. clearbody profitScore.
  split; lra.
Qed.

(** The quality score and the business score of a product lie between 0
    and 1 when the product passes [validate()] and its analytics carry no
    negative return rate or profit margin. *)
Theorem quality_and_business_scores_in_unit_interval :
  forall p : Product,
  validFields p ->
  ratesNonNegative (analytics p) ->
  ((0 <= calculateQualityScore p)%Q /\ (calculateQualityScore p <= 1)%Q) /\
  ((0 <= calculateBusinessScore p)%Q /\ (calculateBusinessScore p <= 1)%Q).
Proof.
  intros p [_ [P [R0 [R5 _]]]] [RR PM]. split.
  - now apply calculateQualityScore_bounds.
  - apply calculateBusinessScore_bounds; [lra | exact PM].
Qed.

(** An instance: the stored phone. *)
Lemma quality_and_business_scores_in_unit_interval_witness :
  validFields storedPhone /\
  ratesNonNegative (analytics storedPhone) /\
  (calculateQualityScore storedPhone == 9 # 10)%Q /\
  ((0 <= calculateQualityScore storedPhone)%Q /\
   (calculateQualityScore storedPhone <= 1)%Q) /\
  ((0 <= calculateBusinessScore storedPhone)%Q /\
   (calculateBusinessScore storedPhone <= 1)%Q).
Proof.
  assert (V : validFields storedPhone).
  { unfold validFields. repeat split; vm_compute; discriminate. }
  assert (N : ratesNonNegative (analytics storedPhone)).
  { split; intros x E; discriminate. }
  split; [exact V |]. split; [exact N |]. split; [vm_compute; reflexivity |].
  exact (quality_and_business_scores_in_unit_interval storedPhone V N).
Defined.

(** ** Responses of the non-seasonal service *)

Lemma differsCI_false (a : option string) (b : string) :
  differsCI a b = inr false -> sameIgnoringCase a b.
Proof.
  unfold differsCI. destruct a as [s |]; [| discriminate].
  intro E. injection E as E. apply negb_false_iff, String.eqb_eq in E.
  exists s. auto.
Qed.

Lemma matchesFilters_true (sq : SearchQuery) (p : Product) :
  matchesFilters sq p = inr true ->
  (forall c, truthyStr (q_category sq) = Some c -> sameIgnoringCase (category p) c) /\
  (forall b, truthyStr (q_brand sq) = Some b -> sameIgnoringCase (brand p) b) /\
  (forall m, minPrice sq = Some m -> (m <= price p)%Q) /\
  (forall m, maxPrice sq = Some m -> (price p <= m)%Q) /\
  (forall m, minRating sq = Some m -> (m <= rating p)%Q) /\
  (inStock sq = true -> (0 < stock p)%Q).
Proof.
  unfold matchesFilters, bind.
  destruct (match truthyStr (q_category sq) with
            | Some c => differsCI (category p) c
            | None => inr false
            end) as [e | [|]] eqn:C; try discriminate.
  destruct (match truthyStr (q_brand sq) with
            | Some b => differsCI (brand p) b
            | None => inr false
            end) as [e | [|]] eqn:B; try discriminate.
  destruct (match minPrice sq with Some m => Qltb (price p) m | None => false end)
    eqn:P1; [discriminate |].
  destruct (match maxPrice sq with Some m => Qgtb (price p) m | None => false end)
    eqn:P2; [discriminate |].
  destruct (match minRating sq with Some m => Qltb (rating p) m | None => false end)
    eqn:R; [discriminate |].
  destruct (inStock sq && Qle_bool (stock p) 0)%bool eqn:S; [discriminate |].
  intros _. repeat split.
  - intros c E. rewrite E in C. now apply differsCI_false.
  - intros b E. rewrite E in B. now apply differsCI_false.
  - intros m E. rewrite E in P1. now apply Qltb_ge.
  - intros m E. rewrite E in P2. unfold Qgtb in P2. now apply Qltb_ge.
  - intros m E. rewrite E in R. now apply Qltb_ge.
  - intros E. rewrite E in S. cbn in S. now apply Qle_bool_gt.
Qed.

Lemma projectCandidate_fields (c : Candidate) :
  r_price (projectCandidate c) = price (fieldsOf c) /\
  r_rating (projectCandidate c) = rating (fieldsOf c) /\
  r_stock (projectCandidate c) = stock (fieldsOf c) /\
  r_category (projectCandidate c) = category (fieldsOf c) /\
  r_brand (projectCandidate c) = brand (fieldsOf c) /\
  r_productId (projectCandidate c) = productId (fieldsOf c).
Proof.
  unfold projectCandidate. destruct (hasToSearchResult c); repeat split.
Qed.

(** Every entry of a search response satisfies the filters of the query:
    category and brand agree up to case, the price lies within the
    bounds, the rating is not below the minimum, and with [inStock] the
    stock is positive.  Every entry stems from a product of the
    repository. *)
Theorem every_result_satisfies_the_filters :
  forall (ln : Q -> Q) (r : Repo) (sq : SearchQuery) (el : Z) (resp : Response),
  performSearch ln r sq el = inr resp ->
  forall item : SearchResult,
    In item (data resp) ->
    satisfiesFilters sq item /\
    exists p : Product,
      In p (initialMatches r sq) /\ r_productId item = productId p.
Proof.
  intros ln r sq el resp E item I.
  destruct (performSearch_inv _ _ _ _ _ E) as [filtered [F [D _]]].
  rewrite D in I. apply in_map_iff in I. destruct I as [c [<- I]].
  apply pageCandidates_In in I. destruct I as [p [I ->]].
  rewrite (filterM_filter _ _ _ F) in I. apply filter_passes_In in I.
  destruct I as [I M].
  destruct (projectCandidate_fields (Plain p (calculateRelevanceScore ln r p sq)))
    as [E1 [E2 [E3 [E4 [E5 E6]]]]].
  cbn [fieldsOf] in *.
  split.
  - unfold satisfiesFilters. rewrite E1, E2, E3, E4, E5.
    now apply matchesFilters_true.
  - exists p. split; [exact I | exact E6].
Qed.

(** An instance: the phone repository searched for products in stock from
    5000 up, cheapest first. *)
Lemma every_result_satisfies_the_filters_witness :
  exists resp : Response,
    performSearch lnUpper phoneRepo cheapestFirst 5 = inr resp /\
    map r_productId (data resp) = [1] /\
    Forall (satisfiesFilters cheapestFirst) (data resp).
Proof.
  eexists. split; [vm_compute; reflexivity |]. split; [reflexivity |].
  apply Forall_forall. intros item I.
  eapply (every_result_satisfies_the_filters lnUpper phoneRepo cheapestFirst 5);
    [vm_compute; reflexivity | exact I].
Defined.

Lemma StronglySorted_skipn {A : Type} (R : A -> A -> Prop) (n : nat) (l : list A) :
  StronglySorted R l -> StronglySorted R (skipn n l).
Proof.
  revert l. induction n as [| n IH]; intros l S; [exact S |].
  destruct l as [| x l]; [constructor |].
  cbn [skipn]. apply IH. now inversion S.
Qed.

Lemma StronglySorted_firstn {A : Type} (R : A -> A -> Prop) (n : nat) (l : list A) :
  StronglySorted R l -> StronglySorted R (firstn n l).
Proof.
  revert l. induction n as [| n IH]; intros l S; [constructor |].
  destruct l as [| x l]; [constructor |].
  cbn [firstn]. inversion S as [| ? ? S' F]; subst. constructor; [now apply IH |].
  apply Forall_forall. intros y I. rewrite Forall_forall in F.
  apply F. eapply In_firstn_In. exact I.
Qed.

Lemma StronglySorted_slice {A : Type} (R : A -> A -> Prop) (a b : Z) (l : list A) :
  StronglySorted R l -> StronglySorted R (slice a b l).
Proof.
  intro S. unfold slice. now apply StronglySorted_firstn, StronglySorted_skipn.
Qed.

Lemma StronglySorted_map {A B : Type} (f : A -> B) (R : A -> A -> Prop)
  (R' : B -> B -> Prop) (l : list A) :
  (forall x y, R x y -> R' (f x) (f y)) ->
  StronglySorted R l -> StronglySorted R' (map f l).
Proof.
  intros M. induction 1 as [| x l S IH F]; cbn [map]; constructor; [exact IH |].
  apply Forall_forall. intros y I. apply in_map_iff in I.
  destruct I as [x' [<- I]]. rewrite Forall_forall in F. apply M. now apply F.
Qed.

Lemma Array_sort_by_price (up : bool) (l : list Candidate) :
  StronglySorted
    (fun a b => if up then (price (fieldsOf a) <= price (fieldsOf b))%Q
                else (price (fieldsOf b) <= price (fieldsOf a))%Q)
    (Array_sort (sortFunction (if up then "price_low" else "price_high")) l).
Proof.
  apply Sorted_StronglySorted.
  - intros x y z. destruct up; intros A B; lra.
  - apply Array_sort_Sorted; intros x y; destruct up; cbn; unfold Qgtb;
      intro E; try apply Qltb_lt in E; try apply Qltb_ge in E; lra.
Qed.

(** With [sortBy] "price_low" the entries of a response are in ascending
    order of price, with "price_high" in descending order: every entry
    costs no more (no less) than every entry after it. *)
Theorem price_sort_orders_the_response :
  forall (ln : Q -> Q) (r : Repo) (sq : SearchQuery) (el : Z) (resp : Response),
  performSearch ln r sq el = inr resp ->
  (sortBy sq = "price_low"%string ->
   StronglySorted (fun a b => (r_price a <= r_price b)%Q) (data resp)) /\
  (sortBy sq = "price_high"%string ->
   StronglySorted (fun a b => (r_price b <= r_price a)%Q) (data resp)).
Proof.
  intros ln r sq el resp E.
  destruct (performSearch_inv _ _ _ _ _ E) as [filtered [_ [D _]]].
  rewrite D. unfold pageCandidates.
  split; intro S; rewrite S.
  - eapply StronglySorted_map; [| apply StronglySorted_slice;
                                   exact (Array_sort_by_price true _)].
    intros x y. cbn beta iota.
    destruct (projectCandidate_fields x) as [-> _].
    destruct (projectCandidate_fields y) as [-> _]. auto.
  - eapply StronglySorted_map; [| apply StronglySorted_slice;
                                   exact (Array_sort_by_price false _)].
    intros x y. cbn beta iota.
    destruct (projectCandidate_fields x) as [-> _].
    destruct (projectCandidate_fields y) as [-> _]. auto.
Qed.

(** An instance: the query of the phone repository sorted by ascending
    price. *)
Lemma price_sort_orders_the_response_witness :
  exists resp : Response,
    performSearch lnUpper phoneRepo cheapestFirst 5 = inr resp /\
    map r_price (data resp) = [12000%Q] /\
    (sortBy cheapestFirst = "price_low"%string ->
     StronglySorted (fun a b => (r_price a <= r_price b)%Q) (data resp)).
Proof.
  eexists. split; [vm_compute; reflexivity |]. split; [reflexivity |].
  eapply (price_sort_orders_the_response lnUpper phoneRepo cheapestFirst 5).
  vm_compute. reflexivity.
Defined.

Lemma length_slice {A : Type} (a b : Z) (l : list A) :
  0 <= a -> 0 <= b ->
  Z.of_nat (List.length (slice a (a + b) l))
  = Z.min b (Z.max 0 (Z.of_nat (List.length l) - a)).
Proof.
  intros A0 B0. unfold slice. rewrite length_firstn, length_skipn.
  replace (a <? 0) with false by (symmetry; apply Z.ltb_ge; lia).
  replace (a + b <? 0) with false by (symmetry; apply Z.ltb_ge; lia).
  lia.
Qed.

(** The page of a response, for a limit and an offset that are not
    negative: it holds [min(limit, max(0, total - offset))] entries,
    [hasNext] tells exactly whether results remain behind the page and
    [hasPrevious] whether the offset is positive; [totalResults] counts
    the products that pass the filters, not the page. *)
Theorem response_pagination :
  forall (ln : Q -> Q) (r : Repo) (sq : SearchQuery) (el : Z) (resp : Response),
  performSearch ln r sq el = inr resp ->
  0 <= offset sq ->
  0 <= limit sq ->
  Z.of_nat (List.length (data resp))
  = Z.min (limit sq) (Z.max 0 (totalResults resp - offset sq)) /\
  (hasNext (pagination resp) = true <->
   offset sq + Z.of_nat (List.length (data resp)) < totalResults resp) /\
  (hasPrevious (pagination resp) = true <-> 0 < offset sq) /\
  totalResults resp
  = Z.of_nat (List.length (filter (passes (matchesFilters sq)) (initialMatches r sq))).
Proof.
  intros ln r sq el resp E O L.
  destruct (performSearch_inv _ _ _ _ _ E) as [filtered [F [D T]]].
  assert (Len : Z.of_nat (List.length (data resp))
                = Z.min (limit sq) (Z.max 0 (totalResults resp - offset sq))).
  { rewrite D, length_map. unfold pageCandidates.
    rewrite (length_slice _ _ _ O L), length_Array_sort. unfold scoreAll.
    rewrite length_map, T. reflexivity. }
  unfold performSearch, bind in E. rewrite F in E. injection E as <-.
  cbn [pagination hasNext hasPrevious totalResults data] in *.
  split; [exact Len |]. split; [| split].
  - rewrite Z.ltb_lt, Len. lia.
  - apply Z.ltb_lt.
  - rewrite length_Array_sort. unfold scoreAll. rewrite length_map.
    now rewrite (filterM_filter _ _ _ F).
Qed.

(** An instance: the first page of the phone repository. *)
Lemma response_pagination_witness :
  exists resp : Response,
    performSearch lnUpper phoneRepo emptyQuery 5 = inr resp /\
    totalResults resp = 1 /\
    hasNext (pagination resp) = false /\
    Z.of_nat (List.length (data resp))
    = Z.min (limit emptyQuery) (Z.max 0 (totalResults resp - offset emptyQuery)).
Proof.
  eexists. split; [vm_compute; reflexivity |]. split; [reflexivity |].
  split; [reflexivity |].
  eapply (response_pagination lnUpper phoneRepo emptyQuery 5);
    [vm_compute; reflexivity | vm_compute; discriminate | vm_compute; discriminate].
Defined.

(** ** The result cache: statistics and staleness *)

Lemma getFromCache_stats now key s :
  cacheStats (snd (getFromCache now key s)) = cacheStats s.
Proof.
  unfold getFromCache. destruct (JSMap.get key (searchCache s)) as [c |];
    [| reflexivity].
  destruct (now - ce_timestamp c <? cacheTTL); reflexivity.
Qed.

Lemma search_counters ln clk r params s :
  let s' := snd (search ln clk r params s) in
  hits (cacheStats s') + misses (cacheStats s')
  = hits (cacheStats s) + misses (cacheStats s)
    + (if isOk (newSearchQuery params) then 1 else 0) /\
  hits (cacheStats s) <= hits (cacheStats s') /\
  misses (cacheStats s) <= misses (cacheStats s').
Proof.
  unfold search.
  destruct (newSearchQuery params) as [e | sq]; cbn [isOk snd]; [lia |].
  assert (G := getFromCache_stats (atGet clk) (generateCacheKey sq) s).
  destruct (getFromCache _ _ s) as [[cached |] s1]; cbn [snd] in G.
  - cbn [snd cacheStats hits misses]. rewrite G. lia.
  - destruct (performSearch ln r sq (elapsed clk)) as [e | resp]; cbn [snd].
    + cbn [cacheStats hits misses]. rewrite G. lia.
    + destruct (addToCache_stats (atPut clk) (generateCacheKey sq) resp
                  (mkService (searchCache s1)
                     (mkCacheStats (hits (cacheStats s1)) (misses (cacheStats s1) + 1)
                        (evictions (cacheStats s1))))) as [H M].
      rewrite H, M. cbn [cacheStats hits misses]. rewrite G. lia.
Qed.

Lemma runSearches_counters ln calls :
  forall s : Service,
  hits (cacheStats (runSearches ln calls s)) + misses (cacheStats (runSearches ln calls s))
  = hits (cacheStats s) + misses (cacheStats s) + validCalls calls /\
  hits (cacheStats s) <= hits (cacheStats (runSearches ln calls s)) /\
  misses (cacheStats s) <= misses (cacheStats (runSearches ln calls s)).
Proof.
  unfold runSearches, validCalls.
  induction calls as [| c calls IH]; intro s; cbn [fold_left filter List.length].
  - lia.
  - destruct (search_counters ln (fst (fst c)) (snd (fst c)) (snd c) s) as [A [B C]].
    destruct (IH (snd (search ln (fst (fst c)) (snd (fst c)) (snd c) s)))
      as [A' [B' C']].
    destruct (isOk (newSearchQuery (snd c))); cbn [List.length];
      try rewrite Nat2Z.inj_succ; lia.
Qed.

Lemma getCacheHitRate_bounds (s : Service) :
  statsNonNegative s -> 0 <= getCacheHitRate s /\ getCacheHitRate s <= 100.
Proof.
  intros [H M]. unfold getCacheHitRate.
  set (h := hits (cacheStats s)) in *. set (m := misses (cacheStats s)) in *.
  destruct (0 <? h + m) eqn:T; [| lia]. apply Z.ltb_lt in T.
  assert (T' : (0 < inject_Z (h + m))%Q)
    by (change 0%Q with (inject_Z 0); now rewrite <- Zlt_Qlt).
  assert (H' : (0 <= inject_Z h)%Q)
    by (change 0%Q with (inject_Z 0); now rewrite <- Zle_Qle).
  assert (L : (inject_Z h <= inject_Z (h + m))%Q) by (rewrite <- Zle_Qle; lia).
  assert (A : (0 <= inject_Z h / inject_Z (h + m))%Q)
    by (apply Qle_shift_div_l; [exact T' | lra]).
  assert (B : (inject_Z h / inject_Z (h + m) <= 1)%Q)
    by (apply Qle_shift_div_r; [exact T' | lra]).
  set (q := (inject_Z h / inject_Z (h + m))%Q) in *. clearbody q.
  apply Math_round_bounds.
  - change (inject_Z 0) with 0%Q. lra.
  - change (inject_Z 100) with 100%Q. lra.
Qed.

(** The statistics of the cache count the searches: after any sequence of
    calls on a fresh service, hits and misses add up to the number of
    calls whose parameters were valid (a rejected call touches no
    counter), and the hit rate is a percentage between 0 and 100, 0 when
    nothing was counted. *)
Theorem cache_statistics_count_the_searches :
  forall (ln : Q -> Q) (calls : list Call),
  hits (cacheStats (runSearches ln calls newService))
  + misses (cacheStats (runSearches ln calls newService)) = validCalls calls /\
  statsNonNegative (runSearches ln calls newService) /\
  0 <= getCacheHitRate (runSearches ln calls newService) <= 100 /\
  (validCalls calls = 0 -> getCacheHitRate (runSearches ln calls newService) = 0).
Proof.
  intros ln calls.
  destruct (runSearches_counters ln calls newService) as [A [B C]].
  cbn [newService cacheStats hits misses] in A, B, C.
  assert (N : statsNonNegative (runSearches ln calls newService)) by (split; lia).
  split; [lia |]. split; [exact N |]. split; [now apply getCacheHitRate_bounds |].
  intro Z0. unfold getCacheHitRate.
  replace (0 <? _ + _) with false; [reflexivity |].
  symmetry. apply Z.ltb_ge. lia.
Qed.

(** The cache is never invalidated: once a search has returned a
    response, the same parameters get that very response again until the
    entry expires, whatever the catalog holds by then. *)
Theorem cached_response_survives_catalog_changes :
  forall (ln : Q -> Q) (clk1 : Clock) (r : Repo) (params : QueryParams)
         (s : Service) (resp : Response) (s1 : Service),
  search ln clk1 r params s = (inr resp, s1) ->
  exists ts : Z,
    cachedAt params s1 = Some ts /\
    forall (clk2 : Clock) (r2 : Repo),
      atGet clk2 - ts < cacheTTL ->
      search ln clk2 r2 params s1 = (inr resp, countHit s1).
Proof.
  intros ln clk1 r params s resp s1 E.
  destruct (search_caches_response _ _ _ _ _ _ _ E) as [sq [ts [Q [G _]]]].
  exists ts. split.
  - unfold cachedAt. now rewrite Q, G.
  - intros clk2 r2 T.
    exact (search_hit ln clk2 r2 params s1 sq _ Q G T).
Qed.

(** An instance: a search over the empty catalog at time 0, then the same
    search over the catalog that holds the phone: the answer is still
    empty. *)
Lemma cached_response_survives_catalog_changes_witness :
  exists (resp : Response) (s1 : Service),
    search lnUpper sampleClock emptyRepo noParams newService = (inr resp, s1) /\
    data resp = [] /\
    map r_productId
      (match fst (search lnUpper sampleClock phoneRepo noParams newService) with
       | inr fresh => data fresh
       | inl _ => []
       end) = [1] /\
    search lnUpper (mkClock 200000 7 200010) phoneRepo noParams s1
    = (inr resp, countHit s1) /\
    exists ts : Z,
      cachedAt noParams s1 = Some ts /\
      forall (clk2 : Clock) (r2 : Repo),
        atGet clk2 - ts < cacheTTL ->
        search lnUpper clk2 r2 noParams s1 = (inr resp, countHit s1).
Proof.
  eexists. eexists. split; [vm_compute; reflexivity |].
  split; [reflexivity |]. split; [vm_compute; reflexivity |].
  split; [vm_compute; reflexivity |].
  eapply (cached_response_survives_catalog_changes lnUpper sampleClock emptyRepo
            noParams newService).
  vm_compute. reflexivity.
Defined.

(** ** Suggestions *)

Lemma NoDup_skipn {A : Type} (n : nat) (l : list A) : NoDup l -> NoDup (skipn n l).
Proof.
  revert l. induction n as [| n IH]; intros l N; [exact N |].
  destruct l as [| x l]; [constructor |]. cbn [skipn]. apply IH. now inversion N.
Qed.

Lemma NoDup_firstn {A : Type} (n : nat) (l : list A) : NoDup l -> NoDup (firstn n l).
Proof.
  revert l. induction n as [| n IH]; intros l N; [constructor |].
  destruct l as [| x l]; [constructor |]. cbn [firstn].
  inversion N as [| ? ? X N']; subst. constructor; [| now apply IH].
  intro I. apply X. eapply In_firstn_In. exact I.
Qed.

Lemma map_slice {A B : Type} (f : A -> B) (a b : Z) (l : list A) :
  map f (slice a b l) = slice a b (map f l).
Proof. unfold slice. now rewrite length_map, skipn_map, firstn_map. Qed.

Lemma NoDup_slice {A : Type} (a b : Z) (l : list A) : NoDup l -> NoDup (slice a b l).
Proof. intro N. unfold slice. now apply NoDup_firstn, NoDup_skipn. Qed.

Section SuggestionCounts.
Variable lastTerm : string.

Lemma countWord_wf (m : JSMap.t string Z) (word : string) :
  suggestionsWf lastTerm m -> suggestionsWf lastTerm (countWord lastTerm m word).
Proof.
  intros [N S]. unfold countWord.
  destruct (Str.startsWith word lastTerm && (Str.len lastTerm <=? Str.len word))%bool
    eqn:C; [| now split].
  apply andb_true_iff in C. destruct C as [C _]. split.
  - now apply NoDup_keys_set.
  - intros w I. apply keys_set in I. destruct I as [-> | I]; [exact C | now apply S].
Qed.

Lemma countField_wf (m : JSMap.t string Z) (field : option string) :
  suggestionsWf lastTerm m -> suggestionsWf lastTerm (countField lastTerm m field).
Proof.
  unfold countField. destruct (truthyStr field) as [f |]; [| auto].
  generalize (Str.splitWs (Str.toLowerCase f)). intro ws. revert m.
  induction ws as [| w ws IH]; intros m W; cbn [fold_left]; [exact W |].
  apply IH. now apply countWord_wf.
Qed.

Lemma countProduct_wf (m : JSMap.t string Z) (p : Product) :
  suggestionsWf lastTerm m -> suggestionsWf lastTerm (countProduct lastTerm m p).
Proof.
  unfold countProduct. generalize (suggestionFields p). intro fs. revert m.
  induction fs as [| f fs IH]; intros m W; cbn [fold_left]; [exact W |].
  apply IH. now apply countField_wf.
Qed.

Lemma countProducts_wf (ps : list Product) (m : JSMap.t string Z) :
  suggestionsWf lastTerm m ->
  suggestionsWf lastTerm (fold_left (countProduct lastTerm) ps m).
Proof.
  revert m. induction ps as [| p ps IH]; intros m W; cbn [fold_left]; [exact W |].
  apply IH. now apply countProduct_wf.
Qed.

End SuggestionCounts.

(** [getSuggestions] returns at most [limit] words, no word twice, every
    one of them starting with the lower-cased last term of the partial
    query, which has at least two characters; a partial query whose last
    term is shorter (the empty query, a query ending in white space) gets
    no suggestion. *)
Theorem getSuggestions_are_distinct_completions :
  forall (r : Repo) (partialQuery : string) (limit : Z),
  0 <= limit ->
  Z.of_nat (List.length (getSuggestions r partialQuery (Some limit))) <= limit /\
  NoDup (getSuggestions r partialQuery (Some limit)) /\
  (forall w : string,
     In w (getSuggestions r partialQuery (Some limit)) ->
     Str.startsWith w (lastTermOf partialQuery) = true /\
     2 <= Str.len (lastTermOf partialQuery)) /\
  (Str.len (lastTermOf partialQuery) < 2 ->
   getSuggestions r partialQuery (Some limit) = []).
Proof.
  intros r partialQuery limit L. unfold getSuggestions.
  fold (lastTermOf partialQuery). set (lt := lastTermOf partialQuery).
  destruct (Str.len lt <? 2) eqn:T.
  - apply Z.ltb_lt in T. cbn [List.length].
    split; [lia |]. split; [constructor |]. split; [intros w [] | reflexivity].
  - apply Z.ltb_ge in T.
    set (m := fold_left (countProduct lt) (JSMap.values (products r)) JSMap.empty).
    assert (W : suggestionsWf lt m).
    { unfold m. apply countProducts_wf. split; [constructor | intros w []]. }
    destruct W as [N S].
    set (sorted := Array_sort _ m).
    assert (P : Permutation (map fst sorted) (JSMap.keys m)).
    { unfold sorted, JSMap.keys. apply Permutation_map, Array_sort_Permutation. }
    rewrite map_slice.
    split; [| split; [| split]].
    + exact (length_slice_le 0 limit (map fst sorted) L).
    + apply NoDup_slice. eapply Permutation_NoDup; [apply Permutation_sym, P | exact N].
    + intros w I. split; [| lia]. apply S.
      eapply Permutation_in; [exact P |]. eapply In_slice. exact I.
    + lia.
Qed.

(** An instance: the phone repository asked to complete "old ph". *)
Lemma getSuggestions_are_distinct_completions_witness :
  getSuggestions phoneRepo "old ph" (Some 5) = ["phone"%string] /\
  getSuggestions phoneRepo "phone " (Some 5) = [] /\
  getSuggestions phoneRepo "Old Phone SAMSUNG mo" None = ["mobile"%string] /\
  NoDup (getSuggestions phoneRepo "old ph" (Some 5)).
Proof.
  split; [vm_compute; reflexivity |]. split; [vm_compute; reflexivity |].
  split; [vm_compute; reflexivity |].
  apply (getSuggestions_are_distinct_completions phoneRepo "old ph" 5). lia.
Defined.
